(** * cubbychat backend: readiness state machine, stream relay, connection handler

    A shallow embedding of [backend/main.go].  The Go program keeps its state
    in package-level variables and talks to three outside parties: the Ollama
    HTTP service, one WebSocket client and the chat-history table.  Here the
    package variables become the record [Globals]; every call that leaves the
    process is answered by an [Env] (the k-th call of a kind gets the k-th
    answer) and leaves an [Event] in the trace of the [World].  The functions
    of main.go are written in a state monad over [World], one definition per
    Go function, loops as recursion over the values the loop variable takes.
    Calls of the [log] package leave no event. *)

From Stdlib Require Import String Ascii List Bool Arith ZArith Lia.
From Stdlib Require Import DecimalString DecimalNat.
Import ListNotations.
Open Scope string_scope.

Set Implicit Arguments.
Set Warnings "-register-all".

(** ** Wire types *)

(** [OllamaRequest]; the probe's [map[string]interface{}] literal has the same
    three keys and is given the same shape. *)
Record OllamaRequest := {
  Model : string;
  Prompt : string;
  Stream : bool
}.

Record OllamaStreamResponse := {
  Response : string;
  Done : bool
}.

(** [OllamaModel] without its nested [Details] struct, which is never read. *)
Record OllamaModel := {
  Name : string;
  ModifiedAt : string;
  Size : Z;
  Digest : string
}.

Record OllamaModelsResponse := {
  Models : list OllamaModel
}.

(** A decoded JSON value, what [interface{}] holds after [json.Unmarshal]. *)
Inductive JSON :=
| JNull
| JBool (b : bool)
| JNumber (literal : string)
| JString (s : string)
| JArray (items : list JSON)
| JObject (members : list (string * JSON)).

(** Reading a [map[string]interface{}] as [json.Unmarshal] fills it: members
    are stored in order, so the last binding of a key is the one that stays,
    and a key that was never stored reads as nil. *)
Fixpoint lookup (m : list (string * JSON)) (key : string) : option JSON :=
  match m with
  | [] => None
  | (k, v) :: rest =>
      match lookup rest key with
      | Some later => Some later
      | None => if String.eqb k key then Some v else None
      end
  end.

Definition index (m : list (string * JSON)) (key : string) : JSON :=
  match lookup m key with
  | Some v => v
  | None => JNull
  end.

Definition isNil (v : JSON) : bool :=
  match v with JNull => true | _ => false end.

(** ** The outside world *)

(** What resty hands back for a buffered request: an error, or a status code
    with the body. *)
Inductive HttpResult :=
| HttpErr (err : string)
| HttpOk (StatusCode : Z) (Body : string).

(** What the streaming call hands back: an error, or a raw body, seen through
    [bufio.Scanner] as the tokens [Scan] delivers and the final [Err]. *)
Inductive StreamResult :=
| StreamErr (err : string)
| StreamOk (lines : list string) (scanErr : option string).

Record Env := {
  (* encoding/json, one decoder per target type; None is a non-nil error *)
  unmarshalStream : string -> option OllamaStreamResponse;
  unmarshalModels : string -> option OllamaModelsResponse;
  unmarshalMap : string -> option (list (string * JSON));
  (* the Ollama service *)
  tagsReply : nat -> HttpResult;
  generateReply : nat -> HttpResult;
  streamReply : nat -> StreamResult;
  (* the WebSocket peer: does the k-th WriteMessage succeed *)
  writeOK : nat -> bool;
  (* math/rand: the k-th raw draw *)
  rand : nat -> nat
}.

Inductive Event :=
| EvStatus (s : string)                      (* modelStatus = s *)
| EvModel (m : string)                       (* ollamaModel = m *)
| EvReady                                    (* modelReady.Store(true) *)
| EvNeverReady                               (* modelNeverReady.Store(true) *)
| EvGet (url : string)
| EvPost (url : string) (req : OllamaRequest)
| EvSleep (seconds : nat)
| EvWrite (msg : string) (ok : bool)         (* conn.WriteMessage *)
| EvSave (sender message : string).          (* INSERT INTO chat_history *)

Record Globals := {
  ollamaURL : string;
  ollamaEnabled : bool;
  ollamaModel : string;
  modelReady : bool;
  modelStatus : string;
  modelNeverReady : bool
}.

(** How many calls of each kind have been made so far. *)
Record Meter := {
  tagsCalls : nat;
  generateCalls : nat;
  streamCalls : nat;
  writeCalls : nat;
  randCalls : nat
}.

Record World := {
  globals : Globals;
  meter : Meter;
  trace : list Event
}.

(** The package-level initialisers, after [main] has read its environment. *)
Definition initialWorld (url : string) (enabled : bool) : World :=
  {| globals := {| ollamaURL := url; ollamaEnabled := enabled;
                   ollamaModel := EmptyString; modelReady := false;
                   modelStatus := "initializing"; modelNeverReady := false |};
     meter := {| tagsCalls := 0; generateCalls := 0; streamCalls := 0;
                 writeCalls := 0; randCalls := 0 |};
     trace := [] |}.

(** ** State monad *)

Definition M (A : Type) : Type := World -> A * World.

Definition ret {A} (a : A) : M A := fun w => (a, w).

Definition bind {A B} (c : M A) (k : A -> M B) : M B :=
  fun w => let (a, w') := c w in k a w'.

Notation "x <- c ;; k" := (bind c (fun x => k))
  (at level 61, c at next level, right associativity).
Notation "c ;; k" := (bind c (fun _ => k))
  (at level 61, right associativity).

Definition exec {A} (c : M A) (w : World) : World := snd (c w).

Definition emit (e : Event) : M unit :=
  fun w => (tt, {| globals := globals w; meter := meter w;
                   trace := trace w ++ [e] |}).

Definition load {A} (field : Globals -> A) : M A :=
  fun w => (field (globals w), w).

Definition store (f : Globals -> Globals) : M unit :=
  fun w => (tt, {| globals := f (globals w); meter := meter w;
                   trace := trace w |}).

Definition count {A} (read : Meter -> A) (bump : Meter -> Meter) : M A :=
  fun w => (read (meter w), {| globals := globals w; meter := bump (meter w);
                               trace := trace w |}).

Definition setStatus (s : string) : M unit :=
  store (fun g => {| ollamaURL := ollamaURL g; ollamaEnabled := ollamaEnabled g;
                     ollamaModel := ollamaModel g; modelReady := modelReady g;
                     modelStatus := s; modelNeverReady := modelNeverReady g |}) ;;
  emit (EvStatus s).

Definition setModel (m : string) : M unit :=
  store (fun g => {| ollamaURL := ollamaURL g; ollamaEnabled := ollamaEnabled g;
                     ollamaModel := m; modelReady := modelReady g;
                     modelStatus := modelStatus g;
                     modelNeverReady := modelNeverReady g |}) ;;
  emit (EvModel m).

Definition storeReady : M unit :=
  store (fun g => {| ollamaURL := ollamaURL g; ollamaEnabled := ollamaEnabled g;
                     ollamaModel := ollamaModel g; modelReady := true;
                     modelStatus := modelStatus g;
                     modelNeverReady := modelNeverReady g |}) ;;
  emit EvReady.

Definition storeNeverReady : M unit :=
  store (fun g => {| ollamaURL := ollamaURL g; ollamaEnabled := ollamaEnabled g;
                     ollamaModel := ollamaModel g; modelReady := modelReady g;
                     modelStatus := modelStatus g; modelNeverReady := true |}) ;;
  emit EvNeverReady.

Definition sleep (seconds : nat) : M unit := emit (EvSleep seconds).

Section Program.

Variable E : Env.

Definition httpGetTags (url : string) : M HttpResult :=
  k <- count tagsCalls
         (fun m => {| tagsCalls := S (tagsCalls m); generateCalls := generateCalls m;
                      streamCalls := streamCalls m; writeCalls := writeCalls m;
                      randCalls := randCalls m |}) ;;
  emit (EvGet url) ;;
  ret (tagsReply E k).

Definition httpPostGenerate (url : string) (req : OllamaRequest) : M HttpResult :=
  k <- count generateCalls
         (fun m => {| tagsCalls := tagsCalls m; generateCalls := S (generateCalls m);
                      streamCalls := streamCalls m; writeCalls := writeCalls m;
                      randCalls := randCalls m |}) ;;
  emit (EvPost url req) ;;
  ret (generateReply E k).

Definition httpPostStream (url : string) (req : OllamaRequest) : M StreamResult :=
  k <- count streamCalls
         (fun m => {| tagsCalls := tagsCalls m; generateCalls := generateCalls m;
                      streamCalls := S (streamCalls m); writeCalls := writeCalls m;
                      randCalls := randCalls m |}) ;;
  emit (EvPost url req) ;;
  ret (streamReply E k).

(** [conn.WriteMessage(websocket.TextMessage, msg)]; true when err == nil. *)
Definition WriteMessage (msg : string) : M bool :=
  k <- count writeCalls
         (fun m => {| tagsCalls := tagsCalls m; generateCalls := generateCalls m;
                      streamCalls := streamCalls m; writeCalls := S (writeCalls m);
                      randCalls := randCalls m |}) ;;
  emit (EvWrite msg (writeOK E k)) ;;
  ret (writeOK E k).

(** [rand.Intn(n)] for n > 0: a value below n. *)
Definition Intn (n : nat) : M nat :=
  k <- count randCalls
         (fun m => {| tagsCalls := tagsCalls m; generateCalls := generateCalls m;
                      streamCalls := streamCalls m; writeCalls := writeCalls m;
                      randCalls := S (randCalls m) |}) ;;
  ret (rand E k mod n).

(** [saveMessage]: one INSERT; a database error is only logged. *)
Definition saveMessage (sender message : string) : M unit :=
  emit (EvSave sender message).

(** ** Stream relay *)

(** The [for scanner.Scan()] loop of [streamOllamaResponse], over the lines
    still to come; returns [fullResponse] as it stands when the loop ends. *)
Fixpoint relayLines (lines : list string) (fullResponse : string) : M string :=
  match lines with
  | [] => ret fullResponse
  | line :: rest =>
      match unmarshalStream E line with
      | None => relayLines rest fullResponse                        (* continue *)
      | Some result =>
          ok <- WriteMessage (Response result) ;;
          if negb ok then ret fullResponse                          (* break *)
          else
            let fullResponse := fullResponse ++ Response result in
            if Done result then ret fullResponse                    (* break *)
            else relayLines rest fullResponse
      end
  end.

Definition streamOllamaResponse (prompt : string) : M unit :=
  url <- load ollamaURL ;;
  model <- load ollamaModel ;;
  let ollamaGenerateURL := url ++ "/api/generate" in
  let request := {| Model := model; Prompt := prompt; Stream := true |} in
  resp <- httpPostStream ollamaGenerateURL request ;;
  match resp with
  | StreamErr _ =>
      WriteMessage "Error processing request" ;;
      ret tt
  | StreamOk lines _ =>
      fullResponse <- relayLines lines EmptyString ;;
      saveMessage "AI" fullResponse
  end.

(** ** Connection handler *)

Definition waitingMessages : list string := [
  "🦥 Hold on! The AI is still having its morning coffee...";
  "🚀 The model is warming up its neural networks...";
  "🧠 Please wait, the AI is doing some mental push-ups...";
  "🎮 The AI is still loading, maybe it's stuck on a loading screen?";
  "☕ Brewing intelligence... This may take a moment!";
  "🏃 The neurons are still jogging to their positions...";
  "📚 The AI is speed-reading the entire internet, be right with you!";
  "🧘 The model is meditating to achieve consciousness...";
  "🔌 Still downloading wisdom from the cloud...";
  "🎪 The AI circus is still setting up its tent!"
].

Definition noAIMessages : list string := [
  "🤖 Sorry, our AI took the day off. It's probably at the beach somewhere...";
  "🎭 The AI is unavailable. It's currently pursuing its dream of becoming a Broadway star.";
  "🏖️ AI.exe not found. Did you check if it went on vacation?";
  "🎨 No AI here! The silicon brain decided to become an artist instead.";
  "🚫 AI is MIA. Last seen contemplating the meaning of consciousness.";
  "🎪 The AI has left the building. Elvis style.";
  "🌙 AI is offline. Probably dreaming of electric sheep.";
  "📵 No AI signal detected. Maybe it's in airplane mode?";
  "🎓 The AI is unavailable - it went back to school to study philosophy.";
  "🧳 AI is out of office. Return date: undefined."
].

(** The body of the [for] loop of [handleWebSocket], after [ReadMessage] has
    returned [msg] without error.  Both atomic loads read the flags of the
    world the message is handled in: with respect to [checkModelReady], which
    runs in a goroutine of its own, one turn of the loop is one step. *)
Definition handleMessage (msg : string) : M unit :=
  saveMessage "User" msg ;;
  never <- load modelNeverReady ;;
  if never then
    i <- Intn (length noAIMessages) ;;
    let noAIMsg := nth i noAIMessages EmptyString in
    WriteMessage noAIMsg ;;
    saveMessage "AI" noAIMsg                                        (* continue *)
  else
    ready <- load modelReady ;;
    if negb ready then
      i <- Intn (length waitingMessages) ;;
      let waitMsg := nth i waitingMessages EmptyString in
      WriteMessage waitMsg ;;
      saveMessage "AI" waitMsg                                      (* continue *)
    else
      streamOllamaResponse msg.

(** The loop itself, over the messages [ReadMessage] delivers before it
    returns an error (the peer closing the connection is such an error). *)
Fixpoint serve (inbound : list string) : M unit :=
  match inbound with
  | [] => ret tt                                                    (* break *)
  | msg :: rest => handleMessage msg ;; serve rest
  end.

Definition handleWebSocket (upgraded : bool) (inbound : list string) : M unit :=
  if negb upgraded then ret tt else serve inbound.

(** ** Model discovery and generation probe *)

(** The errors the two probes return, one constructor per [fmt.Errorf]. *)
Inductive error :=
| ErrConnect (cause : string)            (* failed to connect to ollama: %v *)
| ErrStatus (code : Z)                   (* ollama returned status %d *)
| ErrParseModels                         (* failed to parse models response: %v *)
| ErrNoModels                            (* no models available in ollama *)
| ErrGenConnect (attempts : nat) (cause : string)
| ErrGenStatus (code : Z) (attempts : nat) (body : string)
| ErrGenParse (attempts : nat)
| ErrGenNoContent (attempts : nat)
| ErrGenExhausted (attempts : nat).

Definition getAvailableModel : M (string + error) :=
  url <- load ollamaURL ;;
  let ollamaModelsURL := url ++ "/api/tags" in
  setStatus "checking_models" ;;
  resp <- httpGetTags ollamaModelsURL ;;
  match resp with
  | HttpErr err =>
      setStatus "error_connecting" ;;
      ret (inr (ErrConnect err))
  | HttpOk code body =>
      if negb (code =? 200)%Z then
        setStatus "error_api" ;;
        ret (inr (ErrStatus code))
      else
        match unmarshalModels E body with
        | None =>
            setStatus "error_parsing" ;;
            ret (inr ErrParseModels)
        | Some modelsResp =>
            match Models modelsResp with
            | [] =>
                setStatus "no_models" ;;
                ret (inr ErrNoModels)
            | first :: _ =>
                let modelName := Name first in
                setStatus "model_found" ;;
                ret (inl modelName)
            end
        end
  end.

(** The tail shared by the four failure branches of the probe loop: sleep and
    go round again while attempts remain, otherwise set the tag and return. *)
Definition retryOrFail (testAttempt maxTestRetries : nat) (again : M (option error))
    (tag : string) (err : error) : M (option error) :=
  if (testAttempt <? maxTestRetries)%nat then
    sleep 2 ;;
    again                                                           (* continue *)
  else
    setStatus tag ;;
    ret (Some err).

(** The [for testAttempt := 1; testAttempt <= maxTestRetries; testAttempt++]
    loop, over the values of [testAttempt] still to come. *)
Fixpoint testAttempts (maxTestRetries : nat) (modelName : string)
    (attempts : list nat) : M (option error) :=
  match attempts with
  | [] =>
      setStatus "error_generation" ;;
      ret (Some (ErrGenExhausted maxTestRetries))
  | testAttempt :: rest =>
      let again := testAttempts maxTestRetries modelName rest in
      url <- load ollamaURL ;;
      let ollamaGenerateURL := url ++ "/api/generate" in
      let request := {| Model := modelName; Prompt := "Hi"; Stream := false |} in
      resp <- httpPostGenerate ollamaGenerateURL request ;;
      match resp with
      | HttpErr err =>
          retryOrFail testAttempt maxTestRetries again
            "error_generation" (ErrGenConnect maxTestRetries err)
      | HttpOk code body =>
          if negb (code =? 200)%Z then
            retryOrFail testAttempt maxTestRetries again
              "error_generation" (ErrGenStatus code maxTestRetries body)
          else
            match unmarshalMap E body with
            | None =>
                retryOrFail testAttempt maxTestRetries again
                  "error_parsing_response" (ErrGenParse maxTestRetries)
            | Some response =>
                if isNil (index response "response") then
                  retryOrFail testAttempt maxTestRetries again
                    "error_no_response" (ErrGenNoContent maxTestRetries)
                else
                  ret None
            end
      end
  end.

(** [testModelGeneration] with its local [maxTestRetries] as an argument. *)
Definition testModelGenerationN (maxTestRetries : nat) (modelName : string)
    : M (option error) :=
  setStatus "testing_generation" ;;
  testAttempts maxTestRetries modelName (seq 1 maxTestRetries).

Definition testModelGeneration (modelName : string) : M (option error) :=
  testModelGenerationN 100 modelName.

(** ** Readiness state machine *)

(** [%d] of a non-negative int. *)
Definition itoa (n : nat) : string := NilEmpty.string_of_uint (Nat.to_uint n).

(** The [for attempt := 1; attempt <= maxRetries; attempt++] loop of
    [checkModelReady], over the values of [attempt] still to come. *)
Fixpoint readyAttempts (attempts : list nat) : M unit :=
  match attempts with
  | [] =>
      setStatus "failed"
  | attempt :: rest =>
      (if (1 <? attempt)%nat then
         setStatus ("retry_" ++ itoa attempt) ;;
         sleep 10
       else ret tt) ;;
      found <- getAvailableModel ;;
      match found with
      | inr _ => readyAttempts rest                                 (* continue *)
      | inl model =>
          setModel model ;;
          name <- load ollamaModel ;;
          probe <- testModelGeneration name ;;
          match probe with
          | Some _ => readyAttempts rest                            (* continue *)
          | None =>
              setStatus "ready" ;;
              storeReady
          end
      end
  end.

(** [checkModelReady] with its local [maxRetries] as an argument. *)
Definition checkModelReadyN (maxRetries : nat) : M unit :=
  enabled <- load ollamaEnabled ;;
  if negb enabled then
    setStatus "disabled" ;;
    storeNeverReady
  else
    setStatus "starting" ;;
    readyAttempts (seq 1 maxRetries).

Definition checkModelReady : M unit := checkModelReadyN 100.

End Program.

(** ** Process start *)

(** What [main] finds when the process starts. *)
Record Process := {
  getenv : string -> string;             (* os.Getenv: empty when unset *)
  poolError : option string;             (* err of pgxpool.New *)
  createTableError : option string;      (* err of the CREATE TABLE statement *)
  listenError : option string            (* err of http.ListenAndServe *)
}.

(** How [main] ends: in [log.Fatal], or serving on [addr] with the package
    variables of [w] and [checkModelReady] started on them. *)
Inductive Outcome :=
| Fatal (message : string)
| Listening (addr : string) (w : World).

(** [createTable] and [initDB]: the message of their [log.Fatal], if any. *)
Definition createTable (P : Process) : option string :=
  match createTableError P with
  | Some err => Some ("❌ Failed to create table:" ++ err)
  | None => None
  end.

Definition initDB (P : Process) : option string :=
  match poolError P with
  | Some err => Some ("Unable to connect to database: " ++ err)
  | None => createTable P
  end.

Definition main (P : Process) : Outcome :=
  let url := getenv P "OLLAMA_URL" in
  if String.eqb url EmptyString then
    Fatal "OLLAMA_URL environment variable not set"
  else
    let ollamaEnabledStr := getenv P "OLLAMA_ENABLED" in
    let enabled := negb (String.eqb ollamaEnabledStr "false") in
    match initDB P with
    | Some message => Fatal message
    | None =>
        let port := getenv P "PORT" in
        let port := if String.eqb port EmptyString then "8080" else port in
        match listenError P with
        | Some err => Fatal ("Server error:" ++ err)
        | None => Listening (":" ++ port) (initialWorld url enabled)
        end
    end.

(** ** HTTP handlers *)

Record Request := {
  Method : string
}.

(** What a handler writes: a line of text, or a value through
    [json.NewEncoder(w).Encode]. *)
Inductive Payload :=
| Text (line : string)
| Encoded (v : JSON).

(** [http.ResponseWriter]: the header map, the status line with the headers
    as they stood when it was written, and the body written so far. *)
Record ResponseWriter := {
  Header : list (string * string);
  Sent : option (nat * list (string * string));
  Written : list Payload
}.

Definition newResponse : ResponseWriter :=
  {| Header := []; Sent := None; Written := [] |}.

Fixpoint headerGet (h : list (string * string)) (key : string) : option string :=
  match h with
  | [] => None
  | (k, v) :: rest => if String.eqb k key then Some v else headerGet rest key
  end.

Fixpoint headerDel (h : list (string * string)) (key : string) : list (string * string) :=
  match h with
  | [] => []
  | (k, v) :: rest =>
      if String.eqb k key then headerDel rest key else (k, v) :: headerDel rest key
  end.

(** [w.Header().Set(key, value)] *)
Definition Set_ (key value : string) (w : ResponseWriter) : ResponseWriter :=
  {| Header := (key, value) :: headerDel (Header w) key;
     Sent := Sent w; Written := Written w |}.

(** [w.Header().Del(key)] *)
Definition Del (key : string) (w : ResponseWriter) : ResponseWriter :=
  {| Header := headerDel (Header w) key; Sent := Sent w; Written := Written w |}.

(** [w.WriteHeader(code)]; a second call changes nothing. *)
Definition WriteHeader (code : nat) (w : ResponseWriter) : ResponseWriter :=
  match Sent w with
  | Some _ => w
  | None => {| Header := Header w; Sent := Some (code, Header w); Written := Written w |}
  end.

(** A write to the body, which sends the status line with 200 first when
    none has been sent. *)
Definition Write (p : Payload) (w : ResponseWriter) : ResponseWriter :=
  let w := WriteHeader 200 w in
  {| Header := Header w; Sent := Sent w; Written := Written w ++ [p] |}.

Definition Encode (v : JSON) (w : ResponseWriter) : ResponseWriter := Write (Encoded v) w.

(** [http.Error(w, error, code)] *)
Definition Error (error : string) (code : nat) (w : ResponseWriter) : ResponseWriter :=
  let w := Del "Content-Length" w in
  let w := Set_ "Content-Type" "text/plain; charset=utf-8" w in
  let w := Set_ "X-Content-Type-Options" "nosniff" w in
  let w := WriteHeader code w in
  Write (Text error) w.

Definition HandlerFunc : Type := ResponseWriter -> Request -> ResponseWriter.

Definition corsMiddleware (next : HandlerFunc) : HandlerFunc :=
  fun w r =>
    let w := Set_ "Access-Control-Allow-Origin" "*" w in
    let w := Set_ "Access-Control-Allow-Methods" "GET, POST, OPTIONS" w in
    let w := Set_ "Access-Control-Allow-Headers" "Content-Type" w in
    if String.eqb (Method r) "OPTIONS" then
      WriteHeader 200 w
    else
      next w r.

Record ChatMessage := {
  ID : Z;
  Sender : string;
  Message : string;
  Timestamp : string            (* a time.Time, as the encoder renders it *)
}.

(** [%d] of an int. *)
Definition ztoa (z : Z) : string :=
  if (z <? 0)%Z then "-" ++ itoa (Z.abs_nat z) else itoa (Z.abs_nat z).

(** How the encoder renders a [ChatMessage], by its json tags. *)
Definition messageJSON (m : ChatMessage) : JSON :=
  JObject [("id", JNumber (ztoa (ID m))); ("sender", JString (Sender m));
           ("message", JString (Message m)); ("timestamp", JString (Timestamp m))].

(** How the encoder renders the slice [history] of [getChatHistory]: the
    slice is nil until the first [append], and a nil slice is rendered as
    null. *)
Definition historyJSON (history : list ChatMessage) : JSON :=
  match history with
  | [] => JNull
  | _ => JArray (map messageJSON history)
  end.

(** What [db.Query] hands back: an error, or the rows [rows.Next] delivers
    before it returns false, each with the outcome of its [rows.Scan]
    (None is an error), and the final [rows.Err], which is not looked at. *)
Inductive QueryResult :=
| QueryErr (err : string)
| QueryRows (rows : list (option ChatMessage)) (rowsErr : option string).

(** The [for rows.Next()] loop of [getChatHistory] and what follows it. *)
Fixpoint scanRows (rows : list (option ChatMessage)) (history : list ChatMessage)
    (w : ResponseWriter) : ResponseWriter :=
  match rows with
  | [] =>
      let w := Set_ "Content-Type" "application/json" w in
      Encode (historyJSON history) w
  | None :: _ =>
      Error "Error processing chat history" 500 w
  | Some msg :: rest =>
      scanRows rest (history ++ [msg]) w
  end.

Definition getChatHistory (query : QueryResult) : HandlerFunc :=
  fun w r =>
    match query with
    | QueryErr _ => Error "Failed to fetch chat history" 500 w
    | QueryRows rows _ => scanRows rows [] w
    end.

(** The build-time variables. *)
Record Build := {
  Version : string;
  GitCommit : string;
  BuildDate : string
}.

Definition devBuild : Build :=
  {| Version := "dev"; GitCommit := "unknown"; BuildDate := "unknown" |}.

Module Config.
Record t := {
  Title : string;
  Version : string;
  GitCommit : string;
  BuildDate : string;
  Model : string;
  Region : string;
  Role : string
}.

Definition toJSON (c : t) : JSON :=
  JObject [("title", JString (Title c)); ("version", JString (Version c));
           ("git_commit", JString (GitCommit c)); ("build_date", JString (BuildDate c));
           ("model", JString (Model c)); ("region", JString (Region c));
           ("role", JString (Role c))].
End Config.

Definition getConfig (P : Process) (B : Build) (g : Globals) : HandlerFunc :=
  fun w r =>
    let region := getenv P "REGION" in
    let region := if String.eqb region EmptyString then "unknown" else region in
    let role := getenv P "ROLE" in
    let role := if String.eqb role EmptyString then "unknown" else role in
    let config := {| Config.Title := getenv P "CHAT_TITLE";
                     Config.Version := Version B;
                     Config.GitCommit := GitCommit B;
                     Config.BuildDate := BuildDate B;
                     Config.Model := ollamaModel g;
                     Config.Region := region;
                     Config.Role := role |} in
    let w := Set_ "Content-Type" "application/json" w in
    Encode (Config.toJSON config) w.

Module ModelStatusResponse.
Record t := {
  Ready : bool;
  Status : string;
  Model : string
}.

Definition toJSON (s : t) : JSON :=
  JObject [("ready", JBool (Ready s)); ("status", JString (Status s));
           ("model", JString (Model s))].
End ModelStatusResponse.

Definition getModelStatus (g : Globals) : HandlerFunc :=
  fun w r =>
    let status := {| ModelStatusResponse.Ready := modelReady g;
                     ModelStatusResponse.Status := modelStatus g;
                     ModelStatusResponse.Model := ollamaModel g |} in
    let w := Set_ "Content-Type" "application/json" w in
    Encode (ModelStatusResponse.toJSON status) w.

(** The function literal registered for /api/ready. *)
Definition getReady (g : Globals) : HandlerFunc :=
  fun w r =>
    let w := Set_ "Content-Type" "application/json" w in
    Encode (JObject [("ready", JBool (modelReady g))]) w.

(** The four routes [main] registers behind [corsMiddleware]. *)
Inductive Route := ApiHistory | ApiConfig | ApiModelStatus | ApiReady.

Definition handlerOf (P : Process) (B : Build) (g : Globals) (query : QueryResult)
    (route : Route) : HandlerFunc :=
  match route with
  | ApiHistory => corsMiddleware (getChatHistory query)
  | ApiConfig => corsMiddleware (getConfig P B g)
  | ApiModelStatus => corsMiddleware (getModelStatus g)
  | ApiReady => corsMiddleware (getReady g)
  end.

(** ** A decoder for the JSON the service emits

    [encoding/json] is not part of the repository.  The program is
    parametric in its three decoders (the fields of [Env]); the module below
    is a decoder for concrete runs.  It reads the JSON grammar except [\u]
    escapes, and fills the target types by the rules of [json.Unmarshal] that
    the three targets meet: a top-level null leaves the zero value, keys
    match without regard to ASCII case, unknown keys are skipped, a null
    member leaves its field alone, a member of the wrong kind is an error. *)
Module Json.

Definition isSpace (c : ascii) : bool :=
  match nat_of_ascii c with
  | 32 | 9 | 10 | 13 => true
  | _ => false
  end.

Definition isDigit (c : ascii) : bool :=
  let n := nat_of_ascii c in (48 <=? n)%nat && (n <=? 57)%nat.

Definition quote : ascii := ascii_of_nat 34.
Definition backslash : ascii := ascii_of_nat 92.

Fixpoint skipSpace (s : string) : string :=
  match s with
  | String c r => if isSpace c then skipSpace r else s
  | EmptyString => s
  end.

Definition unescape (c : ascii) : option ascii :=
  match nat_of_ascii c with
  | 34 => Some quote
  | 92 => Some backslash
  | 47 => Some "/"%char
  | 98 => Some (ascii_of_nat 8)
  | 102 => Some (ascii_of_nat 12)
  | 110 => Some (ascii_of_nat 10)
  | 114 => Some (ascii_of_nat 13)
  | 116 => Some (ascii_of_nat 9)
  | _ => None
  end.

Definition consTo (c : ascii) (r : option (string * string)) : option (string * string) :=
  match r with
  | Some (s, rest) => Some (String c s, rest)
  | None => None
  end.

(** The characters of a string literal after its opening quote. *)
Fixpoint stringBody (s : string) : option (string * string) :=
  match s with
  | EmptyString => None
  | String c r =>
      if Ascii.eqb c quote then Some (EmptyString, r)
      else if Ascii.eqb c backslash then
        match r with
        | String e r' =>
            match unescape e with
            | Some c' => consTo c' (stringBody r')
            | None => None
            end
        | EmptyString => None
        end
      else if (nat_of_ascii c <? 32)%nat then None
      else consTo c (stringBody r)
  end.

Fixpoint digits (s : string) : string * string :=
  match s with
  | String c r =>
      if isDigit c then let (d, rest) := digits r in (String c d, rest)
      else (EmptyString, s)
  | EmptyString => (EmptyString, s)
  end.

Definition isEmpty (s : string) : bool :=
  match s with EmptyString => true | _ => false end.

Definition sign (s : string) : string * string :=
  match s with
  | String "-" r => ("-", r)
  | _ => (EmptyString, s)
  end.

Definition intPart (s : string) : option (string * string) :=
  match s with
  | String "0" r => Some ("0", r)
  | _ => let (d, r) := digits s in if isEmpty d then None else Some (d, r)
  end.

Definition fracPart (s : string) : option (string * string) :=
  match s with
  | String "." r =>
      let (d, r') := digits r in
      if isEmpty d then None else Some (String "." d, r')
  | _ => Some (EmptyString, s)
  end.

Definition expSign (s : string) : string * string :=
  match s with
  | String "+" r => ("+", r)
  | String "-" r => ("-", r)
  | _ => (EmptyString, s)
  end.

Definition expPart (s : string) : option (string * string) :=
  match s with
  | String c r =>
      if Ascii.eqb c "e" || Ascii.eqb c "E" then
        let (sg, r1) := expSign r in
        let (d, r2) := digits r1 in
        if isEmpty d then None else Some (String c (sg ++ d), r2)
      else Some (EmptyString, s)
  | EmptyString => Some (EmptyString, s)
  end.

Definition number (s : string) : option (string * string) :=
  let (sg, r0) := sign s in
  match intPart r0 with
  | None => None
  | Some (i, r1) =>
      match fracPart r1 with
      | None => None
      | Some (f, r2) =>
          match expPart r2 with
          | None => None
          | Some (e, r3) => Some (sg ++ i ++ f ++ e, r3)
          end
      end
  end.

Fixpoint dropPrefix (p s : string) : option string :=
  match p, s with
  | EmptyString, _ => Some s
  | String a p', String b s' => if Ascii.eqb a b then dropPrefix p' s' else None
  | String _ _, EmptyString => None
  end.

Definition literal (word : string) (v : JSON) (s : string) : option (JSON * string) :=
  match dropPrefix word s with
  | Some r => Some (v, r)
  | None => None
  end.

(** One value, the rest of an array after [[], the rest of an object after
    [{]; [fuel] bounds the number of nested calls. *)
Fixpoint value (fuel : nat) (s : string) {struct fuel} : option (JSON * string) :=
  match fuel with
  | 0 => None
  | S fuel =>
      let elements :=
        fix elements (n : nat) (s : string) {struct n} : option (list JSON * string) :=
          match n with
          | 0 => None
          | S n =>
              match value fuel s with
              | None => None
              | Some (v, r) =>
                  match skipSpace r with
                  | String "," r' =>
                      match elements n r' with
                      | Some (vs, r'') => Some (v :: vs, r'')
                      | None => None
                      end
                  | String "]" r' => Some ([v], r')
                  | _ => None
                  end
              end
          end in
      let members :=
        fix members (n : nat) (s : string) {struct n}
            : option (list (string * JSON) * string) :=
          match n with
          | 0 => None
          | S n =>
              match skipSpace s with
              | String c r =>
                  if Ascii.eqb c quote then
                    match stringBody r with
                    | None => None
                    | Some (k, r1) =>
                        match skipSpace r1 with
                        | String ":" r2 =>
                            match value fuel r2 with
                            | None => None
                            | Some (v, r3) =>
                                match skipSpace r3 with
                                | String "," r4 =>
                                    match members n r4 with
                                    | Some (ms, r5) => Some ((k, v) :: ms, r5)
                                    | None => None
                                    end
                                | String "}" r4 => Some ([(k, v)], r4)
                                | _ => None
                                end
                            end
                        | _ => None
                        end
                    end
                  else None
              | EmptyString => None
              end
          end in
      match skipSpace s with
      | EmptyString => None
      | String c r =>
          if Ascii.eqb c quote then
            match stringBody r with
            | Some (str, r') => Some (JString str, r')
            | None => None
            end
          else if Ascii.eqb c "{" then
            match skipSpace r with
            | String "}" r' => Some (JObject [], r')
            | _ =>
                match members (String.length r) r with
                | Some (ms, r') => Some (JObject ms, r')
                | None => None
                end
            end
          else if Ascii.eqb c "[" then
            match skipSpace r with
            | String "]" r' => Some (JArray [], r')
            | _ =>
                match elements (String.length r) r with
                | Some (vs, r') => Some (JArray vs, r')
                | None => None
                end
            end
          else if Ascii.eqb c "t" then literal "true" (JBool true) (String c r)
          else if Ascii.eqb c "f" then literal "false" (JBool false) (String c r)
          else if Ascii.eqb c "n" then literal "null" JNull (String c r)
          else
            match number (String c r) with
            | Some (lit, r') => Some (JNumber lit, r')
            | None => None
            end
      end
  end.

(** A whole document: one value and nothing but white space after it.  The
    nesting depth of a document is below its length. *)
Definition parse (s : string) : option JSON :=
  match value (S (String.length s)) s with
  | Some (v, r) => if isEmpty (skipSpace r) then Some v else None
  | None => None
  end.

Definition lower (c : ascii) : ascii :=
  let n := nat_of_ascii c in
  if (65 <=? n)%nat && (n <=? 90)%nat then ascii_of_nat (n + 32) else c.

Fixpoint equalFold (a b : string) : bool :=
  match a, b with
  | EmptyString, EmptyString => true
  | String x a', String y b' => Ascii.eqb (lower x) (lower y) && equalFold a' b'
  | _, _ => false
  end.

(** Decimal integer literals, for an [int64] field. *)
Fixpoint natOfDigits (acc : Z) (s : string) : option Z :=
  match s with
  | EmptyString => Some acc
  | String c r =>
      if isDigit c then natOfDigits (10 * acc + Z.of_nat (nat_of_ascii c - 48)) r
      else None
  end.

Definition int64OfLiteral (lit : string) : option Z :=
  let (sg, r) := sign lit in
  match natOfDigits 0 r with
  | None => None
  | Some n =>
      let z := if isEmpty sg then n else (- n)%Z in
      if ((- 2 ^ 63 <=? z) && (z <? 2 ^ 63))%Z then Some z else None
  end.

Definition stringField (v : JSON) (old : string) : option string :=
  match v with
  | JString s => Some s
  | JNull => Some old
  | _ => None
  end.

Definition boolField (v : JSON) (old : bool) : option bool :=
  match v with
  | JBool b => Some b
  | JNull => Some old
  | _ => None
  end.

Definition int64Field (v : JSON) (old : Z) : option Z :=
  match v with
  | JNumber lit => int64OfLiteral lit
  | JNull => Some old
  | _ => None
  end.

(** Members are stored one after the other into the struct; the first member
    of the wrong kind makes the call an error. *)
Fixpoint fillStream (ms : list (string * JSON)) (acc : OllamaStreamResponse)
    : option OllamaStreamResponse :=
  match ms with
  | [] => Some acc
  | (k, v) :: rest =>
      if equalFold k "response" then
        match stringField v (Response acc) with
        | Some s => fillStream rest {| Response := s; Done := Done acc |}
        | None => None
        end
      else if equalFold k "done" then
        match boolField v (Done acc) with
        | Some b => fillStream rest {| Response := Response acc; Done := b |}
        | None => None
        end
      else fillStream rest acc
  end.

Definition unmarshalStream (line : string) : option OllamaStreamResponse :=
  let zero := {| Response := EmptyString; Done := false |} in
  match parse line with
  | Some JNull => Some zero
  | Some (JObject ms) => fillStream ms zero
  | _ => None
  end.

Definition unmarshalMap (body : string) : option (list (string * JSON)) :=
  match parse body with
  | Some JNull => Some []
  | Some (JObject ms) => Some ms
  | _ => None
  end.

Definition isObjectOrNull (v : JSON) : bool :=
  match v with
  | JObject _ | JNull => true
  | _ => false
  end.

Fixpoint fillModel (ms : list (string * JSON)) (acc : OllamaModel) : option OllamaModel :=
  match ms with
  | [] => Some acc
  | (k, v) :: rest =>
      if equalFold k "name" then
        match stringField v (Name acc) with
        | Some s => fillModel rest {| Name := s; ModifiedAt := ModifiedAt acc;
                                      Size := Size acc; Digest := Digest acc |}
        | None => None
        end
      else if equalFold k "modified_at" then
        match stringField v (ModifiedAt acc) with
        | Some s => fillModel rest {| Name := Name acc; ModifiedAt := s;
                                      Size := Size acc; Digest := Digest acc |}
        | None => None
        end
      else if equalFold k "size" then
        match int64Field v (Size acc) with
        | Some z => fillModel rest {| Name := Name acc; ModifiedAt := ModifiedAt acc;
                                      Size := z; Digest := Digest acc |}
        | None => None
        end
      else if equalFold k "digest" then
        match stringField v (Digest acc) with
        | Some s => fillModel rest {| Name := Name acc; ModifiedAt := ModifiedAt acc;
                                      Size := Size acc; Digest := s |}
        | None => None
        end
      else if equalFold k "details" then
        if isObjectOrNull v then fillModel rest acc else None
      else fillModel rest acc
  end.

Definition zeroModel : OllamaModel :=
  {| Name := EmptyString; ModifiedAt := EmptyString; Size := 0; Digest := EmptyString |}.

Fixpoint models (items : list JSON) : option (list OllamaModel) :=
  match items with
  | [] => Some []
  | item :: rest =>
      let one :=
        match item with
        | JObject ms => fillModel ms zeroModel
        | JNull => Some zeroModel
        | _ => None
        end in
      match one, models rest with
      | Some m, Some l => Some (m :: l)
      | _, _ => None
      end
  end.

Fixpoint fillModels (ms : list (string * JSON)) (acc : list OllamaModel)
    : option (list OllamaModel) :=
  match ms with
  | [] => Some acc
  | (k, v) :: rest =>
      if equalFold k "models" then
        match v with
        | JArray items =>
            match models items with
            | Some l => fillModels rest l
            | None => None
            end
        | JNull => fillModels rest acc
        | _ => None
        end
      else fillModels rest acc
  end.

Definition unmarshalModels (body : string) : option OllamaModelsResponse :=
  match parse body with
  | Some JNull => Some {| Models := [] |}
  | Some (JObject ms) =>
      match fillModels ms [] with
      | Some l => Some {| Models := l |}
      | None => None
      end
  | _ => None
  end.

End Json.

(** ** Concrete environments *)

Definition q : string := String Json.quote EmptyString.

(** [{"response":<text>,"done":<done>}] *)
Definition chunkLine (text : string) (done : bool) : string :=
  "{" ++ q ++ "response" ++ q ++ ":" ++ q ++ text ++ q ++ ","
      ++ q ++ "done" ++ q ++ ":" ++ (if done then "true" else "false") ++ "}".

(** [{"models":[{"name":<name>,"size":1}]}] *)
Definition tagsBody (name : string) : string :=
  "{" ++ q ++ "models" ++ q ++ ":[{" ++ q ++ "name" ++ q ++ ":" ++ q ++ name ++ q
      ++ "," ++ q ++ "size" ++ q ++ ":1}]}".

Definition noModelsBody : string := "{" ++ q ++ "models" ++ q ++ ":[]}".

(** An environment with the decoders of [Json], a service that answers every
    call the same way, a peer that accepts the first [alive] writes and a
    random source that counts up. *)
Definition steady (tags generate : HttpResult) (stream : StreamResult) (alive : nat) : Env :=
  {| unmarshalStream := Json.unmarshalStream;
     unmarshalModels := Json.unmarshalModels;
     unmarshalMap := Json.unmarshalMap;
     tagsReply := fun _ => tags;
     generateReply := fun _ => generate;
     streamReply := fun _ => stream;
     writeOK := fun k => (k <? alive)%nat;
     rand := fun k => k |}.

(** * The frontend

    The two React components, [Chat.tsx] and [ModelStatus.tsx].  A piece of
    component state is a value, and an event handler or effect is the function
    from the state before it to the state after it; React applies each update
    once, in the order of the events.  A text frame the backend wrote and the
    peer accepted arrives as one message event, in the order of the writes.
    What [fetch] returns is the response the backend's handler produced. *)

(** ** Chat.tsx *)

Module Chat.

Record Message := {
  sender : string;
  text : string
}.

(** The initial value of the [messages] state. *)
Definition initialMessages : list Message :=
  [{| sender := "AI";
      text := "Hello! I'm Cubby 🧸, your friendly chat assistant. How can I help you today?" |}].




Section Component.

(** [String.prototype.trim] *)
Variable trim : string -> string.


End Component.


(** How far these definitions follow a JavaScript expression: to a value,
    to a thrown exception, or not at all, when a member has a type the
    component's state does not declare. *)
Inductive Completion (A : Type) :=
| Normal (a : A)
| Throw
| Untyped.
Arguments Normal {A} a.
Arguments Throw {A}.
Arguments Untyped {A}.

(** [{ sender: msg.sender, text: msg.message }]; reading a member of null
    throws. *)
Definition entry (msg : JSON) : Completion Message :=
  match msg with
  | JNull => Throw
  | JObject members =>
      match lookup members "sender", lookup members "message" with
      | Some (JString s), Some (JString t) => Normal {| sender := s; text := t |}
      | _, _ => Untyped
      end
  | _ => Untyped
  end.

(** [history.map(...)] over the items of an array. *)
Fixpoint mapEntries (items : list JSON) : Completion (list Message) :=
  match items with
  | [] => Normal []
  | msg :: rest =>
      match entry msg with
      | Throw => Throw
      | Untyped =>
          match mapEntries rest with
          | Throw => Throw
          | _ => Untyped
          end
      | Normal m =>
          match mapEntries rest with
          | Normal ms => Normal (m :: ms)
          | Throw => Throw
          | Untyped => Untyped
          end
      end
  end.

(** [loadChatHistory]: the [messages] state after the button was pressed and
    the fetch of /api/history was answered with [response].  Whatever is
    thrown inside the try block is caught and leaves the state as it was;
    None when the body has members of undeclared types. *)
Definition loadChatHistory (response : ResponseWriter) (messages : list Message)
    : option (list Message) :=
  match Sent response with
  | Some (code, _) =>
      if ((200 <=? code) && (code <=? 299))%nat then
        match Written response with
        | [Encoded history] =>
            match history with
            | JArray items =>
                match mapEntries items with
                | Normal ms => Some ms
                | Throw => Some messages
                | Untyped => None
                end
            | _ => Some messages          (* no map to call *)
            end
        | _ => Some messages              (* response.json() rejects *)
        end
      else Some messages                  (* !response.ok *)
  | None => Some messages                 (* fetch rejects *)
  end.

(** The [config] state. *)
Record ConfigState := {
  model : string;
  version : string;
  region : string;
  role : string
}.

Definition initialTitle : string := "🧸 Cubby Chat".

Definition initialConfig : ConfigState :=
  {| model := "unknown"; version := "unknown"; region := "unknown"; role := "unknown" |}.

(** [member || fallback] for a member that is a string, null or missing. *)
Definition orElse (member : option JSON) (fallback : string) : option string :=
  match member with
  | None | Some JNull => Some fallback
  | Some (JString s) => Some (if String.eqb s EmptyString then fallback else s)
  | Some _ => None
  end.

(** The state updates of the config effect for the parsed body [data]:
    the title and the config.  None when [data] is not an object whose
    members read here are strings, null or missing. *)
Definition applyConfig (data : JSON) : option (string * ConfigState) :=
  match data with
  | JObject members =>
      match orElse (lookup members "title") "Cubby Chat",
            orElse (lookup members "model") "unknown",
            orElse (lookup members "version") "unknown",
            orElse (lookup members "region") "unknown",
            orElse (lookup members "role") "unknown" with
      | Some t, Some m, Some v, Some rg, Some rl =>
          Some ("🧸 " ++ t,
                {| model := m; version := v; region := rg; role := rl |})
      | _, _, _, _, _ => None
      end
  | _ => None
  end.

End Chat.

(** ** ModelStatus.tsx *)

Module ModelStatus.

(** The [status] state, as polled from /api/model-status. *)
Record ModelStatusData := {
  ready : bool;
  status : string;
  model : string
}.

Definition initialStatus : ModelStatusData :=
  {| ready := false; status := "initializing"; model := "unknown" |}.

Record StatusInfo := {
  color : string;
  text : string;
  progress : nat;
  icon : bool                  (* a Loader, or null *)
}.

Definition oneOf (s : string) (cases : list string) : bool :=
  existsb (String.eqb s) cases.

Definition getStatusInfo (st : ModelStatusData) : StatusInfo :=
  let s := status st in
  if String.eqb s "initializing" then
    {| color := "blue"; text := "🚀 Initializing..."; progress := 10; icon := true |}
  else if String.eqb s "checking_models" then
    {| color := "blue"; text := "🔍 Checking available models..."; progress := 20;
       icon := true |}
  else if String.eqb s "model_found" then
    {| color := "yellow"; text := "📥 Found model: " ++ model st; progress := 40;
       icon := true |}
  else if String.eqb s "testing_generation" then
    {| color := "orange"; text := "🧪 Loading model into memory..."; progress := 70;
       icon := true |}
  else if String.eqb s "ready" then
    {| color := "green"; text := "✅ Ready: " ++ model st; progress := 100;
       icon := false |}
  else if oneOf s ["retry_1"; "retry_2"; "retry_3"; "retry_4"; "retry_5"] then
    {| color := "yellow"; text := "🔄 Retrying model loading..."; progress := 50;
       icon := true |}
  else if String.eqb s "error_connecting" then
    {| color := "red"; text := "❌ Connection error"; progress := 0; icon := false |}
  else if String.eqb s "error_api" then
    {| color := "red"; text := "❌ API error"; progress := 0; icon := false |}
  else if String.eqb s "error_generation" then
    {| color := "red"; text := "❌ Model generation failed"; progress := 0;
       icon := false |}
  else if String.eqb s "no_models" then
    {| color := "red"; text := "❌ No models available"; progress := 0; icon := false |}
  else if String.eqb s "failed" then
    {| color := "red"; text := "❌ Model loading failed"; progress := 0; icon := false |}
  else
    {| color := "gray"; text := "🔄 " ++ s; progress := 30; icon := true |}.

(** Whether the progress bar is rendered next to the badge. *)
Definition showsProgress (st : ModelStatusData) : bool :=
  negb (ready st) && (0 <? progress (getStatusInfo st))%nat.

(** [setStatus(data)] for the parsed body [data] of a poll, when it is an
    object whose three members have the types [ModelStatusData] declares. *)
Definition polled (data : JSON) : option ModelStatusData :=
  match data with
  | JObject members =>
      match lookup members "ready", lookup members "status", lookup members "model" with
      | Some (JBool r), Some (JString s), Some (JString m) =>
          Some {| ready := r; status := s; model := m |}
      | _, _, _ => None
      end
  | _ => None
  end.

End ModelStatus.

(** * Properties *)

Open Scope list_scope.
Unset Implicit Arguments.

(** ** Reading traces *)

(** The text messages a trace hands to the WebSocket peer, in order. *)
Fixpoint sinkWrites (tr : list Event) : list string :=
  match tr with
  | [] => []
  | EvWrite msg _ :: rest => msg :: sinkWrites rest
  | _ :: rest => sinkWrites rest
  end.

(** The upstream requests of a trace. *)
Fixpoint posts (tr : list Event) : list OllamaRequest :=
  match tr with
  | [] => []
  | EvPost _ req :: rest => req :: posts rest
  | _ :: rest => posts rest
  end.

Lemma sinkWrites_app (a b : list Event) :
  sinkWrites (a ++ b) = sinkWrites a ++ sinkWrites b.
Proof.
  induction a as [|e a IH]; [reflexivity|].
  destruct e; simpl; rewrite ?IH; reflexivity.
Qed.

Ltac step := unfold exec, bind, ret, load, store, count, emit; simpl.
Ltac tidy := repeat rewrite <- app_assoc; simpl.

Section RelayFacts.

Variable E : Env.

(** The chunks of a body: its lines that decode, in order. *)
Fixpoint decoded (lines : list string) : list OllamaStreamResponse :=
  match lines with
  | [] => []
  | line :: rest =>
      match unmarshalStream E line with
      | Some c => c :: decoded rest
      | None => decoded rest
      end
  end.

(** The chunks up to and including the first one that is done. *)
Fixpoint untilDone (chunks : list OllamaStreamResponse) : list OllamaStreamResponse :=
  match chunks with
  | [] => []
  | c :: rest => if Done c then [c] else c :: untilDone rest
  end.

Definition texts (chunks : list OllamaStreamResponse) : list string :=
  map Response chunks.

Definition joined (msgs : list string) : string :=
  fold_right String.append EmptyString msgs.

(** The world after writing [msgs] to the peer one after the other. *)
Fixpoint deliver (msgs : list string) (w : World) : World :=
  match msgs with
  | [] => w
  | m :: rest => deliver rest (exec (WriteMessage E m) w)
  end.

(** The events of writing [msgs], the first of them being write number [k]. *)
Fixpoint writeEvents (k : nat) (msgs : list string) : list Event :=
  match msgs with
  | [] => []
  | m :: rest => EvWrite m (writeOK E k) :: writeEvents (S k) rest
  end.



Lemma sinkWrites_writeEvents (k : nat) (msgs : list string) :
  sinkWrites (writeEvents k msgs) = msgs.
Proof.
  revert k. induction msgs as [|m msgs IH]; intro k; simpl; [|rewrite IH]; reflexivity.
Qed.

Lemma trace_deliver (msgs : list string) (w : World) :
  trace (deliver msgs w) = trace w ++ writeEvents (writeCalls (meter w)) msgs.
Proof.
  revert w. induction msgs as [|m msgs IH]; intro w; simpl.
  - rewrite app_nil_r. reflexivity.
  - rewrite IH. step. tidy. reflexivity.
Qed.

Lemma globals_deliver (msgs : list string) (w : World) :
  globals (deliver msgs w) = globals w.
Proof.
  revert w. induction msgs as [|m msgs IH]; intro w; simpl; [reflexivity|].
  rewrite IH. reflexivity.
Qed.

Lemma writeCalls_deliver (msgs : list string) (w : World) :
  writeCalls (meter (deliver msgs w)) = writeCalls (meter w) + length msgs.
Proof.
  revert w. induction msgs as [|m msgs IH]; intro w; simpl; [lia|].
  rewrite IH. step. lia.
Qed.

Lemma joined_app (a b : list string) :
  joined (a ++ b) = (joined a ++ joined b)%string.
Proof.
  induction a as [|m a IH]; simpl; [reflexivity|].
  rewrite IH. induction m as [|c m IHm]; simpl; [reflexivity|].
  rewrite IHm. reflexivity.
Qed.

Lemma append_assoc (a b c : string) : ((a ++ b) ++ c = a ++ b ++ c)%string.
Proof.
  induction a as [|x a IH]; simpl; [|rewrite IH]; reflexivity.
Qed.

Lemma append_empty (a : string) : (a ++ EmptyString)%string = a.
Proof.
  induction a as [|x a IH]; simpl; [|rewrite IH]; reflexivity.
Qed.

(** One turn of the loop on a line that decodes. *)
Lemma relayLines_chunk (l : string) (rest : list string) (c : OllamaStreamResponse)
    (acc : string) (w : World) :
  unmarshalStream E l = Some c ->
  relayLines E (l :: rest) acc w =
    if writeOK E (writeCalls (meter w)) then
      if Done c then ((acc ++ Response c)%string, exec (WriteMessage E (Response c)) w)
      else relayLines E rest (acc ++ Response c)%string (exec (WriteMessage E (Response c)) w)
    else (acc, exec (WriteMessage E (Response c)) w).
Proof.
  intro Hl. simpl. rewrite Hl. unfold WriteMessage. step.
  destruct (writeOK E (writeCalls (meter w))); simpl; [|reflexivity].
  destruct (Done c); reflexivity.
Qed.

Lemma relayLines_noise (l : string) (rest : list string) (acc : string) (w : World) :
  unmarshalStream E l = None ->
  relayLines E (l :: rest) acc w = relayLines E rest acc w.
Proof.
  intro Hl. simpl. rewrite Hl. reflexivity.
Qed.

Lemma writeCalls_write (m : string) (w : World) :
  writeCalls (meter (exec (WriteMessage E m) w)) = S (writeCalls (meter w)).
Proof. reflexivity. Qed.


(** While the peer takes every write, the loop forwards the chunks up to the
    first done one, in order, and accumulates their texts. *)
Lemma relayLines_delivered (lines : list string) :
  forall acc w,
    (forall i, i < length (untilDone (decoded lines)) ->
               writeOK E (writeCalls (meter w) + i) = true) ->
    relayLines E lines acc w =
      ((acc ++ joined (texts (untilDone (decoded lines))))%string,
       deliver (texts (untilDone (decoded lines))) w).
Proof.
  induction lines as [|l lines IH]; intros acc w.
  - intros _. simpl. rewrite append_empty. reflexivity.
  - destruct (unmarshalStream E l) as [c|] eqn:Hl.
    + rewrite (relayLines_chunk _ _ _ _ _ Hl). simpl decoded. rewrite Hl. simpl untilDone.
      intro Hok.
      assert (H0 : writeOK E (writeCalls (meter w)) = true).
      { rewrite <- (Nat.add_0_r (writeCalls (meter w))). apply Hok.
        destruct (Done c); simpl; lia. }
      rewrite H0. destruct (Done c) eqn:Hd.
      * simpl. rewrite append_empty. reflexivity.
      * rewrite IH.
        -- simpl. rewrite append_assoc. reflexivity.
        -- intros i Hi. rewrite writeCalls_write. simpl.
           rewrite <- Nat.add_succ_r. apply Hok. simpl. lia.
    + rewrite (relayLines_noise _ _ _ _ Hl). simpl decoded. rewrite Hl. apply IH.
Qed.

(** When the peer refuses a write, the loop stops there: the chunks before
    it were delivered and make up the accumulated text, the refused one is
    not part of it and nothing after it is tried. *)
Lemma relayLines_refused (lines : list string) :
  forall acc w pre c post,
    untilDone (decoded lines) = pre ++ c :: post ->
    (forall i, i < length pre -> writeOK E (writeCalls (meter w) + i) = true) ->
    writeOK E (writeCalls (meter w) + length pre) = false ->
    relayLines E lines acc w =
      ((acc ++ joined (texts pre))%string, deliver (texts pre ++ [Response c]) w).
Proof.
  induction lines as [|l lines IH]; intros acc w pre c post.
  - intro Hsplit. destruct pre; discriminate.
  - destruct (unmarshalStream E l) as [d|] eqn:Hl.
    + rewrite (relayLines_chunk _ _ _ _ _ Hl). simpl decoded. rewrite Hl. simpl untilDone.
      intros Hsplit Hok Hbad.
      destruct pre as [|p pre].
      * simpl in Hbad. rewrite Nat.add_0_r in Hbad. rewrite Hbad.
        assert (d = c) by (simpl in Hsplit; destruct (Done d); congruence). subst d.
        simpl. rewrite append_empty. reflexivity.
      * assert (H0 : writeOK E (writeCalls (meter w)) = true).
        { rewrite <- (Nat.add_0_r (writeCalls (meter w))). apply Hok. simpl. lia. }
        rewrite H0. destruct (Done d) eqn:Hd.
        { simpl in Hsplit. destruct pre; discriminate. }
        simpl in Hsplit. injection Hsplit as -> Hsplit.
        erewrite IH; [| exact Hsplit | |].
        -- simpl. rewrite append_assoc. reflexivity.
        -- intros i Hi. rewrite writeCalls_write. simpl.
           rewrite <- Nat.add_succ_r. apply Hok. simpl. lia.
        -- rewrite writeCalls_write. simpl.
           rewrite <- Nat.add_succ_r. exact Hbad.
    + rewrite (relayLines_noise _ _ _ _ Hl). simpl decoded. rewrite Hl. apply IH.
Qed.

(** Whatever the peer does, what reaches it is an initial stretch of the
    chunk texts in the order the chunks arrived. *)
Lemma relayLines_in_order (lines : list string) :
  forall acc w,
    exists n,
      trace (snd (relayLines E lines acc w)) =
        trace w ++ writeEvents (writeCalls (meter w)) (firstn n (texts (decoded lines))).
Proof.
  induction lines as [|l lines IH]; intros acc w.
  - exists 0. simpl. rewrite app_nil_r. reflexivity.
  - destruct (unmarshalStream E l) as [c|] eqn:Hl.
    + rewrite (relayLines_chunk _ _ _ _ _ Hl). simpl decoded. rewrite Hl.
      destruct (writeOK E (writeCalls (meter w))) eqn:Hw.
      * destruct (Done c).
        -- exists 1. simpl. rewrite Hw. reflexivity.
        -- destruct (IH (acc ++ Response c)%string (exec (WriteMessage E (Response c)) w))
             as [n Hn].
           exists (S n). rewrite Hn. simpl. tidy. rewrite Hw. reflexivity.
      * exists 1. simpl. rewrite Hw. reflexivity.
    + rewrite (relayLines_noise _ _ _ _ Hl). simpl decoded. rewrite Hl. apply IH.
Qed.

End RelayFacts.

(** ** The relay as a whole *)

(** The request [streamOllamaResponse] sends for a prompt. *)
Definition relayURL (w : World) : string :=
  (ollamaURL (globals w) ++ "/api/generate")%string.

Definition relayRequest (prompt : string) (w : World) : OllamaRequest :=
  {| Model := ollamaModel (globals w); Prompt := prompt; Stream := true |}.

Definition delivered (msgs : list string) : list Event :=
  map (fun m => EvWrite m true) msgs.

Lemma writeEvents_accepted (E : Env) (msgs : list string) :
  forall k,
    (forall i, i < length msgs -> writeOK E (k + i) = true) ->
    writeEvents E k msgs = delivered msgs.
Proof.
  induction msgs as [|m msgs IH]; intros k Hok; [reflexivity|].
  simpl. rewrite IH.
  - rewrite <- (Nat.add_0_r k) at 1. rewrite Hok by (simpl; lia). reflexivity.
  - intros i Hi. simpl. rewrite <- Nat.add_succ_r. apply Hok. simpl. lia.
Qed.

Lemma writeEvents_app (E : Env) (a b : list string) :
  forall k, writeEvents E k (a ++ b) = writeEvents E k a ++ writeEvents E (k + length a) b.
Proof.
  induction a as [|m a IH]; intro k; simpl.
  - rewrite Nat.add_0_r. reflexivity.
  - rewrite IH. simpl. rewrite <- Nat.add_succ_r. reflexivity.
Qed.

(** The function after its upstream call has returned a body. *)
Lemma streamOllamaResponse_body (E : Env) (prompt : string) (w : World)
    (lines : list string) (err : option string) :
  streamReply E (streamCalls (meter w)) = StreamOk lines err ->
  streamOllamaResponse E prompt w =
    let w1 := exec (httpPostStream E (relayURL w) (relayRequest prompt w)) w in
    let (fullResponse, w2) := relayLines E lines EmptyString w1 in
    saveMessage "AI" fullResponse w2.
Proof.
  intro Hr. unfold streamOllamaResponse, httpPostStream. step. rewrite Hr. reflexivity.
Qed.

(** The function after its upstream call has failed. *)
Lemma streamOllamaResponse_failed (E : Env) (prompt : string) (w : World) (e : string) :
  streamReply E (streamCalls (meter w)) = StreamErr e ->
  streamOllamaResponse E prompt w =
    (tt, exec (WriteMessage E "Error processing request")
           (exec (httpPostStream E (relayURL w) (relayRequest prompt w)) w)).
Proof.
  intro Hr. unfold streamOllamaResponse, httpPostStream, WriteMessage. step.
  rewrite Hr. reflexivity.
Qed.

(** The trace of a relay whose peer takes every write. *)
Lemma relay_trace_accepted (E : Env) (prompt : string) (w : World)
    (lines : list string) (err : option string) :
  streamReply E (streamCalls (meter w)) = StreamOk lines err ->
  (forall i, i < length (untilDone (decoded E lines)) ->
             writeOK E (writeCalls (meter w) + i) = true) ->
  trace (exec (streamOllamaResponse E prompt) w) =
    trace w ++ [EvPost (relayURL w) (relayRequest prompt w)]
            ++ delivered (texts (untilDone (decoded E lines)))
            ++ [EvSave "AI" (joined (texts (untilDone (decoded E lines))))].
Proof.
  intros Hr Hok. unfold exec at 1.
  rewrite (streamOllamaResponse_body E prompt w lines err Hr). cbv zeta.
  rewrite relayLines_delivered by exact Hok.
  unfold saveMessage. step. rewrite trace_deliver.
  rewrite writeEvents_accepted
    by (unfold texts; rewrite length_map; exact Hok).
  unfold httpPostStream. step. tidy. reflexivity.
Qed.

(** The trace of a relay whose peer refuses a write. *)
Lemma relay_trace_refused (E : Env) (prompt : string) (w : World)
    (lines : list string) (err : option string)
    (pre : list OllamaStreamResponse) (c : OllamaStreamResponse)
    (post : list OllamaStreamResponse) :
  streamReply E (streamCalls (meter w)) = StreamOk lines err ->
  untilDone (decoded E lines) = pre ++ c :: post ->
  (forall i, i < length pre -> writeOK E (writeCalls (meter w) + i) = true) ->
  writeOK E (writeCalls (meter w) + length pre) = false ->
  trace (exec (streamOllamaResponse E prompt) w) =
    trace w ++ [EvPost (relayURL w) (relayRequest prompt w)]
            ++ delivered (texts pre)
            ++ [EvWrite (Response c) false; EvSave "AI" (joined (texts pre))].
Proof.
  intros Hr Hsplit Hok Hbad. unfold exec at 1.
  rewrite (streamOllamaResponse_body E prompt w lines err Hr). cbv zeta.
  rewrite (relayLines_refused E lines EmptyString
             (exec (httpPostStream E (relayURL w) (relayRequest prompt w)) w)
             pre c post Hsplit Hok Hbad).
  unfold saveMessage. step. rewrite trace_deliver, writeEvents_app.
  rewrite writeEvents_accepted by (unfold texts; rewrite length_map; exact Hok).
  unfold texts at 2. rewrite length_map. simpl writeEvents.
  change (writeCalls (meter (exec (httpPostStream E (relayURL w) (relayRequest prompt w)) w)))
    with (writeCalls (meter w)).
  rewrite Hbad. unfold httpPostStream. step. tidy. reflexivity.
Qed.

(** The environment of the three-line example: discovery and probe succeed,
    every streaming call returns the three lines, the peer takes [alive]
    writes. *)
Definition helloLines : list string :=
  [chunkLine "Hel" false; chunkLine "lo" false; chunkLine EmptyString true].

Definition helloEnv (alive : nat) : Env :=
  steady (HttpOk 200 (tagsBody "m1")) (HttpOk 200 (chunkLine "Hi!" true))
         (StreamOk helloLines None) alive.

(** A world in which the state machine has reached [ready] with model m1. *)
Definition readyWorld : World :=
  exec (checkModelReady (helloEnv 0)) (initialWorld "http://ollama:11434" true).

(** C3, as the claim states it, fails: for the three lines of the example the
    peer is handed three messages, the third being the empty text of the
    chunk that is done, not two. *)
Lemma relay_hello_writes_three :
  let w := exec (streamOllamaResponse (helloEnv 3) "Hi") readyWorld in
  sinkWrites (trace w) = ["Hel"; "lo"; EmptyString] /\
  sinkWrites (trace w) <> ["Hel"; "lo"].
Proof.
  vm_compute. split; [reflexivity | discriminate].
Qed.

(** C3 (amended).  For the upstream lines [{"response":"Hel","done":false}],
    [{"response":"lo","done":false}], [{"response":"","done":true}] the relay
    sends its request, writes "Hel", "lo" and then the empty text of the
    done chunk to the peer, in that order and nothing else, and saves "Hello"
    as the AI message.  In general, for any body and any peer, what the relay
    writes is an initial stretch of the texts of the decoded chunks in their
    order of arrival; when the peer takes every write it is exactly the texts
    of the chunks up to and including the first done one, and their
    concatenation is what is saved. *)
Theorem relay_forwards_in_arrival_order :
  (let w := exec (streamOllamaResponse (helloEnv 3) "Hi") readyWorld in
   trace w = trace readyWorld ++
     [EvPost "http://ollama:11434/api/generate"
             {| Model := "m1"; Prompt := "Hi"; Stream := true |};
      EvWrite "Hel" true; EvWrite "lo" true; EvWrite EmptyString true;
      EvSave "AI" "Hello"])
  /\
  (forall (E : Env) (prompt : string) (w : World) (lines : list string)
          (err : option string),
     streamReply E (streamCalls (meter w)) = StreamOk lines err ->
     (exists (n : nat) (fullResponse : string),
        trace (exec (streamOllamaResponse E prompt) w) =
          trace w ++ [EvPost (relayURL w) (relayRequest prompt w)]
                  ++ writeEvents E (writeCalls (meter w))
                       (firstn n (texts (decoded E lines)))
                  ++ [EvSave "AI" fullResponse])
     /\
     ((forall i, i < length (untilDone (decoded E lines)) ->
                 writeOK E (writeCalls (meter w) + i) = true) ->
      trace (exec (streamOllamaResponse E prompt) w) =
        trace w ++ [EvPost (relayURL w) (relayRequest prompt w)]
                ++ delivered (texts (untilDone (decoded E lines)))
                ++ [EvSave "AI" (joined (texts (untilDone (decoded E lines))))])).
Proof.
  split.
  - vm_compute. reflexivity.
  - intros E prompt w lines err Hr. split.
    + unfold exec at 1.
      rewrite (streamOllamaResponse_body E prompt w lines err Hr). cbv zeta.
      set (w1 := exec (httpPostStream E (relayURL w) (relayRequest prompt w)) w).
      destruct (relayLines_in_order E lines EmptyString w1) as [n Hn].
      destruct (relayLines E lines EmptyString w1) as [full w2] eqn:Hrun.
      exists n, full. simpl in Hn. unfold saveMessage. step. rewrite Hn.
      subst w1. unfold httpPostStream. step. tidy. reflexivity.
    + apply relay_trace_accepted with (err := err). exact Hr.
Qed.

Lemma relay_forwards_in_arrival_order_witness :
  trace (exec (streamOllamaResponse (helloEnv 3) "Hi") readyWorld) =
    trace readyWorld
      ++ [EvPost (relayURL readyWorld) (relayRequest "Hi" readyWorld)]
      ++ delivered ["Hel"; "lo"; EmptyString]
      ++ [EvSave "AI" "Hello"].
Proof.
  apply (proj2 (proj2 relay_forwards_in_arrival_order
                 (helloEnv 3) "Hi" readyWorld helloLines None eq_refl)).
  intros i Hi.
  destruct i as [|[|[|i]]]; try reflexivity. simpl in Hi. lia.
Defined.




(** C7.  When the peer refuses a write in the middle of a relay, the relay
    stops at that write: the chunks before it have been written, nothing
    after it is tried, and the text of the chunks written before the refusal
    is saved as the AI message.  The function has no result through which an
    error could reach its caller, and the handler's loop goes on with the
    next inbound message. *)
Theorem relay_saves_partial_text_on_disconnect :
  forall (E : Env) (prompt : string) (w : World) (lines : list string)
         (err : option string) (pre : list OllamaStreamResponse)
         (c : OllamaStreamResponse) (post : list OllamaStreamResponse),
    streamReply E (streamCalls (meter w)) = StreamOk lines err ->
    untilDone (decoded E lines) = pre ++ c :: post ->
    (forall i, i < length pre -> writeOK E (writeCalls (meter w) + i) = true) ->
    writeOK E (writeCalls (meter w) + length pre) = false ->
    trace (exec (streamOllamaResponse E prompt) w) =
      trace w ++ [EvPost (relayURL w) (relayRequest prompt w)]
              ++ delivered (texts pre)
              ++ [EvWrite (Response c) false; EvSave "AI" (joined (texts pre))]
    /\ streamOllamaResponse E prompt w = (tt, exec (streamOllamaResponse E prompt) w)
    /\ (modelNeverReady (globals w) = false -> modelReady (globals w) = true ->
        forall rest,
          serve E (prompt :: rest) w =
            serve E rest (exec (streamOllamaResponse E prompt)
                            (exec (saveMessage "User" prompt) w))).
Proof.
  intros E prompt w lines err pre c post Hr Hsplit Hok Hbad. split; [|split].
  - apply relay_trace_refused with (lines := lines) (err := err) (post := post);
      assumption.
  - unfold exec. destruct (streamOllamaResponse E prompt w) as [[] w']. reflexivity.
  - intros Hnever Hready rest. simpl. unfold handleMessage, saveMessage.
    unfold bind, load, emit, exec. simpl. rewrite Hnever. simpl. rewrite Hready. simpl.
    destruct (streamOllamaResponse E prompt _) as [[] w']. reflexivity.
Qed.

Lemma relay_saves_partial_text_on_disconnect_witness :
  trace (exec (streamOllamaResponse (helloEnv 1) "Hi") readyWorld) =
    trace readyWorld
      ++ [EvPost (relayURL readyWorld) (relayRequest "Hi" readyWorld)]
      ++ delivered ["Hel"]
      ++ [EvWrite "lo" false; EvSave "AI" "Hel"].
Proof.
  refine (proj1 (relay_saves_partial_text_on_disconnect (helloEnv 1) "Hi" readyWorld
                   helloLines None
                   [{| Response := "Hel"; Done := false |}]
                   {| Response := "lo"; Done := false |}
                   [{| Response := EmptyString; Done := true |}]
                   eq_refl eq_refl _ eq_refl)).
  intros i Hi. destruct i as [|i]; [reflexivity | simpl in Hi; lia].
Defined.

(** ** The connection handler *)

(** The table a handler answers from while the model is not ready. *)
Definition cannedTable (w : World) : list string :=
  if modelNeverReady (globals w) then noAIMessages else waitingMessages.

(** The entry [rand.Intn] picks from a table of ten for the next draw. *)
Definition cannedReply (E : Env) (w : World) : string :=
  nth (rand E (randCalls (meter w)) mod 10) (cannedTable w) EmptyString.

Lemma cannedReply_in_table (E : Env) (w : World) :
  In (cannedReply E w) (cannedTable w).
Proof.
  unfold cannedReply, cannedTable.
  destruct (modelNeverReady (globals w)); apply nth_In;
    apply Nat.mod_upper_bound; discriminate.
Qed.

(** One inbound message while [modelReady] is false. *)
Lemma handleMessage_not_ready (E : Env) (msg : string) (w : World) :
  modelReady (globals w) = false ->
  globals (exec (handleMessage E msg) w) = globals w /\
  streamCalls (meter (exec (handleMessage E msg) w)) = streamCalls (meter w) /\
  trace (exec (handleMessage E msg) w) =
    trace w ++ [EvSave "User" msg;
                EvWrite (cannedReply E w) (writeOK E (writeCalls (meter w)));
                EvSave "AI" (cannedReply E w)].
Proof.
  intro Hready.
  unfold handleMessage, cannedReply, cannedTable, saveMessage, Intn, WriteMessage.
  unfold exec, bind, ret, load, count, emit.
  change (length noAIMessages) with 10. change (length waitingMessages) with 10.
  cbn [fst snd globals meter trace randCalls writeCalls streamCalls].
  destruct (modelNeverReady (globals w)).
  - cbn [fst snd globals meter trace randCalls writeCalls streamCalls].
    repeat split. repeat rewrite <- app_assoc. reflexivity.
  - cbn [fst snd globals meter trace randCalls writeCalls streamCalls].
    rewrite Hready.
    cbn [negb fst snd globals meter trace randCalls writeCalls streamCalls].
    repeat split. repeat rewrite <- app_assoc. reflexivity.
Qed.

(** C1.  Whenever an inbound message is handled while [modelReady] is false,
    the handler makes no upstream call at all (so the relay is not entered):
    after saving the user's message it writes exactly one message to the peer,
    an entry of [noAIMessages] when [modelNeverReady] is set and of
    [waitingMessages] otherwise, saves that entry as the AI message, and the
    loop moves on to the next inbound message. *)
Theorem not_ready_never_relays :
  forall (E : Env) (msg : string) (rest : list string) (w : World),
    modelReady (globals w) = false ->
    exists (reply : string) (ok : bool),
      In reply (if modelNeverReady (globals w) then noAIMessages else waitingMessages)
      /\ trace (exec (handleMessage E msg) w) =
           trace w ++ [EvSave "User" msg; EvWrite reply ok; EvSave "AI" reply]
      /\ streamCalls (meter (exec (handleMessage E msg) w)) = streamCalls (meter w)
      /\ serve E (msg :: rest) w = serve E rest (exec (handleMessage E msg) w).
Proof.
  intros E msg rest w Hready.
  destruct (handleMessage_not_ready E msg w Hready) as (_ & Hcalls & Htrace).
  exists (cannedReply E w), (writeOK E (writeCalls (meter w))).
  split; [apply cannedReply_in_table|].
  split; [exact Htrace|]. split; [exact Hcalls|].
  simpl. unfold bind, exec. destruct (handleMessage E msg w) as [[] w']. reflexivity.
Qed.

Lemma not_ready_never_relays_witness :
  exists (reply : string) (ok : bool),
    In reply waitingMessages
    /\ trace (exec (handleMessage (helloEnv 3) "Hi") (initialWorld "http://ollama:11434" true)) =
         [EvSave "User" "Hi"; EvWrite reply ok; EvSave "AI" reply]
    /\ streamCalls (meter (exec (handleMessage (helloEnv 3) "Hi")
                             (initialWorld "http://ollama:11434" true))) = 0
    /\ serve (helloEnv 3) ["Hi"] (initialWorld "http://ollama:11434" true) =
         serve (helloEnv 3) [] (exec (handleMessage (helloEnv 3) "Hi")
                                  (initialWorld "http://ollama:11434" true)).
Proof.
  exact (not_ready_never_relays (helloEnv 3) "Hi" []
           (initialWorld "http://ollama:11434" true) eq_refl).
Defined.

(** C10.  When the streaming call itself fails, the relay writes the one
    message "Error processing request" to the peer and returns; nothing is
    saved as an AI message for that turn, and the handler's loop goes on with
    the next inbound message. *)
Theorem relay_apologises_when_upstream_unreachable :
  forall (E : Env) (msg : string) (rest : list string) (w : World) (e : string),
    streamReply E (streamCalls (meter w)) = StreamErr e ->
    trace (exec (streamOllamaResponse E msg) w) =
      trace w ++ [EvPost (relayURL w) (relayRequest msg w);
                  EvWrite "Error processing request" (writeOK E (writeCalls (meter w)))]
    /\
    (modelNeverReady (globals w) = false -> modelReady (globals w) = true ->
     trace (exec (handleMessage E msg) w) =
       trace w ++ [EvSave "User" msg;
                   EvPost (relayURL w) (relayRequest msg w);
                   EvWrite "Error processing request" (writeOK E (writeCalls (meter w)))]
     /\ serve E (msg :: rest) w = serve E rest (exec (handleMessage E msg) w)).
Proof.
  intros E msg rest w e Hr. split.
  - unfold exec at 1. rewrite (streamOllamaResponse_failed E msg w e Hr).
    unfold WriteMessage, httpPostStream. step. tidy. reflexivity.
  - intros Hnever Hready. split.
    + unfold handleMessage, saveMessage. unfold exec, bind, load, emit.
      cbn [fst snd globals meter trace]. rewrite Hnever.
      cbn [fst snd globals meter trace]. rewrite Hready. cbn [negb].
      rewrite streamOllamaResponse_failed with (e := e) by exact Hr.
      unfold WriteMessage, httpPostStream. step. tidy. reflexivity.
    + simpl. unfold bind, exec. destruct (handleMessage E msg w) as [[] w']. reflexivity.
Qed.

(** A service that is ready and then becomes unreachable for streaming. *)
Definition unreachableEnv : Env :=
  steady (HttpOk 200 (tagsBody "m1")) (HttpOk 200 (chunkLine "Hi!" true))
         (StreamErr "connection refused") 3.

Lemma relay_apologises_when_upstream_unreachable_witness :
  trace (exec (handleMessage unreachableEnv "Hi") readyWorld) =
    trace readyWorld
      ++ [EvSave "User" "Hi";
          EvPost "http://ollama:11434/api/generate"
                 {| Model := "m1"; Prompt := "Hi"; Stream := true |};
          EvWrite "Error processing request" true].
Proof.
  exact (proj1 (proj2 (relay_apologises_when_upstream_unreachable
                         unreachableEnv "Hi" [] readyWorld "connection refused" eq_refl)
                 eq_refl eq_refl)).
Defined.

(** ** Model discovery *)

Definition tagsURL (w : World) : string := (ollamaURL (globals w) ++ "/api/tags")%string.

Definition withStatus (s : string) (g : Globals) : Globals :=
  {| ollamaURL := ollamaURL g; ollamaEnabled := ollamaEnabled g;
     ollamaModel := ollamaModel g; modelReady := modelReady g;
     modelStatus := s; modelNeverReady := modelNeverReady g |}.

(** What one call of [getAvailableModel] does to the world, given the tag it
    ends on. *)
Definition fetched (E : Env) (w w' : World) (tag : string) : Prop :=
  trace w' = trace w ++ [EvStatus "checking_models"; EvGet (tagsURL w); EvStatus tag]
  /\ globals w' = withStatus tag (globals w)
  /\ meter w' = {| tagsCalls := S (tagsCalls (meter w));
                   generateCalls := generateCalls (meter w);
                   streamCalls := streamCalls (meter w);
                   writeCalls := writeCalls (meter w);
                   randCalls := randCalls (meter w) |}.

Ltac run_fetch :=
  unfold getAvailableModel, httpGetTags, setStatus, fetched, tagsURL, withStatus;
  unfold exec, bind, ret, load, store, count, emit;
  cbn [fst snd globals meter trace tagsCalls].

(** C8.  [getAvailableModel] makes one listing call and sorts its answer by
    what it observes, in this order: a transport error gives the connection
    error and the tag error_connecting; a status other than 200 gives the
    API error and error_api; a body that does not decode gives the parse
    error and error_parsing; an empty list gives the no-models error and
    no_models; otherwise the name of the first entry is returned, whatever
    follows it, with the tag model_found. *)
Theorem fetcher_returns_first_model_or_typed_failure :
  forall (E : Env) (w : World),
    let reply := tagsReply E (tagsCalls (meter w)) in
    let result := fst (getAvailableModel E w) in
    let w' := exec (getAvailableModel E) w in
    (forall e, reply = HttpErr e ->
       result = inr (ErrConnect e) /\ fetched E w w' "error_connecting")
    /\ (forall code body, reply = HttpOk code body -> code <> 200%Z ->
       result = inr (ErrStatus code) /\ fetched E w w' "error_api")
    /\ (forall body, reply = HttpOk 200 body -> unmarshalModels E body = None ->
       result = inr ErrParseModels /\ fetched E w w' "error_parsing")
    /\ (forall body, reply = HttpOk 200 body ->
       unmarshalModels E body = Some {| Models := [] |} ->
       result = inr ErrNoModels /\ fetched E w w' "no_models")
    /\ (forall body first others, reply = HttpOk 200 body ->
       unmarshalModels E body = Some {| Models := first :: others |} ->
       result = inl (Name first) /\ fetched E w w' "model_found").
Proof.
  intros E w reply result w'. subst reply result w'.
  split; [|split; [|split; [|split]]].
  - intros e Hr. run_fetch. rewrite Hr. cbn.
    repeat split. tidy. reflexivity.
  - intros code body Hr Hcode. apply Z.eqb_neq in Hcode.
    run_fetch. rewrite Hr, Hcode. cbn.
    repeat split. tidy. reflexivity.
  - intros body Hr Hbody. run_fetch. rewrite Hr, Hbody. cbn.
    repeat split. tidy. reflexivity.
  - intros body Hr Hbody. run_fetch. rewrite Hr, Hbody. cbn.
    repeat split. tidy. reflexivity.
  - intros body first others Hr Hbody. run_fetch. rewrite Hr, Hbody. cbn.
    repeat split. tidy. reflexivity.
Qed.

Lemma fetcher_returns_first_model_or_typed_failure_witness :
  fst (getAvailableModel (helloEnv 0) (initialWorld "http://ollama:11434" true)) = inl "m1"
  /\ fetched (helloEnv 0) (initialWorld "http://ollama:11434" true)
       (exec (getAvailableModel (helloEnv 0)) (initialWorld "http://ollama:11434" true))
       "model_found".
Proof.
  exact (proj2 (proj2 (proj2 (proj2
           (fetcher_returns_first_model_or_typed_failure
              (helloEnv 0) (initialWorld "http://ollama:11434" true)))))
           (tagsBody "m1")
           {| Name := "m1"; ModifiedAt := EmptyString; Size := 1; Digest := EmptyString |}
           [] eq_refl eq_refl).
Defined.

(** ** Generation probe *)

(** The four ways one probe attempt fails. *)
Inductive ProbeFailure :=
| NoConnection (cause : string)
| BadStatus (code : Z) (body : string)
| BadBody
| NoContent.

(** How the loop body of [testModelGeneration] reads a reply: [None] is the
    success branch. *)
Definition probeFailure (E : Env) (reply : HttpResult) : option ProbeFailure :=
  match reply with
  | HttpErr e => Some (NoConnection e)
  | HttpOk code body =>
      if negb (code =? 200)%Z then Some (BadStatus code body)
      else match unmarshalMap E body with
           | None => Some BadBody
           | Some response =>
               if isNil (index response "response") then Some NoContent else None
           end
  end.

Definition failureTag (f : ProbeFailure) : string :=
  match f with
  | NoConnection _ | BadStatus _ _ => "error_generation"
  | BadBody => "error_parsing_response"
  | NoContent => "error_no_response"
  end.

Definition failureError (maxTestRetries : nat) (f : ProbeFailure) : error :=
  match f with
  | NoConnection e => ErrGenConnect maxTestRetries e
  | BadStatus code body => ErrGenStatus code maxTestRetries body
  | BadBody => ErrGenParse maxTestRetries
  | NoContent => ErrGenNoContent maxTestRetries
  end.

Definition probeRequest (modelName : string) : OllamaRequest :=
  {| Model := modelName; Prompt := "Hi"; Stream := false |}.

Definition probed (E : Env) (modelName : string) (w : World) : World :=
  exec (httpPostGenerate E (relayURL w) (probeRequest modelName)) w.

(** One turn of the probe loop. *)
Lemma testAttempts_turn (E : Env) (N : nat) (modelName : string)
    (testAttempt : nat) (rest : list nat) (w : World) :
  testAttempts E N modelName (testAttempt :: rest) w =
    match probeFailure E (generateReply E (generateCalls (meter w))) with
    | None => (None, probed E modelName w)
    | Some f =>
        if (testAttempt <? N)%nat
        then testAttempts E N modelName rest (exec (sleep 2) (probed E modelName w))
        else (Some (failureError N f), exec (setStatus (failureTag f)) (probed E modelName w))
    end.
Proof.
  unfold probed, probeFailure, relayURL, probeRequest.
  cbn [testAttempts]. unfold httpPostGenerate, retryOrFail, sleep, setStatus.
  unfold exec, bind, ret, load, store, count, emit.
  cbn [fst snd globals meter trace generateCalls].
  destruct (generateReply E (generateCalls (meter w))) as [e | code body].
  - destruct (testAttempt <? N)%nat; reflexivity.
  - destruct (negb (code =? 200)%Z).
    + destruct (testAttempt <? N)%nat; reflexivity.
    + destruct (unmarshalMap E body) as [response|].
      * destruct (isNil (index response "response")); [|reflexivity].
        destruct (testAttempt <? N)%nat; reflexivity.
      * destruct (testAttempt <? N)%nat; reflexivity.
Qed.

Lemma generateCalls_slept (E : Env) (modelName : string) (w : World) :
  generateCalls (meter (exec (sleep 2) (probed E modelName w))) = S (generateCalls (meter w)).
Proof. reflexivity. Qed.

Lemma relayURL_slept (E : Env) (modelName : string) (w : World) :
  relayURL (exec (sleep 2) (probed E modelName w)) = relayURL w.
Proof. reflexivity. Qed.

Lemma trace_slept (E : Env) (modelName : string) (w : World) :
  trace (exec (sleep 2) (probed E modelName w)) =
    trace w ++ [EvPost (relayURL w) (probeRequest modelName); EvSleep 2].
Proof.
  unfold probed, httpPostGenerate, sleep. step. tidy. reflexivity.
Qed.

(** [n] failed attempts that are each followed by the delay. *)
Fixpoint retries (url : string) (req : OllamaRequest) (n : nat) : list Event :=
  match n with
  | 0 => []
  | S n => EvPost url req :: EvSleep 2 :: retries url req n
  end.

Fixpoint sleeps (tr : list Event) : list nat :=
  match tr with
  | [] => []
  | EvSleep d :: rest => d :: sleeps rest
  | _ :: rest => sleeps rest
  end.

Lemma posts_app (a b : list Event) : posts (a ++ b) = posts a ++ posts b.
Proof.
  induction a as [|e a IH]; [reflexivity|].
  destruct e; simpl; rewrite ?IH; reflexivity.
Qed.

Lemma sleeps_app (a b : list Event) : sleeps (a ++ b) = sleeps a ++ sleeps b.
Proof.
  induction a as [|e a IH]; [reflexivity|].
  destruct e; simpl; rewrite ?IH; reflexivity.
Qed.

Lemma posts_retries (url : string) (req : OllamaRequest) (n : nat) :
  posts (retries url req n) = repeat req n.
Proof. induction n as [|n IH]; simpl; [|rewrite IH]; reflexivity. Qed.

Lemma sleeps_retries (url : string) (req : OllamaRequest) (n : nat) :
  sleeps (retries url req n) = repeat 2 n.
Proof. induction n as [|n IH]; simpl; [|rewrite IH]; reflexivity. Qed.

(** The loop from attempt number [a] on, when the [S n] attempts up to the
    ceiling all fail. *)
Lemma testAttempts_all_fail (E : Env) (N : nat) (modelName : string) :
  forall (n a : nat) (w : World),
    a + n = N ->
    (forall i, i <= n ->
       probeFailure E (generateReply E (generateCalls (meter w) + i)) <> None) ->
    exists f,
      probeFailure E (generateReply E (generateCalls (meter w) + n)) = Some f
      /\ fst (testAttempts E N modelName (seq a (S n)) w) = Some (failureError N f)
      /\ trace (snd (testAttempts E N modelName (seq a (S n)) w)) =
           trace w ++ retries (relayURL w) (probeRequest modelName) n
                   ++ [EvPost (relayURL w) (probeRequest modelName);
                       EvStatus (failureTag f)]
      /\ globals (snd (testAttempts E N modelName (seq a (S n)) w)) =
           withStatus (failureTag f) (globals w).
Proof.
  induction n as [|n IH]; intros a w Ha Hfail.
  - assert (H0 := Hfail 0 (Nat.le_refl 0)). rewrite Nat.add_0_r in *.
    destruct (probeFailure E (generateReply E (generateCalls (meter w)))) as [f|] eqn:Hf;
      [|contradiction].
    exists f. cbn [seq]. rewrite testAttempts_turn, Hf.
    replace (a <? N)%nat with false by (symmetry; apply Nat.ltb_ge; lia).
    repeat split. unfold probed, httpPostGenerate, setStatus. step. tidy. reflexivity.
  - assert (H0 := Hfail 0 (Nat.le_0_l _)). rewrite Nat.add_0_r in H0.
    destruct (probeFailure E (generateReply E (generateCalls (meter w)))) as [f0|] eqn:Hf;
      [|contradiction].
    change (seq a (S (S n))) with (a :: seq (S a) (S n)).
    rewrite testAttempts_turn, Hf.
    replace (a <? N)%nat with true by (symmetry; apply Nat.ltb_lt; lia).
    destruct (IH (S a) (exec (sleep 2) (probed E modelName w)))
      as (f & Hlast & Hres & Htr & Hg).
    + lia.
    + intros i Hi. rewrite generateCalls_slept. simpl.
      rewrite <- Nat.add_succ_r. apply Hfail. lia.
    + exists f. split; [|split; [|split]].
      * rewrite generateCalls_slept in Hlast. simpl in Hlast.
        rewrite <- Nat.add_succ_r in Hlast. exact Hlast.
      * exact Hres.
      * rewrite Htr, relayURL_slept, trace_slept. tidy. reflexivity.
      * rewrite Hg. reflexivity.
Qed.

(** C4.  For every ceiling N >= 1: when each of the N attempts fails, the
    probe makes exactly N generation calls with exactly N-1 delays of two
    seconds, one after each failed attempt but the last, none before the
    first call; it then sets the status tag of the failure seen on the last
    attempt (error_generation for a transport error or a status other than
    200, error_parsing_response for a body that does not decode,
    error_no_response for a body without content) and returns the matching
    error.  [testModelGeneration] is the instance N = 100. *)
Theorem prober_exhausts_attempts :
  forall (E : Env) (N : nat) (modelName : string) (w : World),
    1 <= N ->
    (forall i, i < N ->
       probeFailure E (generateReply E (generateCalls (meter w) + i)) <> None) ->
    exists f,
      probeFailure E (generateReply E (generateCalls (meter w) + (N - 1))) = Some f
      /\ fst (testModelGenerationN E N modelName w) = Some (failureError N f)
      /\ (let delta := [EvStatus "testing_generation"]
                       ++ retries (relayURL w) (probeRequest modelName) (N - 1)
                       ++ [EvPost (relayURL w) (probeRequest modelName);
                           EvStatus (failureTag f)] in
          trace (exec (testModelGenerationN E N modelName) w) = trace w ++ delta
          /\ posts delta = repeat (probeRequest modelName) N
          /\ sleeps delta = repeat 2 (N - 1))
      /\ modelStatus (globals (exec (testModelGenerationN E N modelName) w)) = failureTag f
      /\ testModelGeneration E modelName = testModelGenerationN E 100 modelName.
Proof.
  intros E N modelName w HN Hfail.
  destruct N as [|n]; [lia|]. replace (S n - 1) with n by lia.
  set (w0 := exec (setStatus "testing_generation") w).
  destruct (testAttempts_all_fail E (S n) modelName n 1 w0)
    as (f & Hlast & Hres & Htr & Hg).
  - lia.
  - intros i Hi. apply Hfail. lia.
  - exists f. split; [exact Hlast|].
    assert (Hrun : testModelGenerationN E (S n) modelName w =
                   testAttempts E (S n) modelName (seq 1 (S n)) w0).
    { unfold testModelGenerationN, w0, setStatus. step. reflexivity. }
    unfold exec at 1 2. rewrite Hrun.
    split; [exact Hres|]. split; [|split].
    + cbv zeta. split; [|split].
      * rewrite Htr. unfold w0, setStatus, relayURL. step. tidy. reflexivity.
      * simpl. rewrite posts_app, posts_retries. simpl.
        change (probeRequest modelName :: repeat (probeRequest modelName) n)
          with (repeat (probeRequest modelName) (S n)).
        rewrite <- repeat_cons. reflexivity.
      * simpl. rewrite sleeps_app, sleeps_retries. simpl. apply app_nil_r.
    + rewrite Hg. reflexivity.
    + reflexivity.
Qed.

(** A service whose listing works and whose generation endpoint is down. *)
Definition coldEnv : Env :=
  steady (HttpOk 200 (tagsBody "m1")) (HttpErr "timeout") (StreamErr "timeout") 0.

Lemma prober_exhausts_attempts_witness :
  trace (exec (testModelGenerationN coldEnv 3 "m1") (initialWorld "http://ollama:11434" true)) =
    [EvStatus "testing_generation";
     EvPost "http://ollama:11434/api/generate" (probeRequest "m1"); EvSleep 2;
     EvPost "http://ollama:11434/api/generate" (probeRequest "m1"); EvSleep 2;
     EvPost "http://ollama:11434/api/generate" (probeRequest "m1");
     EvStatus "error_generation"].
Proof.
  destruct (prober_exhausts_attempts coldEnv 3 "m1" (initialWorld "http://ollama:11434" true))
    as (f & Hlast & _ & (Htr & _) & _).
  - lia.
  - intros i _. discriminate.
  - injection Hlast as <-. exact Htr.
Defined.


(** ** Readiness state machine *)

(** *** Globals as a function of the trace *)

Definition withModel (m : string) (g : Globals) : Globals :=
  {| ollamaURL := ollamaURL g; ollamaEnabled := ollamaEnabled g;
     ollamaModel := m; modelReady := modelReady g;
     modelStatus := modelStatus g; modelNeverReady := modelNeverReady g |}.

Definition withReady (g : Globals) : Globals :=
  {| ollamaURL := ollamaURL g; ollamaEnabled := ollamaEnabled g;
     ollamaModel := ollamaModel g; modelReady := true;
     modelStatus := modelStatus g; modelNeverReady := modelNeverReady g |}.

Definition withNeverReady (g : Globals) : Globals :=
  {| ollamaURL := ollamaURL g; ollamaEnabled := ollamaEnabled g;
     ollamaModel := ollamaModel g; modelReady := modelReady g;
     modelStatus := modelStatus g; modelNeverReady := true |}.

(** The assignment an event records. *)
Definition apply (g : Globals) (e : Event) : Globals :=
  match e with
  | EvStatus s => withStatus s g
  | EvModel m => withModel m g
  | EvReady => withReady g
  | EvNeverReady => withNeverReady g
  | _ => g
  end.

Definition replay (tr : list Event) (g : Globals) : Globals := fold_left apply tr g.

(** The events that are assignments to package variables. *)
Definition isAssignment (e : Event) : bool :=
  match e with
  | EvStatus _ | EvModel _ | EvReady | EvNeverReady => true
  | _ => false
  end.

Definition assignments (tr : list Event) : list Event := filter isAssignment tr.

Fixpoint statuses (tr : list Event) : list string :=
  match tr with
  | [] => []
  | EvStatus s :: rest => s :: statuses rest
  | _ :: rest => statuses rest
  end.

Fixpoint modelWrites (tr : list Event) : list string :=
  match tr with
  | [] => []
  | EvModel m :: rest => m :: modelWrites rest
  | _ :: rest => modelWrites rest
  end.

(** Each assignment to [ollamaModel] in a trace, paired with the value
    [modelStatus] has at that moment; [status] is its value before the trace. *)
Fixpoint writesAt (status : string) (tr : list Event) : list (string * string) :=
  match tr with
  | [] => []
  | EvStatus s :: rest => writesAt s rest
  | EvModel m :: rest => (status, m) :: writesAt status rest
  | _ :: rest => writesAt status rest
  end.

(** [w'] is [w] after the events [d]. *)
Definition effect (w w' : World) (d : list Event) : Prop :=
  trace w' = trace w ++ d /\ globals w' = replay d (globals w).

Lemma replay_app (a b : list Event) (g : Globals) :
  replay (a ++ b) g = replay b (replay a g).
Proof. apply fold_left_app. Qed.

Lemma effect_here (w : World) : effect w w [].
Proof. split; [symmetry; apply app_nil_r | reflexivity]. Qed.

Lemma effect_then (w w1 w2 : World) (d1 d2 : list Event) :
  effect w w1 d1 -> effect w1 w2 d2 -> effect w w2 (d1 ++ d2).
Proof.
  intros [T1 G1] [T2 G2]. split.
  - rewrite T2, T1, app_assoc. reflexivity.
  - rewrite G2, G1, replay_app. reflexivity.
Qed.

Lemma assignments_app (a b : list Event) :
  assignments (a ++ b) = assignments a ++ assignments b.
Proof. apply filter_app. Qed.

Lemma statuses_app (a b : list Event) : statuses (a ++ b) = statuses a ++ statuses b.
Proof.
  induction a as [|e a IH]; [reflexivity|].
  destruct e; simpl; rewrite ?IH; reflexivity.
Qed.

Lemma modelWrites_app (a b : list Event) :
  modelWrites (a ++ b) = modelWrites a ++ modelWrites b.
Proof.
  induction a as [|e a IH]; [reflexivity|].
  destruct e; simpl; rewrite ?IH; reflexivity.
Qed.

Lemma statuses_assignments (tr : list Event) : statuses (assignments tr) = statuses tr.
Proof.
  induction tr as [|e tr IH]; [reflexivity|].
  destruct e; simpl; rewrite ?IH; reflexivity.
Qed.

Lemma modelWrites_assignments (tr : list Event) :
  modelWrites (assignments tr) = modelWrites tr.
Proof.
  induction tr as [|e tr IH]; [reflexivity|].
  destruct e; simpl; rewrite ?IH; reflexivity.
Qed.

Lemma writesAt_assignments (tr : list Event) :
  forall s, writesAt s (assignments tr) = writesAt s tr.
Proof.
  induction tr as [|e tr IH]; intro s; [reflexivity|].
  destruct e; simpl; rewrite ?IH; reflexivity.
Qed.

Lemma replay_assignments (tr : list Event) :
  forall g, replay (assignments tr) g = replay tr g.
Proof.
  induction tr as [|e tr IH]; intro g; [reflexivity|].
  destruct e; simpl; apply IH.
Qed.

(** The status a trace leaves behind. *)
Definition statusAfter (status : string) (tr : list Event) : string :=
  last (statuses tr) status.

Lemma last_cons {A} (a d : A) (l : list A) : last (a :: l) d = last l a.
Proof.
  revert a d. induction l as [|b l IH]; intros a d; [reflexivity|].
  change (last (a :: b :: l) d) with (last (b :: l) d). rewrite !IH. reflexivity.
Qed.

Lemma writesAt_app (a b : list Event) :
  forall s, writesAt s (a ++ b) = writesAt s a ++ writesAt (statusAfter s a) b.
Proof.
  unfold statusAfter. induction a as [|e a IH]; intro s; [reflexivity|].
  destruct e; simpl statuses; cbn [app writesAt]; rewrite IH; try reflexivity.
  rewrite last_cons. reflexivity.
Qed.

(** Whatever the trace, the model name the globals end with is the last one
    written, or the old one when none is. *)
Lemma ollamaModel_replay (tr : list Event) :
  forall g, ollamaModel (replay tr g) = last (modelWrites tr) (ollamaModel g).
Proof.
  induction tr as [|e tr IH]; intro g; [reflexivity|].
  unfold replay in *. cbn [fold_left]. rewrite IH.
  destruct e; try reflexivity.
  cbn [modelWrites]. rewrite last_cons. reflexivity.
Qed.

Lemma modelStatus_replay (tr : list Event) :
  forall g, modelStatus (replay tr g) = statusAfter (modelStatus g) tr.
Proof.
  unfold statusAfter. induction tr as [|e tr IH]; intro g; [reflexivity|].
  unfold replay in *. cbn [fold_left]. rewrite IH.
  destruct e; try reflexivity.
  cbn [statuses]. rewrite last_cons. reflexivity.
Qed.

(** *** The shape of a run *)

Definition fetchErrorTags : list string :=
  ["error_connecting"; "error_api"; "error_parsing"; "no_models"].

Definition probeErrorTags : list string :=
  ["error_generation"; "error_parsing_response"; "error_no_response"].

(** The status announced before attempt [attempt] of [checkModelReady]. *)
Definition announce (attempt : nat) : list Event :=
  if (1 <? attempt)%nat then [EvStatus ("retry_" ++ itoa attempt)%string] else [].

(** The assignments of one discovery-and-probe cycle; the flag says whether
    it ended ready. *)
Inductive Cycle : list Event -> bool -> Prop :=
| cycle_no_model (tag : string) :
    In tag fetchErrorTags ->
    Cycle [EvStatus "checking_models"; EvStatus tag] false
| cycle_no_generation (m tag : string) :
    In tag probeErrorTags ->
    Cycle [EvStatus "checking_models"; EvStatus "model_found"; EvModel m;
           EvStatus "testing_generation"; EvStatus tag] false
| cycle_ready (m : string) :
    Cycle [EvStatus "checking_models"; EvStatus "model_found"; EvModel m;
           EvStatus "testing_generation"; EvStatus "ready"; EvReady] true.

(** The assignments of the retry loop over the attempt numbers given. *)
Inductive Rounds : list nat -> list Event -> Prop :=
| rounds_exhausted :
    Rounds [] [EvStatus "failed"]
| rounds_again (attempt : nat) (rest : list nat) (c tr : list Event) :
    Cycle c false -> Rounds rest tr ->
    Rounds (attempt :: rest) (announce attempt ++ c ++ tr)
| rounds_ready (attempt : nat) (rest : list nat) (c : list Event) :
    Cycle c true ->
    Rounds (attempt :: rest) (announce attempt ++ c).

(** The assignments of [checkModelReady] as a whole. *)
Inductive Run (maxRetries : nat) : bool -> list Event -> Prop :=
| run_disabled :
    Run maxRetries false [EvStatus "disabled"; EvNeverReady]
| run_enabled (tr : list Event) :
    Rounds (seq 1 maxRetries) tr ->
    Run maxRetries true (EvStatus "starting" :: tr).

(** *** The program follows the shape *)

Lemma fetched_effect (E : Env) (w w' : World) (tag : string) :
  fetched E w w' tag ->
  effect w w' [EvStatus "checking_models"; EvGet (tagsURL w); EvStatus tag].
Proof.
  intros (T & G & _). split; [exact T | rewrite G; reflexivity].
Qed.

(** Every call of [getAvailableModel] ends on model_found with a name or on
    one of the four error tags with an error. *)
Lemma getAvailableModel_outcome (E : Env) (w : World) :
  exists tag,
    fetched E w (exec (getAvailableModel E) w) tag
    /\ ((exists m, fst (getAvailableModel E w) = inl m /\ tag = "model_found")
        \/ (exists e, fst (getAvailableModel E w) = inr e /\ In tag fetchErrorTags)).
Proof.
  destruct (tagsReply E (tagsCalls (meter w))) as [e | code body] eqn:Hr.
  - exists "error_connecting". run_fetch. rewrite Hr. cbn.
    split; [repeat split; tidy; reflexivity|].
    right. exists (ErrConnect e). split; [reflexivity | simpl; tauto].
  - destruct (code =? 200)%Z eqn:Hcode.
    + destruct (unmarshalModels E body) as [[[|first others]]|] eqn:Hbody.
      * exists "no_models". run_fetch. rewrite Hr, Hcode. cbn. rewrite Hbody. cbn.
        split; [repeat split; tidy; reflexivity|].
        right. exists ErrNoModels. split; [reflexivity | simpl; tauto].
      * exists "model_found". run_fetch. rewrite Hr, Hcode. cbn. rewrite Hbody. cbn.
        split; [repeat split; tidy; reflexivity|].
        left. exists (Name first). split; reflexivity.
      * exists "error_parsing". run_fetch. rewrite Hr, Hcode. cbn. rewrite Hbody. cbn.
        split; [repeat split; tidy; reflexivity|].
        right. exists ErrParseModels. split; [reflexivity | simpl; tauto].
    + exists "error_api". run_fetch. rewrite Hr, Hcode. cbn.
      split; [repeat split; tidy; reflexivity|].
      right. exists (ErrStatus code). split; [reflexivity | simpl; tauto].
Qed.

Lemma failureTag_listed (f : ProbeFailure) : In (failureTag f) probeErrorTags.
Proof. destruct f; simpl; tauto. Qed.

(** Every run of the probe loop either succeeds without touching a package
    variable or ends by setting one of the three probe error tags. *)
Lemma testAttempts_outcome (E : Env) (N : nat) (modelName : string)
    (attempts : list nat) :
  forall w,
    exists d,
      effect w (snd (testAttempts E N modelName attempts w)) d
      /\ ((fst (testAttempts E N modelName attempts w) = None /\ assignments d = [])
          \/ (exists e tag,
                fst (testAttempts E N modelName attempts w) = Some e
                /\ In tag probeErrorTags /\ assignments d = [EvStatus tag])).
Proof.
  induction attempts as [|t rest IH]; intro w.
  - exists [EvStatus "error_generation"]. split.
    + split; reflexivity.
    + right. exists (ErrGenExhausted N), "error_generation". simpl. tauto.
  - rewrite testAttempts_turn.
    destruct (probeFailure E (generateReply E (generateCalls (meter w)))) as [f|].
    + destruct (t <? N)%nat.
      * destruct (IH (exec (sleep 2) (probed E modelName w))) as (d & Heff & Hout).
        exists ([EvPost (relayURL w) (probeRequest modelName); EvSleep 2] ++ d).
        split.
        -- refine (effect_then _ _ _ _ _ _ Heff).
           split; [apply trace_slept | reflexivity].
        -- rewrite assignments_app. exact Hout.
      * exists [EvPost (relayURL w) (probeRequest modelName); EvStatus (failureTag f)].
        split.
        -- split; [|reflexivity].
           unfold probed, httpPostGenerate, setStatus. step. tidy. reflexivity.
        -- right. exists (failureError N f), (failureTag f).
           split; [reflexivity|]. split; [apply failureTag_listed | reflexivity].
    + exists [EvPost (relayURL w) (probeRequest modelName)]. split.
      * split; reflexivity.
      * left. split; reflexivity.
Qed.

Lemma testModelGenerationN_body (E : Env) (N : nat) (modelName : string) (w : World) :
  testModelGenerationN E N modelName w =
    testAttempts E N modelName (seq 1 N) (exec (setStatus "testing_generation") w).
Proof. reflexivity. Qed.

Lemma testModelGeneration_outcome (E : Env) (modelName : string) (w : World) :
  exists d,
    effect w (snd (testModelGeneration E modelName w)) d
    /\ ((fst (testModelGeneration E modelName w) = None
         /\ assignments d = [EvStatus "testing_generation"])
        \/ (exists e tag,
              fst (testModelGeneration E modelName w) = Some e
              /\ In tag probeErrorTags
              /\ assignments d = [EvStatus "testing_generation"; EvStatus tag])).
Proof.
  unfold testModelGeneration. rewrite testModelGenerationN_body.
  generalize (seq 1 100) as attempts. intro attempts.
  destruct (testAttempts_outcome E 100 modelName attempts
              (exec (setStatus "testing_generation") w)) as (d & Heff & Hout).
  exists ([EvStatus "testing_generation"] ++ d). split.
  - refine (effect_then _ _ _ _ _ _ Heff). split; reflexivity.
  - rewrite assignments_app.
    destruct Hout as [[R A] | (e & tag & R & Hin & A)]; rewrite A.
    + left. split; [exact R | reflexivity].
    + right. exists e, tag. repeat split; assumption.
Qed.

(** The statements before the discovery call in the loop body. *)
Definition announcing (attempt : nat) : M unit :=
  if (1 <? attempt)%nat
  then setStatus ("retry_" ++ itoa attempt) ;; sleep 10
  else ret tt.

(** One turn of the readiness loop. *)
Lemma readyAttempts_turn (E : Env) (attempt : nat) (rest : list nat) (w : World) :
  readyAttempts E (attempt :: rest) w =
    let w1 := exec (announcing attempt) w in
    match fst (getAvailableModel E w1) with
    | inr _ => readyAttempts E rest (exec (getAvailableModel E) w1)
    | inl model =>
        let w2 := exec (setModel model) (exec (getAvailableModel E) w1) in
        match fst (testModelGeneration E model w2) with
        | Some _ => readyAttempts E rest (snd (testModelGeneration E model w2))
        | None => (tt, exec (setStatus "ready" ;; storeReady)
                         (snd (testModelGeneration E model w2)))
        end
    end.
Proof.
  cbn [readyAttempts].
  generalize (testModelGeneration E), (getAvailableModel E), (readyAttempts E rest).
  intros probe fetch continue.
  cbv beta iota zeta delta [announcing exec bind ret setStatus sleep setModel
                            load store emit storeReady
                            fst snd globals meter trace ollamaModel].
  destruct (1 <? attempt)%nat.
  - destruct (fetch _) as [[model | e] w2]; cbn [fst snd]; [|reflexivity].
    cbn [fst snd globals meter trace ollamaModel].
    destruct (probe model _) as [[e|] w4]; reflexivity.
  - destruct (fetch _) as [[model | e] w2]; cbn [fst snd]; [|reflexivity].
    cbn [fst snd globals meter trace ollamaModel].
    destruct (probe model _) as [[e|] w4]; reflexivity.
Qed.

Lemma announcing_effect (attempt : nat) (w : World) :
  exists d, effect w (exec (announcing attempt) w) d /\ assignments d = announce attempt.
Proof.
  unfold announcing, announce. destruct (1 <? attempt)%nat.
  - exists [EvStatus ("retry_" ++ itoa attempt)%string; EvSleep 10]. split.
    + split; [|reflexivity]. unfold setStatus, sleep. step. tidy. reflexivity.
    + reflexivity.
  - exists []. split; [apply effect_here | reflexivity].
Qed.

(** The retry loop follows [Rounds]. *)
Lemma readyAttempts_rounds (E : Env) (attempts : list nat) :
  forall w,
    exists d,
      effect w (exec (readyAttempts E attempts) w) d /\ Rounds attempts (assignments d).
Proof.
  induction attempts as [|attempt rest IH]; intro w.
  - exists [EvStatus "failed"]. split; [split; reflexivity | constructor].
  - unfold exec. rewrite readyAttempts_turn. cbv zeta.
    destruct (announcing_effect attempt w) as (dA & HA & HdA).
    set (w1 := exec (announcing attempt) w) in *.
    destruct (getAvailableModel_outcome E w1) as (tag & HF & [(m & R & ->) | (e & R & Hin)]);
      rewrite R; apply fetched_effect in HF.
    + set (w2 := exec (getAvailableModel E) w1) in *.
      assert (HM : effect w2 (exec (setModel m) w2) [EvModel m]) by (split; reflexivity).
      set (w3 := exec (setModel m) w2) in *.
      generalize (testModelGeneration_outcome E m w3).
      destruct (testModelGeneration E m w3) as [probe w4]. cbn [fst snd].
      intros (dP & HP & [[RP AP] | (e & ptag & RP & Hin & AP)]); rewrite RP.
      * exists (dA ++ [EvStatus "checking_models"; EvGet (tagsURL w1); EvStatus "model_found"]
                   ++ [EvModel m] ++ dP ++ [EvStatus "ready"; EvReady]).
        split.
        -- refine (effect_then _ _ _ _ _ HA _). refine (effect_then _ _ _ _ _ HF _).
           refine (effect_then _ _ _ _ _ HM _). refine (effect_then _ _ _ _ _ HP _).
           split; [|reflexivity]. unfold setStatus, storeReady. step. tidy. reflexivity.
        -- rewrite !assignments_app, HdA, AP. apply rounds_ready. apply cycle_ready.
      * destruct (IH w4) as (dR & HR & Hrounds).
        exists (dA ++ [EvStatus "checking_models"; EvGet (tagsURL w1); EvStatus "model_found"]
                   ++ [EvModel m] ++ dP ++ dR).
        split.
        -- refine (effect_then _ _ _ _ _ HA _). refine (effect_then _ _ _ _ _ HF _).
           refine (effect_then _ _ _ _ _ HM _). exact (effect_then _ _ _ _ _ HP HR).
        -- rewrite !assignments_app, HdA, AP.
           apply (rounds_again attempt rest
                    [EvStatus "checking_models"; EvStatus "model_found"; EvModel m;
                     EvStatus "testing_generation"; EvStatus ptag]
                    (assignments dR)); [|exact Hrounds].
           apply cycle_no_generation, Hin.
    + destruct (IH (exec (getAvailableModel E) w1)) as (dR & HR & Hrounds).
      exists (dA ++ [EvStatus "checking_models"; EvGet (tagsURL w1); EvStatus tag] ++ dR).
      split.
      * refine (effect_then _ _ _ _ _ HA _). exact (effect_then _ _ _ _ _ HF HR).
      * rewrite !assignments_app, HdA.
        apply (rounds_again attempt rest [EvStatus "checking_models"; EvStatus tag]
                 (assignments dR)); [|exact Hrounds].
        apply cycle_no_model, Hin.
Qed.

(** [checkModelReady] follows [Run]. *)
Lemma checkModelReadyN_run (E : Env) (N : nat) (w : World) :
  exists d,
    effect w (exec (checkModelReadyN E N) w) d
    /\ Run N (ollamaEnabled (globals w)) (assignments d).
Proof.
  unfold checkModelReadyN, exec. unfold bind at 1, load at 1.
  destruct (ollamaEnabled (globals w)); cbn [negb].
  - unfold bind.
    destruct (readyAttempts_rounds E (seq 1 N) (exec (setStatus "starting") w))
      as (d & Heff & Hrounds).
    exists ([EvStatus "starting"] ++ d). split.
    + refine (effect_then _ _ _ _ _ _ Heff). split; reflexivity.
    + rewrite assignments_app. apply run_enabled, Hrounds.
  - exists [EvStatus "disabled"; EvNeverReady]. split; [|constructor].
    split; [|reflexivity]. unfold setStatus, storeNeverReady. step. tidy. reflexivity.
Qed.

(** *** What the shape implies *)

Definition terminal (s : string) : bool :=
  String.eqb s "ready" || String.eqb s "failed" || String.eqb s "disabled".

Definition transient (s : string) : bool := negb (terminal s).

(** The readiness states of the specification (the model name that
    ModelFound and Ready carry is [ollamaModel] here). *)
Inductive ReadinessState :=
| Initializing | CheckingModels | ModelFound | TestingGeneration
| RetryAttempt (n : nat)
| Ready | Disabled | Failed
| ErrorConnecting | ErrorAPI | ErrorParsing | NoModelsAvailable
| ErrorGeneration | ErrorNoResponseContent.

Definition fixedTags : list (string * ReadinessState) :=
  [("initializing", Initializing); ("checking_models", CheckingModels);
   ("model_found", ModelFound); ("testing_generation", TestingGeneration);
   ("ready", Ready); ("disabled", Disabled); ("failed", Failed);
   ("error_connecting", ErrorConnecting); ("error_api", ErrorAPI);
   ("error_parsing", ErrorParsing); ("error_parsing_response", ErrorParsing);
   ("no_models", NoModelsAvailable); ("error_generation", ErrorGeneration);
   ("error_no_response", ErrorNoResponseContent)].

(** The state a status string stands for, if any: the fixed tags, and
    retry_ followed by a decimal number. *)
Definition stateOfTag (s : string) : option ReadinessState :=
  match find (fun p => String.eqb (fst p) s) fixedTags with
  | Some p => Some (snd p)
  | None =>
      match Json.dropPrefix "retry_" s with
      | Some EmptyString => None
      | Some d =>
          match NilEmpty.uint_of_string d with
          | Some u => Some (RetryAttempt (Nat.of_uint u))
          | None => None
          end
      | None => None
      end
  end.

Definition enumerated (s : string) : bool :=
  match stateOfTag s with Some _ => true | None => false end.

Lemma itoa_digits (n : nat) : itoa n <> EmptyString.
Proof.
  unfold itoa. intro H.
  assert (Hu := NilEmpty.usu (Nat.to_uint n)). rewrite H in Hu. simpl in Hu.
  injection Hu as Hu.
  assert (Hn := Unsigned.of_to n). rewrite <- Hu in Hn. simpl in Hn. subst n.
  discriminate Hu.
Qed.

Lemma stateOfTag_retry (n : nat) :
  stateOfTag ("retry_" ++ itoa n) = Some (RetryAttempt n).
Proof.
  unfold stateOfTag. simpl.
  destruct (itoa n) as [|c d] eqn:Hn; [exfalso; exact (itoa_digits n Hn)|].
  rewrite <- Hn. unfold itoa. rewrite NilEmpty.usu, Unsigned.of_to. reflexivity.
Qed.

Lemma transient_retry (n : nat) : transient ("retry_" ++ itoa n) = true.
Proof. reflexivity. Qed.

Lemma announce_statuses (attempt : nat) :
  forallb transient (statuses (announce attempt)) = true
  /\ forallb enumerated (statuses (announce attempt)) = true.
Proof.
  unfold announce. destruct (1 <? attempt)%nat; [|split; reflexivity].
  cbn [statuses forallb]. unfold enumerated. rewrite stateOfTag_retry, transient_retry.
  split; reflexivity.
Qed.

Lemma retried_statuses (c : list Event) :
  Cycle c false ->
  forallb transient (statuses c) = true /\ forallb enumerated (statuses c) = true.
Proof.
  intro H. inversion H as [tag Hin | m tag Hin |]; subst; simpl in Hin;
    repeat (destruct Hin as [<- | Hin]; [split; reflexivity|]); contradiction.
Qed.

(** The statuses of the retry loop: transient ones, all of them states of
    the enumeration, then ready or failed and nothing after it. *)
Lemma rounds_statuses (attempts : list nat) (tr : list Event) :
  Rounds attempts tr ->
  exists h t,
    statuses tr = h ++ [t]
    /\ (t = "ready" \/ t = "failed")
    /\ forallb transient h = true
    /\ forallb enumerated (statuses tr) = true.
Proof.
  induction 1 as [| attempt rest c tr Hc _ (h & t & Hs & Ht & Hh & He) | attempt rest c Hc].
  - exists [], "failed". repeat split. right. reflexivity.
  - destruct (announce_statuses attempt) as [A1 A2].
    destruct (retried_statuses c Hc) as [C1 C2].
    exists (statuses (announce attempt) ++ statuses c ++ h), t.
    rewrite !statuses_app, Hs, !forallb_app, A1, A2, C1, C2, Hh.
    rewrite Hs, forallb_app in He. rewrite He, !app_assoc.
    repeat split. exact Ht.
  - destruct (announce_statuses attempt) as [A1 A2].
    inversion Hc as [| | m]; subst.
    exists (statuses (announce attempt)
              ++ ["checking_models"; "model_found"; "testing_generation"]), "ready".
    rewrite !statuses_app, !forallb_app, A1, A2. cbn [statuses].
    rewrite <- !app_assoc. repeat split. left. reflexivity.
Qed.

Lemma announce_flags (attempt : nat) (g : Globals) :
  modelReady (replay (announce attempt) g) = modelReady g
  /\ modelNeverReady (replay (announce attempt) g) = modelNeverReady g.
Proof. unfold announce. destruct (1 <? attempt)%nat; split; reflexivity. Qed.

Lemma retried_flags (c : list Event) (g : Globals) :
  Cycle c false ->
  modelReady (replay c g) = modelReady g
  /\ modelNeverReady (replay c g) = modelNeverReady g.
Proof. intro H. inversion H; subst; split; reflexivity. Qed.

(** The flags after the retry loop: [modelNeverReady] is untouched, and
    [modelReady] is set exactly when the loop ends on ready. *)
Lemma rounds_flags (attempts : list nat) (tr : list Event) :
  Rounds attempts tr ->
  forall g,
    modelNeverReady (replay tr g) = modelNeverReady g
    /\ ((modelStatus (replay tr g) = "ready" /\ modelReady (replay tr g) = true
         /\ modelWrites tr <> [])
        \/ (modelStatus (replay tr g) = "failed"
            /\ modelReady (replay tr g) = modelReady g)).
Proof.
  induction 1 as [| attempt rest c tr Hc _ IH | attempt rest c Hc]; intro g.
  - split; [reflexivity|]. right. split; reflexivity.
  - rewrite !replay_app.
    destruct (announce_flags attempt g) as [A1 A2].
    destruct (retried_flags c (replay (announce attempt) g) Hc) as [C1 C2].
    destruct (IH (replay c (replay (announce attempt) g))) as [N [(S & R & W) | (S & R)]].
    + split; [congruence|]. left. repeat split; try assumption.
      rewrite !modelWrites_app. intro Hnil.
      apply app_eq_nil in Hnil as [_ Hnil]. apply app_eq_nil in Hnil as [_ Hnil].
      exact (W Hnil).
    + split; [congruence|]. right. split; [assumption | congruence].
  - rewrite replay_app. destruct (announce_flags attempt g) as [A1 A2].
    inversion Hc as [| | m]; subst. split; [exact A2|]. left.
    repeat split. rewrite modelWrites_app. intro Hnil.
    apply app_eq_nil in Hnil as [_ Hnil]. discriminate Hnil.
Qed.

Definition atModelFound (p : string * string) : bool := String.eqb (fst p) "model_found".

(** Every assignment to [ollamaModel] in the retry loop is made while the
    status is model_found. *)
Lemma rounds_writes (attempts : list nat) (tr : list Event) :
  Rounds attempts tr ->
  forall s, forallb atModelFound (writesAt s tr) = true.
Proof.
  induction 1 as [| attempt rest c tr Hc _ IH | attempt rest c Hc]; intro s.
  - reflexivity.
  - rewrite !writesAt_app, !forallb_app, IH.
    assert (HA : writesAt s (announce attempt) = [])
      by (unfold announce; destruct (1 <? attempt)%nat; reflexivity).
    rewrite HA. inversion Hc; subst; reflexivity.
  - rewrite writesAt_app, forallb_app.
    assert (HA : writesAt s (announce attempt) = [])
      by (unfold announce; destruct (1 <? attempt)%nat; reflexivity).
    rewrite HA. inversion Hc; subst; reflexivity.
Qed.

Definition isModelFound (s : string) : bool := String.eqb s "model_found".

(** There are as many assignments to [ollamaModel] as visits to
    model_found. *)
Lemma rounds_write_count (attempts : list nat) (tr : list Event) :
  Rounds attempts tr ->
  length (modelWrites tr) = length (filter isModelFound (statuses tr)).
Proof.
  assert (HA : forall attempt,
             modelWrites (announce attempt) = []
             /\ filter isModelFound (statuses (announce attempt)) = []).
  { intro attempt. unfold announce. destruct (1 <? attempt)%nat; split; reflexivity. }
  induction 1 as [| attempt rest c tr Hc _ IH | attempt rest c Hc].
  - reflexivity.
  - destruct (HA attempt) as [A1 A2].
    rewrite !modelWrites_app, !statuses_app, !filter_app, !length_app, IH, A1, A2.
    inversion Hc as [tag Hin | m tag Hin |]; subst; simpl in Hin;
      repeat (destruct Hin as [<- | Hin]; [reflexivity|]); contradiction.
  - destruct (HA attempt) as [A1 A2].
    rewrite !modelWrites_app, !statuses_app, !filter_app, !length_app, A1, A2.
    inversion Hc; subst; reflexivity.
Qed.

Lemma enumerated_or_starting (l : list string) :
  forallb enumerated l = true ->
  forallb (fun s => enumerated s || String.eqb s "starting") l = true.
Proof.
  induction l as [|s l IH]; [reflexivity|].
  cbn [forallb]. intro H. apply andb_prop in H as [H1 H2].
  rewrite H1, (IH H2). reflexivity.
Qed.

Lemma run_statuses (N : nat) (enabled : bool) (tr : list Event) :
  Run N enabled tr ->
  exists h t,
    "initializing" :: statuses tr = h ++ [t]
    /\ terminal t = true
    /\ forallb transient h = true
    /\ forallb (fun s => enumerated s || String.eqb s "starting")
         ("initializing" :: statuses tr) = true.
Proof.
  intros [| tr' Hrounds].
  - exists ["initializing"], "disabled". repeat split.
  - destruct (rounds_statuses _ _ Hrounds) as (h & t & Hs & Ht & Hh & He).
    exists ("initializing" :: "starting" :: h), t.
    cbn [statuses forallb]. rewrite (enumerated_or_starting _ He), Hs, Hh.
    repeat split. destruct Ht as [-> | ->]; reflexivity.
Qed.

(** The three ways [checkModelReady] leaves the flags, starting from both
    flags false. *)
Lemma run_flags (N : nat) (enabled : bool) (tr : list Event) (g : Globals) :
  Run N enabled tr ->
  modelReady g = false -> modelNeverReady g = false ->
  (enabled = false /\ modelStatus (replay tr g) = "disabled"
   /\ modelNeverReady (replay tr g) = true /\ modelReady (replay tr g) = false)
  \/ (enabled = true /\ modelStatus (replay tr g) = "ready"
      /\ modelNeverReady (replay tr g) = false /\ modelReady (replay tr g) = true
      /\ modelWrites tr <> [])
  \/ (enabled = true /\ modelStatus (replay tr g) = "failed"
      /\ modelNeverReady (replay tr g) = false /\ modelReady (replay tr g) = false).
Proof.
  intros [| tr' Hrounds] Hr Hn.
  - left. repeat split. exact Hr.
  - right.
    change (replay (EvStatus "starting" :: tr') g)
      with (replay tr' (withStatus "starting" g)).
    destruct (rounds_flags _ _ Hrounds (withStatus "starting" g))
      as [N' [(S & R & W) | (S & R)]].
    + left. repeat split; try assumption. rewrite N'. exact Hn.
    + right. repeat split; try assumption; [rewrite N' | rewrite R]; assumption.
Qed.

Lemma run_writes (N : nat) (enabled : bool) (tr : list Event) :
  Run N enabled tr ->
  forallb atModelFound (writesAt "initializing" tr) = true
  /\ length (modelWrites tr) = length (filter isModelFound (statuses tr)).
Proof.
  intros [| tr' Hrounds]; [split; reflexivity|]. split.
  - apply (rounds_writes _ _ Hrounds).
  - apply (rounds_write_count _ _ Hrounds).
Qed.

(** The run of [checkModelReady] from the initial world, with its trace and
    final globals tied to [Run]. *)
Lemma checkModelReady_from_start (E : Env) (url : string) (enabled : bool) :
  let w := exec (checkModelReady E) (initialWorld url enabled) in
  Run 100 enabled (assignments (trace w))
  /\ globals w = replay (assignments (trace w)) (globals (initialWorld url enabled)).
Proof.
  cbv zeta. unfold checkModelReady.
  destruct (checkModelReadyN_run E 100 (initialWorld url enabled)) as (d & [T G] & Hrun).
  generalize dependent (exec (checkModelReadyN E 100) (initialWorld url enabled)).
  intros w T G.
  change (trace (initialWorld url enabled) ++ d) with d in T. rewrite T.
  split; [exact Hrun|]. rewrite replay_assignments. exact G.
Qed.

(** *** The handler never assigns to a package variable *)

Lemma relayLines_globals (E : Env) (lines : list string) :
  forall acc w, globals (snd (relayLines E lines acc w)) = globals w.
Proof.
  induction lines as [|l lines IH]; intros acc w; [reflexivity|].
  destruct (unmarshalStream E l) as [c|] eqn:Hl.
  - rewrite (relayLines_chunk E _ _ _ _ _ Hl).
    destruct (writeOK E (writeCalls (meter w))); [|reflexivity].
    destruct (Done c); [reflexivity|]. rewrite IH. reflexivity.
  - rewrite (relayLines_noise E _ _ _ _ Hl). apply IH.
Qed.

Lemma streamOllamaResponse_globals (E : Env) (prompt : string) (w : World) :
  globals (exec (streamOllamaResponse E prompt) w) = globals w.
Proof.
  unfold exec.
  destruct (streamReply E (streamCalls (meter w))) as [e | lines err] eqn:Hr.
  - rewrite (streamOllamaResponse_failed E prompt w e Hr). reflexivity.
  - rewrite (streamOllamaResponse_body E prompt w lines err Hr). cbv zeta.
    generalize (relayLines_globals E lines EmptyString
                  (exec (httpPostStream E (relayURL w) (relayRequest prompt w)) w)).
    destruct (relayLines E lines EmptyString _) as [full w2]. cbn [snd]. intro H.
    unfold saveMessage, emit. cbn [snd globals]. rewrite H. reflexivity.
Qed.

Lemma handleMessage_globals (E : Env) (msg : string) (w : World) :
  globals (exec (handleMessage E msg) w) = globals w.
Proof.
  destruct (modelReady (globals w)) eqn:Hready;
    [|exact (proj1 (handleMessage_not_ready E msg w Hready))].
  unfold handleMessage, saveMessage, Intn, WriteMessage.
  unfold exec, bind, ret, load, count, emit.
  cbn [fst snd globals meter trace randCalls writeCalls].
  destruct (modelNeverReady (globals w)); [reflexivity|].
  cbn [fst snd globals meter trace randCalls writeCalls]. rewrite Hready. cbn [negb].
  exact (streamOllamaResponse_globals E msg
           {| globals := globals w; meter := meter w;
              trace := trace w ++ [EvSave "User" msg] |}).
Qed.

Lemma serve_turn (E : Env) (msg : string) (rest : list string) (w : World) :
  exec (serve E (msg :: rest)) w = exec (serve E rest) (exec (handleMessage E msg) w).
Proof.
  unfold exec. cbn [serve]. unfold bind.
  destruct (handleMessage E msg w) as [[] w']. reflexivity.
Qed.

Lemma serve_globals (E : Env) (inbound : list string) :
  forall w, globals (exec (serve E inbound) w) = globals w.
Proof.
  induction inbound as [|msg rest IH]; intro w; [reflexivity|].
  rewrite serve_turn, IH. apply handleMessage_globals.
Qed.

(** The events of a connection on which every inbound message is answered
    with one entry of [table]. *)
Inductive CannedTurns (table : list string) : list string -> list Event -> Prop :=
| canned_done :
    CannedTurns table [] []
| canned_turn (msg reply : string) (ok : bool) (rest : list string) (tr : list Event) :
    In reply table ->
    CannedTurns table rest tr ->
    CannedTurns table (msg :: rest)
      (EvSave "User" msg :: EvWrite reply ok :: EvSave "AI" reply :: tr).

Lemma serve_canned (E : Env) (inbound : list string) :
  forall w,
    modelReady (globals w) = false ->
    exists d,
      trace (exec (serve E inbound) w) = trace w ++ d
      /\ CannedTurns (cannedTable w) inbound d.
Proof.
  induction inbound as [|msg rest IH]; intros w Hready.
  - exists []. split; [symmetry; apply app_nil_r | constructor].
  - destruct (handleMessage_not_ready E msg w Hready) as (G & _ & T).
    destruct (IH (exec (handleMessage E msg) w)) as (d & Td & Hd).
    + rewrite G. exact Hready.
    + exists ([EvSave "User" msg;
               EvWrite (cannedReply E w) (writeOK E (writeCalls (meter w)));
               EvSave "AI" (cannedReply E w)] ++ d).
      split.
      * rewrite serve_turn, Td, T, <- app_assoc. reflexivity.
      * cbn [app]. constructor; [apply cannedReply_in_table|].
        unfold cannedTable in *. rewrite G in Hd. exact Hd.
Qed.

(** *** The claims about the state machine *)

(** A service that cannot be reached at all. *)
Definition downEnv : Env :=
  steady (HttpErr "connection refused") (HttpErr "connection refused")
         (StreamErr "connection refused") 3.

(** A service that lists model m1 on the first call and is gone afterwards,
    and never generates. *)
Definition fadingEnv : Env :=
  {| unmarshalStream := Json.unmarshalStream;
     unmarshalModels := Json.unmarshalModels;
     unmarshalMap := Json.unmarshalMap;
     tagsReply := fun k => match k with
                           | 0 => HttpOk 200 (tagsBody "m1")
                           | _ => HttpErr "connection refused"
                           end;
     generateReply := fun _ => HttpErr "timeout";
     streamReply := fun _ => StreamErr "timeout";
     writeOK := fun _ => true;
     rand := fun k => k |}.

Definition start (enabled : bool) : World := initialWorld "http://ollama:11434" enabled.

(** C2, as the claim states it, fails: when every attempt has failed the
    status is failed while [modelNeverReady] is still false, and the next
    inbound message is answered from [waitingMessages]. *)
Lemma failed_is_not_never_ready :
  let w := exec (checkModelReady downEnv) (start true) in
  modelStatus (globals w) = "failed"
  /\ modelNeverReady (globals w) = false
  /\ ~ (modelNeverReady (globals w) = true <->
        modelStatus (globals w) = "disabled" \/ modelStatus (globals w) = "failed")
  /\ sinkWrites (trace (exec (handleMessage downEnv "Hi") w)) =
       ["🦥 Hold on! The AI is still having its morning coffee..."].
Proof.
  vm_compute. repeat split.
  intros [_ H]. assert (F : false = true) by (apply H; right; reflexivity).
  discriminate F.
Qed.

(** C5, as the claim states it, fails: with Ollama enabled the status after
    initializing is starting, which is no state of the enumeration, and
    checking_models comes only after it. *)
Lemma starting_is_not_enumerated :
  "initializing" :: statuses (trace (exec (checkModelReady (helloEnv 0)) (start true))) =
    ["initializing"; "starting"; "checking_models"; "model_found";
     "testing_generation"; "ready"]
  /\ stateOfTag "starting" = None.
Proof.
  vm_compute. split; reflexivity.
Qed.

Lemma last_of_history (l h : list string) (d t : string) :
  d :: l = h ++ [t] -> last l d = t.
Proof.
  intro H. rewrite <- (last_cons d d l), H. apply last_last.
Qed.

(** C5 (amended).  Whatever the service answers, the assignments
    [checkModelReady] makes follow [Run]: when Ollama is disabled the status
    goes from initializing straight to disabled; otherwise it goes from
    initializing to starting, a tag outside the enumeration, and then through
    at most 100 cycles, each announced by retry_n from the second on and made
    of checking_models followed by a discovery error tag, or by model_found,
    testing_generation and a probe error tag or ready; the run ends on ready
    after the first cycle that succeeds and on failed when none does.  Every
    status but starting is a state of the enumeration; ready, failed or
    disabled is the last status set, none is set before it, and no inbound
    message changes a package variable afterwards. *)
Theorem readiness_visits_states_in_order :
  forall (E : Env) (url : string) (enabled : bool),
    let w := exec (checkModelReady E) (initialWorld url enabled) in
    let history := "initializing" :: statuses (trace w) in
    Run 100 enabled (assignments (trace w))
    /\ (exists h t,
          history = h ++ [t] /\ terminal t = true /\ forallb transient h = true
          /\ modelStatus (globals w) = t)
    /\ forallb (fun s => enumerated s || String.eqb s "starting") history = true
    /\ (forall inbound, globals (exec (serve E inbound) w) = globals w).
Proof.
  intros E url enabled.
  destruct (checkModelReady_from_start E url enabled) as [Hrun G].
  cbv zeta in *.
  generalize dependent (exec (checkModelReady E) (initialWorld url enabled)).
  intros w Hrun G.
  destruct (run_statuses _ _ _ Hrun) as (h & t & Hs & Ht & Hh & He).
  rewrite statuses_assignments in Hs, He.
  split; [exact Hrun|]. split; [|split; [exact He | intro; apply serve_globals]].
  exists h, t. repeat split; try assumption.
  rewrite G, modelStatus_replay. unfold statusAfter. rewrite statuses_assignments.
  apply (last_of_history _ h). exact Hs.
Qed.

(** C9, as the claim states it, fails: the model name is assigned as soon as
    discovery succeeds.  Here the probe of m1 fails and the service then
    disappears; the run ends on failed with [ollamaModel] set to m1, and the
    one assignment was made while the status was model_found. *)
Lemma model_name_set_before_ready :
  let w := exec (checkModelReady fadingEnv) (start true) in
  modelStatus (globals w) = "failed"
  /\ ollamaModel (globals w) = "m1"
  /\ ollamaModel (globals w) <> EmptyString
  /\ writesAt "initializing" (trace w) = [("model_found", "m1")].
Proof.
  vm_compute. repeat split. discriminate.
Qed.

(** * Further properties *)

(** ** More ways to read a trace *)

Fixpoint gets (tr : list Event) : list string :=
  match tr with
  | [] => []
  | EvGet url :: rest => url :: gets rest
  | _ :: rest => gets rest
  end.

(** The rows inserted into chat_history, as (sender, message). *)
Fixpoint saves (tr : list Event) : list (string * string) :=
  match tr with
  | [] => []
  | EvSave sender message :: rest => (sender, message) :: saves rest
  | _ :: rest => saves rest
  end.

(** The messages the peer accepted. *)
Fixpoint accepted (tr : list Event) : list string :=
  match tr with
  | [] => []
  | EvWrite msg true :: rest => msg :: accepted rest
  | _ :: rest => accepted rest
  end.

Definition savedBy (sender : string) (tr : list Event) : list string :=
  map snd (filter (fun p => String.eqb (fst p) sender) (saves tr)).

Lemma gets_app (a b : list Event) : gets (a ++ b) = gets a ++ gets b.
Proof.
  induction a as [|e a IH]; [reflexivity|].
  destruct e; simpl; rewrite ?IH; reflexivity.
Qed.

Lemma saves_app (a b : list Event) : saves (a ++ b) = saves a ++ saves b.
Proof.
  induction a as [|e a IH]; [reflexivity|].
  destruct e; simpl; rewrite ?IH; reflexivity.
Qed.

Lemma accepted_app (a b : list Event) : accepted (a ++ b) = accepted a ++ accepted b.
Proof.
  induction a as [|e a IH]; [reflexivity|].
  destruct e as [| | | | | | |msg [|]|]; simpl; rewrite ?IH; reflexivity.
Qed.

Lemma savedBy_app (sender : string) (a b : list Event) :
  savedBy sender (a ++ b) = savedBy sender a ++ savedBy sender b.
Proof.
  unfold savedBy. rewrite saves_app, filter_app, map_app. reflexivity.
Qed.

(** ** The probe, whatever the service answers *)

Lemma replay_retries (url : string) (req : OllamaRequest) (n : nat) (g : Globals) :
  replay (retries url req n) g = g.
Proof. induction n as [|n IH]; [reflexivity | exact IH]. Qed.

Lemma retries_snoc (url : string) (req : OllamaRequest) (n : nat) (tl : list Event) :
  EvPost url req :: EvSleep 2 :: retries url req n ++ tl = retries url req (S n) ++ tl.
Proof. reflexivity. Qed.

(** What the probe loop does from attempt number [a] on, with [S n] attempts
    left up to the ceiling: it stops at the first attempt that succeeds,
    and fails only when all of them fail. *)
Lemma testAttempts_course (E : Env) (N : nat) (modelName : string) :
  forall (n a : nat) (w : World),
    a + n = N ->
    let run := testAttempts E N modelName (seq a (S n)) w in
    let url := relayURL w in
    let req := probeRequest modelName in
    let reply i := generateReply E (generateCalls (meter w) + i) in
    (exists k,
        k <= n
        /\ (forall i, i < k -> probeFailure E (reply i) <> None)
        /\ probeFailure E (reply k) = None
        /\ fst run = None
        /\ trace (snd run) = trace w ++ retries url req k ++ [EvPost url req]
        /\ globals (snd run) = globals w)
    \/ (exists f,
          (forall i, i <= n -> probeFailure E (reply i) <> None)
          /\ probeFailure E (reply n) = Some f
          /\ fst run = Some (failureError N f)
          /\ trace (snd run) =
               trace w ++ retries url req n ++ [EvPost url req; EvStatus (failureTag f)]
          /\ globals (snd run) = withStatus (failureTag f) (globals w)).
Proof.
  induction n as [|n IH]; intros a w Ha; cbv zeta.
  - change (seq a 1) with [a]. rewrite testAttempts_turn, Nat.add_0_r.
    destruct (probeFailure E (generateReply E (generateCalls (meter w)))) as [f|] eqn:Hf.
    + right. exists f.
      replace (a <? N)%nat with false by (symmetry; apply Nat.ltb_ge; lia).
      split; [|split; [reflexivity|]].
      * intros i Hi. replace i with 0 by lia. rewrite Nat.add_0_r, Hf. discriminate.
      * repeat split. unfold probed, httpPostGenerate, setStatus. step. tidy. reflexivity.
    + left. exists 0. rewrite Nat.add_0_r.
      split; [lia|]. split; [intros i Hi; lia|]. split; [exact Hf|].
      repeat split.
  - change (seq a (S (S n))) with (a :: seq (S a) (S n)).
    rewrite testAttempts_turn.
    destruct (probeFailure E (generateReply E (generateCalls (meter w)))) as [f0|] eqn:Hf.
    + replace (a <? N)%nat with true by (symmetry; apply Nat.ltb_lt; lia).
      specialize (IH (S a) (exec (sleep 2) (probed E modelName w)) ltac:(lia)).
      cbv zeta in IH. rewrite generateCalls_slept, relayURL_slept, trace_slept in IH.
      change (globals (exec (sleep 2) (probed E modelName w))) with (globals w) in IH.
      destruct IH as [(k & Hk & Hfail & Hok & R & T & G) | (f & Hfail & Hlast & R & T & G)].
      * left. exists (S k). split; [lia|]. split; [|split].
        -- intros [|i] Hi; [rewrite Nat.add_0_r, Hf; discriminate|].
           rewrite Nat.add_succ_r. apply Hfail. lia.
        -- rewrite Nat.add_succ_r. exact Hok.
        -- split; [exact R|]. split; [|exact G].
           rewrite T. tidy. reflexivity.
      * right. exists f. split; [|split].
        -- intros [|i] Hi; [rewrite Nat.add_0_r, Hf; discriminate|].
           rewrite Nat.add_succ_r. apply Hfail. lia.
        -- rewrite Nat.add_succ_r. exact Hlast.
        -- split; [exact R|]. split; [|exact G].
           rewrite T. tidy. reflexivity.
    + left. exists 0. rewrite Nat.add_0_r.
      split; [lia|]. split; [intros i Hi; lia|]. split; [exact Hf|].
      repeat split.
Qed.

(** The probe when its first success is attempt number [k + 1]. *)
Lemma testModelGenerationN_passes :
  forall (E : Env) (N : nat) (modelName : string) (w : World) (k : nat),
    k < N ->
    (forall i, i < k ->
       probeFailure E (generateReply E (generateCalls (meter w) + i)) <> None) ->
    probeFailure E (generateReply E (generateCalls (meter w) + k)) = None ->
    fst (testModelGenerationN E N modelName w) = None
    /\ trace (snd (testModelGenerationN E N modelName w)) =
         trace w ++ [EvStatus "testing_generation"]
                 ++ retries (relayURL w) (probeRequest modelName) k
                 ++ [EvPost (relayURL w) (probeRequest modelName)]
    /\ globals (snd (testModelGenerationN E N modelName w)) =
         withStatus "testing_generation" (globals w).
Proof.
  intros E N modelName w k Hk Hfail Hok.
  destruct N as [|n]; [lia|].
  rewrite testModelGenerationN_body.
  destruct (testAttempts_course E (S n) modelName n 1
              (exec (setStatus "testing_generation") w) eq_refl)
    as [(k' & Hk' & Hfail' & Hok' & R & T & G) | (f & Hall & _)].
  - assert (k' = k).
    { destruct (Nat.lt_trichotomy k' k) as [Hlt | [Heq | Hgt]]; [|exact Heq|].
      - exfalso. exact (Hfail k' Hlt Hok').
      - exfalso. exact (Hfail' k Hgt Hok). }
    subst k'. split; [exact R|]. split; [|exact G].
    rewrite T. unfold setStatus, relayURL. step. tidy. reflexivity.
  - exfalso. apply (Hall k); [lia | exact Hok].
Qed.

(** X1.  The probe stops at the first attempt that succeeds: when the first
    [k] attempts fail and the next one, still within the ceiling, succeeds,
    [testModelGenerationN] returns nil after exactly [k + 1] calls and [k]
    delays, leaves the status at testing_generation and makes no further
    call. *)
Theorem prober_stops_at_first_success :
  forall (E : Env) (N : nat) (modelName : string) (w : World) (k : nat),
    k < N ->
    (forall i, i < k ->
       probeFailure E (generateReply E (generateCalls (meter w) + i)) <> None) ->
    probeFailure E (generateReply E (generateCalls (meter w) + k)) = None ->
    fst (testModelGenerationN E N modelName w) = None
    /\ trace (exec (testModelGenerationN E N modelName) w) =
         trace w ++ [EvStatus "testing_generation"]
                 ++ retries (relayURL w) (probeRequest modelName) k
                 ++ [EvPost (relayURL w) (probeRequest modelName)]
    /\ globals (exec (testModelGenerationN E N modelName) w) =
         withStatus "testing_generation" (globals w).
Proof.
  intros E N modelName w k. apply testModelGenerationN_passes.
Qed.

(** A service that refuses two generation calls and answers the third. *)
Definition warmingEnv : Env :=
  {| unmarshalStream := Json.unmarshalStream;
     unmarshalModels := Json.unmarshalModels;
     unmarshalMap := Json.unmarshalMap;
     tagsReply := fun _ => HttpOk 200 (tagsBody "m1");
     generateReply := fun k => if (k <? 2)%nat then HttpErr "timeout"
                               else HttpOk 200 (chunkLine "Hi!" true);
     streamReply := fun _ => StreamOk [chunkLine "Yo" true] None;
     writeOK := fun _ => true;
     rand := fun k => k |}.

Lemma prober_stops_at_first_success_witness :
  trace (exec (testModelGenerationN warmingEnv 5 "m1") (start true)) =
    [EvStatus "testing_generation";
     EvPost "http://ollama:11434/api/generate" (probeRequest "m1"); EvSleep 2;
     EvPost "http://ollama:11434/api/generate" (probeRequest "m1"); EvSleep 2;
     EvPost "http://ollama:11434/api/generate" (probeRequest "m1")].
Proof.
  refine (proj1 (proj2 (prober_stops_at_first_success warmingEnv 5 "m1" (start true) 2
                          _ _ _))).
  - lia.
  - intros i Hi. destruct i as [|[|i]]; [discriminate | discriminate | lia].
  - reflexivity.
Defined.

(** X2.  The probe returns nil exactly when one of its first [N] calls
    succeeds; in other words it reports an error if and only if all [N]
    attempts fail (for [N = 0] it makes no call and reports an error). *)
Theorem prober_succeeds_iff_some_attempt_does :
  forall (E : Env) (N : nat) (modelName : string) (w : World),
    fst (testModelGenerationN E N modelName w) = None
    <-> exists i, i < N
          /\ probeFailure E (generateReply E (generateCalls (meter w) + i)) = None.
Proof.
  intros E N modelName w. destruct N as [|n].
  - split; [discriminate | intros (i & Hi & _); lia].
  - rewrite testModelGenerationN_body.
    destruct (testAttempts_course E (S n) modelName n 1
                (exec (setStatus "testing_generation") w) eq_refl)
      as [(k & Hk & _ & Hok & R & _) | (f & Hall & _ & R & _)].
    + split; [intros _ | intros _; exact R].
      exists k. split; [lia | exact Hok].
    + rewrite R. split; [discriminate|].
      intros (i & Hi & Hok). exfalso. apply (Hall i); [lia | exact Hok].
Qed.

(** ** The whole trace of the state machine *)

(** The events of one call of [testModelGeneration] under ceiling [N]. *)
Inductive ProbeRun (url modelName : string) (N : nat) : list Event -> bool -> Prop :=
| probe_passed (k : nat) :
    k < N ->
    ProbeRun url modelName N
      ([EvStatus "testing_generation"]
         ++ retries url (probeRequest modelName) k
         ++ [EvPost url (probeRequest modelName)]) true
| probe_gave_up (tag : string) :
    1 <= N -> In tag probeErrorTags ->
    ProbeRun url modelName N
      ([EvStatus "testing_generation"]
         ++ retries url (probeRequest modelName) (N - 1)
         ++ [EvPost url (probeRequest modelName); EvStatus tag]) false.

Definition rawAnnounce (attempt : nat) : list Event :=
  if (1 <? attempt)%nat
  then [EvStatus ("retry_" ++ itoa attempt)%string; EvSleep 10]
  else [].

(** The events of one cycle of [checkModelReady], for the service at [base]. *)
Inductive RawCycle (base : string) : list Event -> bool -> Prop :=
| raw_no_model (tag : string) :
    In tag fetchErrorTags ->
    RawCycle base
      [EvStatus "checking_models"; EvGet (base ++ "/api/tags")%string; EvStatus tag] false
| raw_probed (m : string) (p : list Event) (ok : bool) :
    ProbeRun (base ++ "/api/generate")%string m 100 p ok ->
    RawCycle base
      ([EvStatus "checking_models"; EvGet (base ++ "/api/tags")%string;
        EvStatus "model_found"; EvModel m]
         ++ p ++ (if ok then [EvStatus "ready"; EvReady] else [])) ok.

Inductive RawRounds (base : string) : list nat -> list Event -> Prop :=
| raw_exhausted :
    RawRounds base [] [EvStatus "failed"]
| raw_again (attempt : nat) (rest : list nat) (c tr : list Event) :
    RawCycle base c false -> RawRounds base rest tr ->
    RawRounds base (attempt :: rest) (rawAnnounce attempt ++ c ++ tr)
| raw_ready (attempt : nat) (rest : list nat) (c : list Event) :
    RawCycle base c true ->
    RawRounds base (attempt :: rest) (rawAnnounce attempt ++ c).

Inductive RawRun (base : string) (maxRetries : nat) : bool -> list Event -> Prop :=
| raw_disabled :
    RawRun base maxRetries false [EvStatus "disabled"; EvNeverReady]
| raw_enabled (tr : list Event) :
    RawRounds base (seq 1 maxRetries) tr ->
    RawRun base maxRetries true (EvStatus "starting" :: tr).

Lemma ollamaURL_replay (tr : list Event) :
  forall g, ollamaURL (replay tr g) = ollamaURL g.
Proof.
  induction tr as [|e tr IH]; intro g; [reflexivity|].
  unfold replay in *. cbn [fold_left]. rewrite IH. destruct e; reflexivity.
Qed.

Lemma effect_url (w w' : World) (d : list Event) :
  effect w w' d -> ollamaURL (globals w') = ollamaURL (globals w).
Proof. intros [_ G]. rewrite G. apply ollamaURL_replay. Qed.

Lemma testModelGeneration_probeRun (E : Env) (modelName : string) (w : World) :
  exists d ok,
    effect w (snd (testModelGeneration E modelName w)) d
    /\ ProbeRun (relayURL w) modelName 100 d ok
    /\ (fst (testModelGeneration E modelName w) = None <-> ok = true).
Proof.
  unfold testModelGeneration. rewrite testModelGenerationN_body.
  destruct (testAttempts_course E 100 modelName 99 1
              (exec (setStatus "testing_generation") w) eq_refl)
    as [(k & Hk & _ & _ & R & T & G) | (f & _ & _ & R & T & G)];
    generalize dependent (testAttempts E 100 modelName (seq 1 100)
                            (exec (setStatus "testing_generation") w));
    intros [probe w'] R T G; cbn [fst snd] in *.
  - exists ([EvStatus "testing_generation"]
              ++ retries (relayURL w) (probeRequest modelName) k
              ++ [EvPost (relayURL w) (probeRequest modelName)]), true.
    split; [split|split].
    + rewrite T. unfold setStatus, relayURL. step. tidy. reflexivity.
    + rewrite G, !replay_app, replay_retries. reflexivity.
    + apply probe_passed. lia.
    + split; [reflexivity | intros _; exact R].
  - exists ([EvStatus "testing_generation"]
              ++ retries (relayURL w) (probeRequest modelName) (100 - 1)
              ++ [EvPost (relayURL w) (probeRequest modelName); EvStatus (failureTag f)]),
           false.
    split; [split|split].
    + rewrite T. unfold setStatus, relayURL. step. tidy. reflexivity.
    + rewrite G, !replay_app, replay_retries. reflexivity.
    + apply probe_gave_up; [lia | apply failureTag_listed].
    + rewrite R. split; discriminate.
Qed.

Lemma announcing_raw (attempt : nat) (w : World) :
  effect w (exec (announcing attempt) w) (rawAnnounce attempt).
Proof.
  unfold announcing, rawAnnounce. destruct (1 <? attempt)%nat.
  - split; [|reflexivity]. unfold setStatus, sleep. step. tidy. reflexivity.
  - apply effect_here.
Qed.

(** The retry loop follows [RawRounds]. *)
Lemma readyAttempts_raw (E : Env) (attempts : list nat) :
  forall w,
    exists d,
      effect w (exec (readyAttempts E attempts) w) d
      /\ RawRounds (ollamaURL (globals w)) attempts d.
Proof.
  induction attempts as [|attempt rest IH]; intro w.
  - exists [EvStatus "failed"]. split; [split; reflexivity | constructor].
  - unfold exec. rewrite readyAttempts_turn. cbv zeta.
    assert (HA := announcing_raw attempt w).
    set (w1 := exec (announcing attempt) w) in *.
    assert (U1 := effect_url _ _ _ HA).
    destruct (getAvailableModel_outcome E w1) as (tag & HF & [(m & R & ->) | (e & R & Hin)]);
      rewrite R; apply fetched_effect in HF; unfold tagsURL in HF; rewrite U1 in HF;
      assert (U2 := effect_url _ _ _ HF); rewrite U1 in U2.
    + set (w2 := exec (getAvailableModel E) w1) in *.
      assert (HM : effect w2 (exec (setModel m) w2) [EvModel m]) by (split; reflexivity).
      set (w3 := exec (setModel m) w2) in *.
      assert (U3 : relayURL w3 = (ollamaURL (globals w) ++ "/api/generate")%string).
      { unfold relayURL. rewrite (effect_url _ _ _ HM), U2. reflexivity. }
      generalize (testModelGeneration_probeRun E m w3).
      destruct (testModelGeneration E m w3) as [probe w4]. cbn [fst snd].
      intros (p & ok & HP & Hrun & Hok). rewrite U3 in Hrun.
      assert (U4 : ollamaURL (globals w4) = ollamaURL (globals w)).
      { rewrite (effect_url _ _ _ HP), (effect_url _ _ _ HM). exact U2. }
      destruct probe as [e|].
      * assert (ok = false) as ->.
        { destruct ok; [|reflexivity]. destruct Hok as [_ H]. discriminate (H eq_refl). }
        destruct (IH w4) as (dR & HR & Hrounds). rewrite U4 in Hrounds.
        exists (rawAnnounce attempt
                  ++ ([EvStatus "checking_models";
                       EvGet (ollamaURL (globals w) ++ "/api/tags")%string;
                       EvStatus "model_found"; EvModel m] ++ p ++ [])
                  ++ dR).
        split.
        -- rewrite app_nil_r, <- !app_assoc.
           refine (effect_then _ _ _ _ _ HA _).
           change ([EvStatus "checking_models";
                    EvGet (ollamaURL (globals w) ++ "/api/tags")%string;
                    EvStatus "model_found"; EvModel m] ++ p ++ dR)
             with ([EvStatus "checking_models";
                    EvGet (ollamaURL (globals w) ++ "/api/tags")%string;
                    EvStatus "model_found"] ++ [EvModel m] ++ p ++ dR).
           refine (effect_then _ _ _ _ _ HF _). refine (effect_then _ _ _ _ _ HM _).
           exact (effect_then _ _ _ _ _ HP HR).
        -- apply raw_again; [|exact Hrounds].
           apply (raw_probed _ m p false Hrun).
      * assert (ok = true) as -> by (apply Hok; reflexivity).
        exists (rawAnnounce attempt
                  ++ ([EvStatus "checking_models";
                       EvGet (ollamaURL (globals w) ++ "/api/tags")%string;
                       EvStatus "model_found"; EvModel m]
                        ++ p ++ [EvStatus "ready"; EvReady])).
        split.
        -- refine (effect_then _ _ _ _ _ HA _).
           change ([EvStatus "checking_models";
                    EvGet (ollamaURL (globals w) ++ "/api/tags")%string;
                    EvStatus "model_found"; EvModel m] ++ p ++ [EvStatus "ready"; EvReady])
             with ([EvStatus "checking_models";
                    EvGet (ollamaURL (globals w) ++ "/api/tags")%string;
                    EvStatus "model_found"] ++ [EvModel m] ++ p
                     ++ [EvStatus "ready"; EvReady]).
           refine (effect_then _ _ _ _ _ HF _). refine (effect_then _ _ _ _ _ HM _).
           refine (effect_then _ _ _ _ _ HP _).
           split; [|reflexivity]. unfold setStatus, storeReady. step. tidy. reflexivity.
        -- apply raw_ready. apply (raw_probed _ m p true Hrun).
    + destruct (IH (exec (getAvailableModel E) w1)) as (dR & HR & Hrounds).
      rewrite U2 in Hrounds.
      exists (rawAnnounce attempt
                ++ [EvStatus "checking_models";
                    EvGet (ollamaURL (globals w) ++ "/api/tags")%string; EvStatus tag]
                ++ dR).
      split.
      * refine (effect_then _ _ _ _ _ HA _). exact (effect_then _ _ _ _ _ HF HR).
      * apply raw_again; [|exact Hrounds]. apply raw_no_model, Hin.
Qed.

(** [checkModelReady] follows [RawRun]. *)
Lemma checkModelReadyN_raw (E : Env) (N : nat) (w : World) :
  exists d,
    effect w (exec (checkModelReadyN E N) w) d
    /\ RawRun (ollamaURL (globals w)) N (ollamaEnabled (globals w)) d.
Proof.
  unfold checkModelReadyN, exec. unfold bind at 1, load at 1.
  destruct (ollamaEnabled (globals w)); cbn [negb].
  - unfold bind.
    destruct (readyAttempts_raw E (seq 1 N) (exec (setStatus "starting") w))
      as (d & Heff & Hrounds).
    exists ([EvStatus "starting"] ++ d). split.
    + refine (effect_then _ _ _ _ _ _ Heff). split; reflexivity.
    + apply raw_enabled, Hrounds.
  - exists [EvStatus "disabled"; EvNeverReady]. split; [|constructor].
    split; [|reflexivity]. unfold setStatus, storeNeverReady. step. tidy. reflexivity.
Qed.

Lemma checkModelReady_raw_from_start (E : Env) (url : string) (enabled : bool) :
  let w := exec (checkModelReady E) (initialWorld url enabled) in
  RawRun url 100 enabled (trace w)
  /\ globals w = replay (trace w) (globals (initialWorld url enabled)).
Proof.
  cbv zeta. unfold checkModelReady.
  destruct (checkModelReadyN_raw E 100 (initialWorld url enabled)) as (d & [T G] & Hrun).
  generalize dependent (exec (checkModelReadyN E 100) (initialWorld url enabled)).
  intros w T G.
  change (trace (initialWorld url enabled) ++ d) with d in T. rewrite T.
  split; [exact Hrun | exact G].
Qed.

(** *** How much the state machine can do *)

(** The seconds a trace sleeps in total. *)
Definition slept (tr : list Event) : nat := list_sum (sleeps tr).

(** A trace that touches neither a connection nor the chat history. *)
Definition offstage (tr : list Event) : Prop := sinkWrites tr = [] /\ saves tr = [].

Lemma slept_app (a b : list Event) : slept (a ++ b) = slept a + slept b.
Proof. unfold slept. rewrite sleeps_app. apply list_sum_app. Qed.

Lemma offstage_app (a b : list Event) : offstage a -> offstage b -> offstage (a ++ b).
Proof.
  intros [A1 A2] [B1 B2]. split.
  - rewrite sinkWrites_app, A1, B1. reflexivity.
  - rewrite saves_app, A2, B2. reflexivity.
Qed.

Lemma retries_footprint (url : string) (req : OllamaRequest) (n : nat) :
  gets (retries url req n) = []
  /\ length (posts (retries url req n)) = n
  /\ slept (retries url req n) = 2 * n
  /\ offstage (retries url req n).
Proof.
  induction n as [|n (HG & HP & HS & HW)]; [repeat split|].
  change (retries url req (S n)) with ([EvPost url req; EvSleep 2] ++ retries url req n).
  rewrite gets_app, posts_app, slept_app, length_app, HG, HP, HS.
  repeat split; [simpl; lia | apply offstage_app; [split; reflexivity | exact HW] ..].
Qed.

Lemma probeRun_footprint (url m : string) (N : nat) (p : list Event) (ok : bool) :
  ProbeRun url m N p ok ->
  gets p = [] /\ length (posts p) <= N /\ slept p <= 2 * (N - 1) /\ offstage p.
Proof.
  intros [k Hk | tag HN Hin].
  - destruct (retries_footprint url (probeRequest m) k) as (HG & HP & HS & HW).
    rewrite !gets_app, !posts_app, !slept_app, !length_app, HG, HP, HS.
    unfold slept. cbn [gets posts sleeps list_sum fold_right length].
    split; [reflexivity|]. split; [lia|]. split; [lia|].
    apply offstage_app; [split; reflexivity|].
    apply offstage_app; [exact HW | split; reflexivity].
  - destruct (retries_footprint url (probeRequest m) (N - 1)) as (HG & HP & HS & HW).
    rewrite !gets_app, !posts_app, !slept_app, !length_app, HG, HP, HS.
    unfold slept. cbn [gets posts sleeps list_sum fold_right length].
    split; [reflexivity|]. split; [lia|]. split; [lia|].
    apply offstage_app; [split; reflexivity|].
    apply offstage_app; [exact HW | split; reflexivity].
Qed.

Lemma rawAnnounce_footprint (attempt : nat) :
  gets (rawAnnounce attempt) = [] /\ posts (rawAnnounce attempt) = []
  /\ slept (rawAnnounce attempt) = (if (1 <? attempt)%nat then 10 else 0)
  /\ offstage (rawAnnounce attempt).
Proof.
  unfold rawAnnounce, offstage. destruct (1 <? attempt)%nat; repeat split.
Qed.

Lemma rawCycle_footprint (base : string) (c : list Event) (ok : bool) :
  RawCycle base c ok ->
  gets c = [(base ++ "/api/tags")%string]
  /\ length (posts c) <= 100 /\ slept c <= 198 /\ offstage c.
Proof.
  intros [tag Hin | m p ok' Hp].
  - repeat split; [simpl; lia | unfold slept; simpl; lia].
  - destruct (probeRun_footprint _ _ _ _ _ Hp) as (HG & HP & HS & HW).
    rewrite !gets_app, !posts_app, !slept_app, !length_app, HG.
    assert (Hhead : slept [EvStatus "checking_models";
                           EvGet (base ++ "/api/tags")%string;
                           EvStatus "model_found"; EvModel m] = 0) by reflexivity.
    assert (Htail : slept (if ok' then [EvStatus "ready"; EvReady] else []) = 0)
      by (destruct ok'; reflexivity).
    rewrite Hhead, Htail.
    split; [destruct ok'; reflexivity|].
    split; [destruct ok'; simpl; lia|].
    split; [lia|].
    apply offstage_app; [split; reflexivity|].
    apply offstage_app; [exact HW | destruct ok'; split; reflexivity].
Qed.

(** The number of attempts of a list that come with a retry delay. *)
Definition delayed (attempts : list nat) : nat :=
  length (filter (fun attempt => (1 <? attempt)%nat) attempts).

Lemma rawRounds_footprint (base : string) (attempts : list nat) (tr : list Event) :
  RawRounds base attempts tr ->
  Forall (eq (base ++ "/api/tags")%string) (gets tr)
  /\ length (gets tr) <= length attempts
  /\ length (posts tr) <= 100 * length attempts
  /\ slept tr <= 10 * delayed attempts + 198 * length attempts
  /\ offstage tr.
Proof.
  induction 1 as [| attempt rest c tr Hc _ (HF & HG & HP & HS & HW) | attempt rest c Hc].
  - repeat split; [constructor | simpl; lia | simpl; lia | unfold slept; simpl; lia].
  - destruct (rawAnnounce_footprint attempt) as (AG & AP & AS & AW).
    destruct (rawCycle_footprint _ _ _ Hc) as (CG & CP & CS & CW).
    rewrite !gets_app, !posts_app, !slept_app, !length_app, AG, AP, AS, CG.
    unfold delayed in *. cbn [filter length app].
    split; [constructor; [reflexivity | exact HF]|].
    split; [lia|]. split; [lia|]. split.
    + destruct (1 <? attempt)%nat; cbn [length]; lia.
    + apply offstage_app; [exact AW|]. apply offstage_app; [exact CW | exact HW].
  - destruct (rawAnnounce_footprint attempt) as (AG & AP & AS & AW).
    destruct (rawCycle_footprint _ _ _ Hc) as (CG & CP & CS & CW).
    rewrite !gets_app, !posts_app, !slept_app, !length_app, AG, AP, AS, CG.
    unfold delayed in *. cbn [filter length app].
    split; [constructor; [reflexivity | constructor]|].
    split; [lia|]. split; [lia|]. split.
    + destruct (1 <? attempt)%nat; cbn [length]; lia.
    + apply offstage_app; [exact AW | exact CW].
Qed.

(** X3.  [checkModelReady] gives up after a bounded amount of work: it makes
    at most 100 listing calls, all to OLLAMA_URL/api/tags, at most 100 * 100
    generation calls, and sleeps at most 99 * 10 + 100 * (99 * 2) = 20790
    seconds in total (99 retry delays of 10 seconds and, per cycle, 99 probe
    delays of 2 seconds). *)
Theorem readiness_work_is_bounded :
  forall (E : Env) (url : string) (enabled : bool),
    let tr := trace (exec (checkModelReady E) (initialWorld url enabled)) in
    Forall (eq (url ++ "/api/tags")%string) (gets tr)
    /\ length (gets tr) <= 100
    /\ length (posts tr) <= 100 * 100
    /\ slept tr <= 99 * 10 + 100 * (99 * 2).
Proof.
  intros E url enabled.
  destruct (checkModelReady_raw_from_start E url enabled) as [Hrun _].
  cbv zeta in *.
  generalize dependent (trace (exec (checkModelReady E) (initialWorld url enabled))).
  intros tr Hrun.
  assert (Hgen : forall N, RawRun url N enabled tr ->
            Forall (eq (url ++ "/api/tags")%string) (gets tr)
            /\ length (gets tr) <= N
            /\ length (posts tr) <= 100 * N
            /\ slept tr <= 10 * delayed (seq 1 N) + 198 * N).
  { intros N [| tr' Hrounds].
    { split; [constructor|]. unfold slept. simpl. lia. }
    destruct (rawRounds_footprint _ _ _ Hrounds) as (HF & HG & HP & HS & _).
    rewrite length_seq in *. repeat split; assumption. }
  destruct (Hgen 100 Hrun) as (HF & HG & HP & HS).
  change (delayed (seq 1 100)) with 99 in HS.
  split; [exact HF|]. split; [exact HG|]. split; lia.
Qed.

(** *** What the state machine's calls look like *)

Definition requestEqb (a b : OllamaRequest) : bool :=
  String.eqb (Model a) (Model b) && String.eqb (Prompt a) (Prompt b)
  && Bool.eqb (Stream a) (Stream b).

(** Every generation call of the trace goes to [url] and is the probe request
    for the model name assigned last before it; [current] is the name
    assigned last before the trace, if any. *)
Fixpoint probesFollow (url : string) (current : option string) (tr : list Event) : bool :=
  match tr with
  | [] => true
  | EvModel m :: rest => probesFollow url (Some m) rest
  | EvPost u req :: rest =>
      match current with
      | Some m => String.eqb u url && requestEqb req (probeRequest m)
      | None => false
      end && probesFollow url current rest
  | _ :: rest => probesFollow url current rest
  end.

Lemma probesFollow_retries (url m : string) (k : nat) (rest : list Event) :
  probesFollow url (Some m) (retries url (probeRequest m) k ++ rest) =
    probesFollow url (Some m) rest.
Proof.
  induction k as [|k IH]; [reflexivity|].
  cbn [retries app probesFollow]. rewrite IH. unfold requestEqb.
  rewrite !String.eqb_refl. reflexivity.
Qed.

Lemma probesFollow_probeRun (url m : string) (N : nat) (p : list Event) (ok : bool)
    (rest : list Event) :
  ProbeRun url m N p ok ->
  probesFollow url (Some m) (p ++ rest) = probesFollow url (Some m) rest.
Proof.
  intros [k Hk | tag HN Hin]; rewrite <- !app_assoc; cbn [app probesFollow];
    rewrite probesFollow_retries; cbn [app probesFollow]; unfold requestEqb;
    rewrite !String.eqb_refl; reflexivity.
Qed.

Lemma probesFollow_rawAnnounce (url : string) (c : option string) (attempt : nat)
    (rest : list Event) :
  probesFollow url c (rawAnnounce attempt ++ rest) = probesFollow url c rest.
Proof. unfold rawAnnounce. destruct (1 <? attempt)%nat; reflexivity. Qed.

Lemma rawRounds_probesFollow (base : string) (attempts : list nat) (tr : list Event) :
  RawRounds base attempts tr ->
  forall c, probesFollow (base ++ "/api/generate")%string c tr = true.
Proof.
  induction 1 as [| attempt rest c tr Hc _ IH | attempt rest c Hc]; intro cur.
  - reflexivity.
  - rewrite probesFollow_rawAnnounce.
    inversion Hc as [tag Hin | m p ok Hp]; subst.
    + cbn [app probesFollow]. apply IH.
    + rewrite <- !app_assoc. cbn [app probesFollow].
      rewrite (probesFollow_probeRun _ _ _ _ _ _ Hp). apply IH.
  - rewrite probesFollow_rawAnnounce.
    inversion Hc as [| m p ok Hp]; subst.
    cbn [app probesFollow].
    rewrite (probesFollow_probeRun _ _ _ _ _ _ Hp). reflexivity.
Qed.

(** X4.  [checkModelReady] never writes to a client connection and never
    inserts into the chat history, and every generation call it makes goes
    to OLLAMA_URL/api/generate with streaming off, the prompt Hi and the
    model name that was assigned to [ollamaModel] last before the call. *)
Theorem readiness_probes_the_model_it_found :
  forall (E : Env) (url : string) (enabled : bool),
    let tr := trace (exec (checkModelReady E) (initialWorld url enabled)) in
    sinkWrites tr = [] /\ saves tr = []
    /\ probesFollow (url ++ "/api/generate")%string None tr = true.
Proof.
  intros E url enabled.
  destruct (checkModelReady_raw_from_start E url enabled) as [Hrun _].
  cbv zeta in *.
  generalize dependent (trace (exec (checkModelReady E) (initialWorld url enabled))).
  intros tr Hrun.
  assert (Hgen : forall N, RawRun url N enabled tr ->
            sinkWrites tr = [] /\ saves tr = []
            /\ probesFollow (url ++ "/api/generate")%string None tr = true).
  { intros N [| tr' Hrounds]; [repeat split|].
    destruct (rawRounds_footprint _ _ _ Hrounds) as (_ & _ & _ & _ & W1 & W2).
    cbn [sinkWrites saves probesFollow]. split; [exact W1|]. split; [exact W2|].
    apply (rawRounds_probesFollow _ _ _ Hrounds). }
  exact (Hgen 100 Hrun).
Qed.

(** *** The flags at every point of the run *)

(** What a reader of the flags and the status can rely on. *)
Definition consistent (g : Globals) : Prop :=
  (modelReady g = true -> modelStatus g = "ready")
  /\ (modelNeverReady g = true -> modelStatus g = "disabled" /\ modelReady g = false).

(** [P] holds before the trace and after each of its events. *)
Fixpoint throughout (P : Globals -> Prop) (tr : list Event) (g : Globals) : Prop :=
  P g /\ match tr with
         | [] => True
         | e :: rest => throughout P rest (apply g e)
         end.

Lemma throughout_firstn (P : Globals -> Prop) (tr : list Event) :
  forall g n, throughout P tr g -> P (replay (firstn n tr) g).
Proof.
  induction tr as [|e tr IH]; intros g n [H0 H].
  - destruct n; exact H0.
  - destruct n as [|n]; [exact H0|]. exact (IH (apply g e) n H).
Qed.

Lemma throughout_app (P : Globals -> Prop) (a b : list Event) :
  forall g, throughout P a g -> throughout P b (replay a g) -> throughout P (a ++ b) g.
Proof.
  induction a as [|e a IH]; intros g Ha Hb.
  - exact Hb.
  - destruct Ha as [H0 Ha]. split; [exact H0|]. exact (IH (apply g e) Ha Hb).
Qed.

Definition idle (g : Globals) : Prop :=
  modelReady g = false /\ modelNeverReady g = false.

Definition setsFlag (e : Event) : bool :=
  match e with
  | EvReady | EvNeverReady => true
  | _ => false
  end.

Definition flagless (tr : list Event) : bool := forallb (fun e => negb (setsFlag e)) tr.

Lemma idle_consistent (g : Globals) : idle g -> consistent g.
Proof. intros [R N]. split; intro H; congruence. Qed.

Lemma flagless_idle (tr : list Event) :
  forall g, flagless tr = true -> idle g ->
            throughout consistent tr g /\ idle (replay tr g).
Proof.
  induction tr as [|e tr IH]; intros g Hf Hi.
  - split; [split; [apply idle_consistent, Hi | exact I] | exact Hi].
  - unfold flagless in Hf. cbn [forallb] in Hf. apply andb_prop in Hf as [He Hf].
    assert (Hi' : idle (apply g e)) by (destruct e; try discriminate He; exact Hi).
    destruct (IH (apply g e) Hf Hi') as [T I']. split; [|exact I'].
    split; [apply idle_consistent, Hi | exact T].
Qed.

Lemma flagless_app (a b : list Event) : flagless (a ++ b) = flagless a && flagless b.
Proof. apply forallb_app. Qed.

Lemma flagless_retries (url : string) (req : OllamaRequest) (k : nat) :
  flagless (retries url req k) = true.
Proof. induction k as [|k IH]; [reflexivity | exact IH]. Qed.

Lemma flagless_probeRun (url m : string) (N : nat) (p : list Event) (ok : bool) :
  ProbeRun url m N p ok -> flagless p = true.
Proof.
  intros [k Hk | tag HN Hin]; rewrite !flagless_app, flagless_retries; reflexivity.
Qed.

Lemma flagless_rawAnnounce (attempt : nat) : flagless (rawAnnounce attempt) = true.
Proof. unfold rawAnnounce. destruct (1 <? attempt)%nat; reflexivity. Qed.

Lemma rawCycle_consistent (base : string) (c : list Event) (ok : bool) :
  RawCycle base c ok ->
  forall g, idle g ->
            throughout consistent c g /\ (ok = false -> idle (replay c g)).
Proof.
  intros [tag Hin | m p ok' Hp] g Hi.
  - destruct (flagless_idle [EvStatus "checking_models";
                             EvGet (base ++ "/api/tags")%string; EvStatus tag]
                            g eq_refl Hi) as [T I'].
    split; [exact T | intros _; exact I'].
  - assert (Hf : flagless ([EvStatus "checking_models"; EvGet (base ++ "/api/tags")%string;
                            EvStatus "model_found"; EvModel m] ++ p) = true).
    { rewrite flagless_app, (flagless_probeRun _ _ _ _ _ Hp). reflexivity. }
    destruct (flagless_idle _ g Hf Hi) as [T I'].
    rewrite app_assoc. destruct ok'.
    + split; [|discriminate]. apply throughout_app; [exact T|].
      revert I'. generalize (replay ([EvStatus "checking_models";
                                      EvGet (base ++ "/api/tags")%string;
                                      EvStatus "model_found"; EvModel m] ++ p) g).
      intros g1 [R N]. unfold consistent. cbn [throughout apply].
      cbn [withStatus withReady modelReady modelStatus modelNeverReady].
      repeat split; intros; congruence.
    + rewrite app_nil_r. split; [exact T | intros _; exact I'].
Qed.

Lemma rawRounds_consistent (base : string) (attempts : list nat) (tr : list Event) :
  RawRounds base attempts tr ->
  forall g, idle g -> throughout consistent tr g.
Proof.
  induction 1 as [| attempt rest c tr Hc _ IH | attempt rest c Hc]; intros g Hi.
  - destruct (flagless_idle [EvStatus "failed"] g eq_refl Hi) as [T _]. exact T.
  - destruct (flagless_idle _ g (flagless_rawAnnounce attempt) Hi) as [TA IA].
    destruct (rawCycle_consistent _ _ _ Hc _ IA) as [TC IC].
    apply throughout_app; [exact TA|]. apply throughout_app; [exact TC|].
    apply IH. rewrite <- replay_app. rewrite replay_app. exact (IC eq_refl).
  - destruct (flagless_idle _ g (flagless_rawAnnounce attempt) Hi) as [TA IA].
    destruct (rawCycle_consistent _ _ _ Hc _ IA) as [TC _].
    apply throughout_app; [exact TA | exact TC].
Qed.

(** X5.  At every point of the run of [checkModelReady], that is after any
    number of its steps, the flags agree with the status: [modelReady] is
    true only when the status is ready, and [modelNeverReady] is true only
    when the status is disabled and [modelReady] is false.  A poll of the
    status endpoint can therefore never see ready = true with another
    status. *)
Theorem flags_agree_with_status_throughout :
  forall (E : Env) (url : string) (enabled : bool) (n : nat),
    let tr := trace (exec (checkModelReady E) (initialWorld url enabled)) in
    consistent (replay (firstn n tr) (globals (initialWorld url enabled))).
Proof.
  intros E url enabled n.
  destruct (checkModelReady_raw_from_start E url enabled) as [Hrun _].
  cbv zeta in *.
  generalize dependent (trace (exec (checkModelReady E) (initialWorld url enabled))).
  intros tr Hrun. apply throughout_firstn.
  assert (Hi : idle (globals (initialWorld url enabled))) by (split; reflexivity).
  revert Hi. generalize (globals (initialWorld url enabled)). intros g Hi.
  assert (Hgen : forall N, RawRun url N enabled tr -> throughout consistent tr g).
  { intros N [| tr' Hrounds].
    - destruct Hi as [R N']. unfold consistent. cbn [throughout apply].
      cbn [withStatus withNeverReady modelReady modelStatus modelNeverReady].
      repeat split; intros; congruence.
    - split; [apply idle_consistent, Hi|].
      apply (rawRounds_consistent _ _ _ Hrounds). exact Hi. }
  exact (Hgen 100 Hrun).
Qed.

(** *** The cycle that succeeds *)

Lemma getAvailableModel_found (E : Env) (w : World) (body : string)
    (first : OllamaModel) (others : list OllamaModel) :
  tagsReply E (tagsCalls (meter w)) = HttpOk 200 body ->
  unmarshalModels E body = Some {| Models := first :: others |} ->
  fst (getAvailableModel E w) = inl (Name first)
  /\ fetched E w (exec (getAvailableModel E) w) "model_found".
Proof.
  intros Hr Hbody. run_fetch. rewrite Hr. cbn. rewrite Hbody. cbn.
  repeat split. tidy. reflexivity.
Qed.

Lemma readied (w : World) :
  trace (exec (setStatus "ready" ;; storeReady) w) = trace w ++ [EvStatus "ready"; EvReady]
  /\ globals (exec (setStatus "ready" ;; storeReady) w) =
       withReady (withStatus "ready" (globals w)).
Proof.
  unfold setStatus, storeReady. step. split; [tidy|]; reflexivity.
Qed.

Lemma announcing_first (w : World) : exec (announcing 1) w = w.
Proof. reflexivity. Qed.

Lemma testModelGeneration_passes (E : Env) (modelName : string) (w : World) (k : nat) :
  k < 100 ->
  (forall i, i < k ->
     probeFailure E (generateReply E (generateCalls (meter w) + i)) <> None) ->
  probeFailure E (generateReply E (generateCalls (meter w) + k)) = None ->
  fst (testModelGeneration E modelName w) = None
  /\ trace (snd (testModelGeneration E modelName w)) =
       trace w ++ [EvStatus "testing_generation"]
               ++ retries (relayURL w) (probeRequest modelName) k
               ++ [EvPost (relayURL w) (probeRequest modelName)]
  /\ globals (snd (testModelGeneration E modelName w)) =
       withStatus "testing_generation" (globals w).
Proof. exact (testModelGenerationN_passes E 100 modelName w k). Qed.

(** The first turn of the readiness loop when discovery finds a model and
    its probe passes at attempt number [k + 1]. *)
Lemma readyAttempts_first_cycle (E : Env) (rest : list nat) (w : World)
    (body : string) (first : OllamaModel) (others : list OllamaModel) (k : nat) :
  tagsReply E (tagsCalls (meter w)) = HttpOk 200 body ->
  unmarshalModels E body = Some {| Models := first :: others |} ->
  k < 100 ->
  (forall i, i < k ->
     probeFailure E (generateReply E (generateCalls (meter w) + i)) <> None) ->
  probeFailure E (generateReply E (generateCalls (meter w) + k)) = None ->
  trace (exec (readyAttempts E (1 :: rest)) w) =
    trace w ++ [EvStatus "checking_models"; EvGet (tagsURL w);
                EvStatus "model_found"; EvModel (Name first);
                EvStatus "testing_generation"]
            ++ retries (relayURL w) (probeRequest (Name first)) k
            ++ [EvPost (relayURL w) (probeRequest (Name first));
                EvStatus "ready"; EvReady]
  /\ globals (exec (readyAttempts E (1 :: rest)) w) =
       withReady (withStatus "ready" (withModel (Name first) (globals w))).
Proof.
  intros Hr Hbody Hk Hfail Hok.
  unfold exec. rewrite readyAttempts_turn. cbv zeta.
  rewrite announcing_first.
  destruct (getAvailableModel_found E w body first others Hr Hbody) as [R (T & G & M)].
  rewrite R. clear R.
  generalize dependent (exec (getAvailableModel E) w). intros w2 T G M.
  remember (exec (setModel (Name first)) w2) as w3 eqn:Hw3.
  assert (T3 : trace w3 = trace w ++ [EvStatus "checking_models"; EvGet (tagsURL w);
                                      EvStatus "model_found"; EvModel (Name first)]).
  { rewrite Hw3. unfold setModel. step. rewrite T. tidy. reflexivity. }
  assert (G3 : globals w3 = withModel (Name first) (withStatus "model_found" (globals w))).
  { rewrite Hw3. unfold setModel. step. rewrite G. reflexivity. }
  assert (C3 : generateCalls (meter w3) = generateCalls (meter w)).
  { rewrite Hw3. unfold setModel. step. rewrite M. reflexivity. }
  assert (U3 : relayURL w3 = relayURL w).
  { unfold relayURL. rewrite G3. reflexivity. }
  clear Hw3.
  destruct (testModelGeneration_passes E (Name first) w3 k Hk) as (RP & TP & GP).
  { intros i Hi. rewrite C3. apply Hfail, Hi. }
  { rewrite C3. exact Hok. }
  generalize dependent (testModelGeneration E (Name first) w3).
  intros [probe w4] RP TP GP. cbn [fst snd] in *. rewrite RP. cbn [snd].
  destruct (readied w4) as [TR GR]. rewrite TR, GR, TP, GP, T3, G3, U3.
  split; [tidy; reflexivity | reflexivity].
Qed.

(** X6.  When the first listing call returns a non-empty list and the probe
    of its first model passes at attempt number [k + 1] (the [k] attempts
    before it failing), [checkModelReady] settles at once: one listing call,
    [k + 1] generation calls for that model with [k] delays between them, no
    retry cycle, and it ends with status ready, [modelReady] set,
    [modelNeverReady] clear and [ollamaModel] holding the first model's
    name. *)
Theorem readiness_settles_on_first_good_cycle :
  forall (E : Env) (url body : string) (first : OllamaModel)
         (others : list OllamaModel) (k : nat),
    tagsReply E 0 = HttpOk 200 body ->
    unmarshalModels E body = Some {| Models := first :: others |} ->
    k < 100 ->
    (forall i, i < k -> probeFailure E (generateReply E i) <> None) ->
    probeFailure E (generateReply E k) = None ->
    let w := exec (checkModelReady E) (initialWorld url true) in
    trace w =
      [EvStatus "starting"; EvStatus "checking_models";
       EvGet (url ++ "/api/tags")%string; EvStatus "model_found";
       EvModel (Name first); EvStatus "testing_generation"]
        ++ retries (url ++ "/api/generate")%string (probeRequest (Name first)) k
        ++ [EvPost (url ++ "/api/generate")%string (probeRequest (Name first));
            EvStatus "ready"; EvReady]
    /\ globals w =
         {| ollamaURL := url; ollamaEnabled := true; ollamaModel := Name first;
            modelReady := true; modelStatus := "ready"; modelNeverReady := false |}.
Proof.
  intros E url body first others k Hr Hbody Hk Hfail Hok. cbv zeta.
  assert (Hrun : exec (checkModelReady E) (initialWorld url true) =
                 exec (readyAttempts E (1 :: seq 2 99))
                      (exec (setStatus "starting") (initialWorld url true))).
  { unfold checkModelReady, checkModelReadyN, exec, bind, load. reflexivity. }
  rewrite Hrun.
  destruct (readyAttempts_first_cycle E (seq 2 99)
              (exec (setStatus "starting") (initialWorld url true))
              body first others k Hr Hbody Hk Hfail Hok) as [T G].
  rewrite T, G. split; reflexivity.
Qed.

Lemma readiness_settles_on_first_good_cycle_witness :
  globals (exec (checkModelReady warmingEnv) (start true)) =
    {| ollamaURL := "http://ollama:11434"; ollamaEnabled := true; ollamaModel := "m1";
       modelReady := true; modelStatus := "ready"; modelNeverReady := false |}.
Proof.
  refine (proj2 (readiness_settles_on_first_good_cycle warmingEnv "http://ollama:11434"
                   (tagsBody "m1")
                   {| Name := "m1"; ModifiedAt := EmptyString; Size := 1;
                      Digest := EmptyString |}
                   [] 2 eq_refl eq_refl _ _ eq_refl)).
  - lia.
  - intros i Hi. destruct i as [|[|i]]; [discriminate | discriminate | lia].
Defined.

(** *** The permanent flag at every point of the run *)

Definition raisesNeverReady (e : Event) : bool :=
  match e with
  | EvNeverReady => true
  | _ => false
  end.

(** A trace without an assignment to [modelNeverReady]. *)
Definition neverless (tr : list Event) : bool :=
  forallb (fun e => negb (raisesNeverReady e)) tr.

Lemma neverless_app (a b : list Event) : neverless (a ++ b) = neverless a && neverless b.
Proof. apply forallb_app. Qed.

Lemma neverless_firstn (tr : list Event) :
  forall n, neverless tr = true -> neverless (firstn n tr) = true.
Proof.
  induction tr as [|e tr IH]; intros n H; [destruct n; reflexivity|].
  destruct n as [|n]; [reflexivity|].
  unfold neverless in *. cbn [firstn forallb] in *.
  apply andb_prop in H as [He H]. rewrite He. exact (IH n H).
Qed.

Lemma neverless_replay (tr : list Event) :
  forall g, neverless tr = true -> modelNeverReady (replay tr g) = modelNeverReady g.
Proof.
  induction tr as [|e tr IH]; intros g H; [reflexivity|].
  unfold neverless in H. cbn [forallb] in H. apply andb_prop in H as [He H].
  change (replay (e :: tr) g) with (replay tr (apply g e)). rewrite (IH _ H).
  destruct e; try reflexivity. discriminate He.
Qed.

Lemma neverless_retries (url : string) (req : OllamaRequest) (k : nat) :
  neverless (retries url req k) = true.
Proof. induction k as [|k IH]; [reflexivity | exact IH]. Qed.

Lemma neverless_probeRun (url m : string) (N : nat) (p : list Event) (ok : bool) :
  ProbeRun url m N p ok -> neverless p = true.
Proof.
  intros [k Hk | tag HN Hin]; rewrite !neverless_app, neverless_retries; reflexivity.
Qed.

Lemma neverless_rawAnnounce (attempt : nat) : neverless (rawAnnounce attempt) = true.
Proof. unfold rawAnnounce. destruct (1 <? attempt)%nat; reflexivity. Qed.

Lemma neverless_rawCycle (base : string) (c : list Event) (ok : bool) :
  RawCycle base c ok -> neverless c = true.
Proof.
  intros [tag Hin | m p ok' Hp]; [reflexivity|].
  rewrite !neverless_app, (neverless_probeRun _ _ _ _ _ Hp). destruct ok'; reflexivity.
Qed.

Lemma neverless_rawRounds (base : string) (attempts : list nat) (tr : list Event) :
  RawRounds base attempts tr -> neverless tr = true.
Proof.
  induction 1 as [| attempt rest c tr Hc _ IH | attempt rest c Hc].
  - reflexivity.
  - rewrite !neverless_app, neverless_rawAnnounce, (neverless_rawCycle _ _ _ Hc), IH.
    reflexivity.
  - rewrite neverless_app, neverless_rawAnnounce, (neverless_rawCycle _ _ _ Hc).
    reflexivity.
Qed.

(** When [modelNeverReady] is set during a run: only with Ollama disabled,
    and from the second assignment of the run on. *)
Lemma rawRun_never_ready (base : string) (N : nat) (enabled : bool) (tr : list Event)
    (g : Globals) :
  RawRun base N enabled tr ->
  modelReady g = false -> modelNeverReady g = false ->
  forall n,
    (modelNeverReady (replay (firstn n tr) g) = true <-> enabled = false /\ 2 <= n)
    /\ (modelNeverReady (replay (firstn n tr) g) = true ->
        modelStatus (replay (firstn n tr) g) = "disabled"
        /\ modelReady (replay (firstn n tr) g) = false).
Proof.
  intros [| tr' Hrounds] Hr Hn n.
  - destruct n as [|[|n]].
    + cbn. rewrite Hn. split; [split; [discriminate | intros [_ H]; lia] | discriminate].
    + cbn. rewrite Hn. split; [split; [discriminate | intros [_ H]; lia] | discriminate].
    + replace (firstn (S (S n)) [EvStatus "disabled"; EvNeverReady])
        with [EvStatus "disabled"; EvNeverReady] by (destruct n; reflexivity).
      cbn. split; [split; [intros _; split; [reflexivity | lia] | reflexivity]|].
      intros _. split; [reflexivity | exact Hr].
  - assert (H : neverless (EvStatus "starting" :: tr') = true)
      by exact (neverless_rawRounds _ _ _ Hrounds).
    rewrite (neverless_replay _ g (neverless_firstn _ n H)), Hn.
    split; [split; [discriminate | intros [F _]; discriminate F] | discriminate].
Qed.

(** C2 (amended).  Once [checkModelReady] has returned, [modelNeverReady] is
    true if and only if the status is disabled, which is the case exactly
    when Ollama was disabled at start; from then on every inbound message is
    answered with one entry of [noAIMessages].  When the retry ceiling is
    exhausted the status is failed, both flags are false, and every inbound
    message is answered with one entry of [waitingMessages].  While
    [checkModelReady] is still running only one direction holds: at every
    point of the run [modelNeverReady] is true only when the status is
    disabled and [modelReady] is false, and it is true exactly from the
    second assignment of a disabled run on.  The status is stored before the
    flag, so a message handled between the two stores sees the status
    disabled with the flag still false and is answered from
    [waitingMessages]. *)
Theorem never_ready_iff_disabled :
  forall (E : Env) (url : string) (enabled : bool),
    let w := exec (checkModelReady E) (initialWorld url enabled) in
    (modelNeverReady (globals w) = true <-> modelStatus (globals w) = "disabled")
    /\ (modelStatus (globals w) = "disabled" <-> enabled = false)
    /\ (modelStatus (globals w) = "disabled" ->
        modelReady (globals w) = false
        /\ forall inbound, exists d,
             trace (exec (serve E inbound) w) = trace w ++ d
             /\ CannedTurns noAIMessages inbound d)
    /\ (modelStatus (globals w) = "failed" ->
        modelNeverReady (globals w) = false /\ modelReady (globals w) = false
        /\ forall inbound, exists d,
             trace (exec (serve E inbound) w) = trace w ++ d
             /\ CannedTurns waitingMessages inbound d)
    /\ (forall n,
          let g := replay (firstn n (trace w)) (globals (initialWorld url enabled)) in
          (modelNeverReady g = true <-> enabled = false /\ 2 <= n)
          /\ (modelNeverReady g = true ->
              modelStatus g = "disabled" /\ modelReady g = false))
    /\ (enabled = false ->
        trace w = [EvStatus "disabled"; EvNeverReady]
        /\ forall w1,
             globals w1 = replay [EvStatus "disabled"] (globals (initialWorld url enabled)) ->
             modelStatus (globals w1) = "disabled"
             /\ modelNeverReady (globals w1) = false
             /\ forall inbound, exists d,
                  trace (exec (serve E inbound) w1) = trace w1 ++ d
                  /\ CannedTurns waitingMessages inbound d).
Proof.
  intros E url enabled.
  destruct (checkModelReady_from_start E url enabled) as [Hrun G].
  destruct (checkModelReady_raw_from_start E url enabled) as [Hraw _].
  cbv zeta in *.
  generalize dependent (exec (checkModelReady E) (initialWorld url enabled)).
  intros w Hrun G Hraw.
  assert (Hoff : enabled = false -> trace w = [EvStatus "disabled"; EvNeverReady]).
  { intro He. rewrite He in Hraw. inversion Hraw. reflexivity. }
  assert (Hcanned : forall w', modelReady (globals w') = false ->
            forall inbound, exists d,
              trace (exec (serve E inbound) w') = trace w' ++ d
              /\ CannedTurns (cannedTable w') inbound d).
  { intros w' Hr inbound. apply serve_canned, Hr. }
  unfold cannedTable in Hcanned.
  assert (Hwindow : enabled = false ->
            trace w = [EvStatus "disabled"; EvNeverReady]
            /\ forall w1,
                 globals w1 = replay [EvStatus "disabled"]
                                (globals (initialWorld url enabled)) ->
                 modelStatus (globals w1) = "disabled"
                 /\ modelNeverReady (globals w1) = false
                 /\ forall inbound, exists d,
                      trace (exec (serve E inbound) w1) = trace w1 ++ d
                      /\ CannedTurns waitingMessages inbound d).
  { intro He. split; [exact (Hoff He)|]. intros w1 G1.
    split; [rewrite G1; reflexivity|]. split; [rewrite G1; reflexivity|].
    assert (H1 := Hcanned w1). rewrite G1 in H1. exact (H1 eq_refl). }
  assert (Hprefix := rawRun_never_ready url 100 enabled (trace w)
                       (globals (initialWorld url enabled)) Hraw eq_refl eq_refl).
  assert (Hnow := Hcanned w).
  destruct (run_flags 100 enabled _ (globals (initialWorld url enabled)) Hrun eq_refl eq_refl)
    as [(He & S & N & R) | [(He & S & N & R & _) | (He & S & N & R)]];
    rewrite <- G in S, N, R; rewrite S, N, R in *.
  - split; [split; reflexivity|]. split; [split; [intros _; exact He | reflexivity]|].
    split; [intros _; split; [reflexivity | exact (Hnow eq_refl)]|].
    split; [discriminate|]. split; [exact Hprefix | exact Hwindow].
  - split; [split; discriminate|].
    split; [split; [discriminate | intro H; rewrite H in He; discriminate He]|].
    split; [discriminate|]. split; [discriminate|].
    split; [exact Hprefix | exact Hwindow].
  - split; [split; discriminate|].
    split; [split; [discriminate | intro H; rewrite H in He; discriminate He]|].
    split; [discriminate|].
    split; [intros _; split; [reflexivity|]; split; [reflexivity | exact (Hnow eq_refl)]|].
    split; [exact Hprefix | exact Hwindow].
Qed.

Lemma never_ready_iff_disabled_witness :
  modelNeverReady (globals (exec (checkModelReady downEnv) (start true))) = false
  /\ modelReady (globals (exec (checkModelReady downEnv) (start true))) = false
  /\ forall inbound, exists d,
       trace (exec (serve downEnv inbound) (exec (checkModelReady downEnv) (start true))) =
         trace (exec (checkModelReady downEnv) (start true)) ++ d
       /\ CannedTurns waitingMessages inbound d.
Proof.
  apply (proj1 (proj2 (proj2 (proj2
           (never_ready_iff_disabled downEnv "http://ollama:11434" true))))).
  vm_compute. reflexivity.
Defined.

(** *** The name assigned is the name discovered *)

(** The name the listing call number [k] yields: the name of the first model
    in the decoded body of a reply with status 200. *)
Definition nameListed (E : Env) (k : nat) : option string :=
  match tagsReply E k with
  | HttpErr _ => None
  | HttpOk code body =>
      if (code =? 200)%Z then
        match unmarshalModels E body with
        | Some modelsResp =>
            match Models modelsResp with
            | first :: _ => Some (Name first)
            | [] => None
            end
        | None => None
        end
      else None
  end.

(** The names the listing calls number [from] to [from + count - 1] yield. *)
Definition namesListed (E : Env) (from count : nat) : list string :=
  flat_map (fun k => match nameListed E k with
                     | Some name => [name]
                     | None => []
                     end) (seq from count).

(** [getAvailableModel] returns a name exactly when its listing call yields
    one, and then that name. *)
Lemma getAvailableModel_named (E : Env) (w : World) :
  exists tag,
    fetched E w (exec (getAvailableModel E) w) tag
    /\ match nameListed E (tagsCalls (meter w)) with
       | Some name => fst (getAvailableModel E w) = inl name
       | None => exists e, fst (getAvailableModel E w) = inr e
       end.
Proof.
  unfold nameListed.
  destruct (tagsReply E (tagsCalls (meter w))) as [e | code body] eqn:Hr.
  - exists "error_connecting". run_fetch. rewrite Hr. cbn.
    split; [repeat split; tidy; reflexivity|]. eexists. reflexivity.
  - destruct (code =? 200)%Z eqn:Hcode.
    + destruct (unmarshalModels E body) as [[[|first others]]|] eqn:Hbody.
      * exists "no_models". run_fetch. rewrite Hr, Hcode. cbn. rewrite Hbody. cbn.
        split; [repeat split; tidy; reflexivity|]. eexists. reflexivity.
      * exists "model_found". run_fetch. rewrite Hr, Hcode. cbn. rewrite Hbody. cbn.
        split; [repeat split; tidy; reflexivity|]. reflexivity.
      * exists "error_parsing". run_fetch. rewrite Hr, Hcode. cbn. rewrite Hbody. cbn.
        split; [repeat split; tidy; reflexivity|]. eexists. reflexivity.
    + exists "error_api". run_fetch. rewrite Hr, Hcode. cbn.
      split; [repeat split; tidy; reflexivity|]. eexists. reflexivity.
Qed.

Lemma getAvailableModel_returns (E : Env) (w : World) (name : string) :
  fst (getAvailableModel E w) = inl name <->
  nameListed E (tagsCalls (meter w)) = Some name.
Proof.
  destruct (getAvailableModel_named E w) as (tag & _ & H).
  destruct (nameListed E (tagsCalls (meter w))) as [m|].
  - rewrite H. split; intro H1; injection H1 as ->; reflexivity.
  - destruct H as [e H]. rewrite H. split; discriminate.
Qed.

(** The probe makes no listing call. *)
Lemma testAttempts_tagsCalls (E : Env) (N : nat) (modelName : string)
    (attempts : list nat) :
  forall w,
    tagsCalls (meter (snd (testAttempts E N modelName attempts w))) = tagsCalls (meter w).
Proof.
  induction attempts as [|t rest IH]; intro w; [reflexivity|].
  rewrite testAttempts_turn.
  destruct (probeFailure E (generateReply E (generateCalls (meter w)))) as [f|];
    [|reflexivity].
  destruct (t <? N)%nat; [|reflexivity].
  rewrite IH. reflexivity.
Qed.

Lemma testModelGeneration_tagsCalls (E : Env) (modelName : string) (w : World) :
  tagsCalls (meter (snd (testModelGeneration E modelName w))) = tagsCalls (meter w).
Proof.
  unfold testModelGeneration. rewrite testModelGenerationN_body.
  rewrite testAttempts_tagsCalls. reflexivity.
Qed.

Lemma announcing_tagsCalls (attempt : nat) (w : World) :
  tagsCalls (meter (exec (announcing attempt) w)) = tagsCalls (meter w).
Proof. unfold announcing. destruct (1 <? attempt)%nat; reflexivity. Qed.

Lemma modelWrites_retries (url : string) (req : OllamaRequest) (k : nat) :
  modelWrites (retries url req k) = [].
Proof. induction k as [|k IH]; [reflexivity | exact IH]. Qed.

Lemma modelWrites_probeRun (url m : string) (N : nat) (p : list Event) (ok : bool) :
  ProbeRun url m N p ok -> modelWrites p = [].
Proof.
  intros [k Hk | tag HN Hin]; rewrite !modelWrites_app, modelWrites_retries; reflexivity.
Qed.

Lemma rawAnnounce_silent (attempt : nat) :
  gets (rawAnnounce attempt) = [] /\ modelWrites (rawAnnounce attempt) = [].
Proof. unfold rawAnnounce. destruct (1 <? attempt)%nat; split; reflexivity. Qed.

Lemma namesListed_next (E : Env) (from count : nat) :
  namesListed E from (S count) =
    match nameListed E from with
    | Some name => [name]
    | None => []
    end ++ namesListed E (S from) count.
Proof. reflexivity. Qed.

(** The retry loop assigns, in order, exactly the names its listing calls
    yield, and when it ends on ready [ollamaModel] is the name the last of
    these calls yielded. *)
Lemma readyAttempts_names (E : Env) (attempts : list nat) :
  forall w,
    exists d,
      effect w (exec (readyAttempts E attempts) w) d
      /\ modelWrites d = namesListed E (tagsCalls (meter w)) (length (gets d))
      /\ (modelStatus (globals (exec (readyAttempts E attempts) w)) = "ready" ->
          exists k,
            length (gets d) = S k
            /\ nameListed E (tagsCalls (meter w) + k) =
                 Some (ollamaModel (globals (exec (readyAttempts E attempts) w)))).
Proof.
  induction attempts as [|attempt rest IH]; intro w.
  - exists [EvStatus "failed"]. split; [split; reflexivity|].
    split; [reflexivity | discriminate].
  - unfold exec. rewrite readyAttempts_turn. cbv zeta.
    assert (HA := announcing_raw attempt w).
    assert (CA := announcing_tagsCalls attempt w).
    destruct (rawAnnounce_silent attempt) as [GA MA].
    set (w1 := exec (announcing attempt) w) in *.
    destruct (getAvailableModel_named E w1) as (tag & HF & Hname).
    assert (CF : tagsCalls (meter (exec (getAvailableModel E) w1)) = S (tagsCalls (meter w)))
      by (destruct HF as (_ & _ & ->); cbn [tagsCalls]; rewrite CA; reflexivity).
    apply fetched_effect in HF. rewrite CA in Hname.
    destruct (nameListed E (tagsCalls (meter w))) as [m|] eqn:HN.
    + rewrite Hname.
      set (w2 := exec (getAvailableModel E) w1) in *.
      assert (HM : effect w2 (exec (setModel m) w2) [EvModel m]) by (split; reflexivity).
      assert (CM : tagsCalls (meter (exec (setModel m) w2)) = S (tagsCalls (meter w)))
        by exact CF.
      assert (OM : ollamaModel (globals (exec (setModel m) w2)) = m) by reflexivity.
      set (w3 := exec (setModel m) w2) in *.
      assert (CP := testModelGeneration_tagsCalls E m w3). rewrite CM in CP.
      revert CP. generalize (testModelGeneration_probeRun E m w3).
      destruct (testModelGeneration E m w3) as [probe w4]. cbn [fst snd].
      intros (p & ok & HP & Hrun & _) CP.
      destruct (probeRun_footprint _ _ _ _ _ Hrun) as (GP & _).
      assert (MP := modelWrites_probeRun _ _ _ _ _ Hrun).
      destruct probe as [e|].
      * destruct (IH w4) as (dR & HR & WR & RR). rewrite CP in WR, RR.
        exists (rawAnnounce attempt
                  ++ [EvStatus "checking_models"; EvGet (tagsURL w1); EvStatus tag]
                  ++ [EvModel m] ++ p ++ dR).
        split; [|split].
        -- refine (effect_then _ _ _ _ _ HA _). refine (effect_then _ _ _ _ _ HF _).
           refine (effect_then _ _ _ _ _ HM _). exact (effect_then _ _ _ _ _ HP HR).
        -- rewrite !modelWrites_app, !gets_app, MA, GA, MP, GP, WR.
           cbn [gets modelWrites app length]. rewrite namesListed_next, HN. reflexivity.
        -- intro Hready. destruct (RR Hready) as (k & Hk & Hl).
           exists (S k). split.
           ++ rewrite !gets_app, GA, GP. cbn [gets app length]. rewrite Hk. reflexivity.
           ++ rewrite Nat.add_succ_r. exact Hl.
      * exists (rawAnnounce attempt
                  ++ [EvStatus "checking_models"; EvGet (tagsURL w1); EvStatus tag]
                  ++ [EvModel m] ++ p ++ [EvStatus "ready"; EvReady]).
        split; [|split].
        -- refine (effect_then _ _ _ _ _ HA _). refine (effect_then _ _ _ _ _ HF _).
           refine (effect_then _ _ _ _ _ HM _). refine (effect_then _ _ _ _ _ HP _).
           split; [|reflexivity]. unfold setStatus, storeReady. step. tidy. reflexivity.
        -- rewrite !modelWrites_app, !gets_app, MA, GA, MP, GP.
           cbn [gets modelWrites app length]. rewrite namesListed_next, HN. reflexivity.
        -- intros _. exists 0. split.
           ++ rewrite !gets_app, GA, GP. reflexivity.
           ++ rewrite Nat.add_0_r, HN. f_equal.
              transitivity (ollamaModel (globals w4)); [|reflexivity].
              destruct HP as [_ ->]. rewrite ollamaModel_replay, MP. symmetry. exact OM.
    + destruct Hname as [e Hname]. rewrite Hname.
      destruct (IH (exec (getAvailableModel E) w1)) as (dR & HR & WR & RR).
      rewrite CF in WR, RR.
      exists (rawAnnounce attempt
                ++ [EvStatus "checking_models"; EvGet (tagsURL w1); EvStatus tag] ++ dR).
      split; [|split].
      * refine (effect_then _ _ _ _ _ HA _). exact (effect_then _ _ _ _ _ HF HR).
      * rewrite !modelWrites_app, !gets_app, MA, GA, WR.
        cbn [gets modelWrites app length]. rewrite namesListed_next, HN. reflexivity.
      * intro Hready. destruct (RR Hready) as (k & Hk & Hl).
        exists (S k). split.
        -- rewrite !gets_app, GA. cbn [gets app length]. rewrite Hk. reflexivity.
        -- rewrite Nat.add_succ_r. exact Hl.
Qed.

Lemma checkModelReadyN_names (E : Env) (N : nat) (w : World) :
  exists d,
    effect w (exec (checkModelReadyN E N) w) d
    /\ modelWrites d = namesListed E (tagsCalls (meter w)) (length (gets d))
    /\ (modelStatus (globals (exec (checkModelReadyN E N) w)) = "ready" ->
        exists k,
          length (gets d) = S k
          /\ nameListed E (tagsCalls (meter w) + k) =
               Some (ollamaModel (globals (exec (checkModelReadyN E N) w)))).
Proof.
  unfold checkModelReadyN, exec, bind, load. cbn [fst snd].
  destruct (ollamaEnabled (globals w)); cbn [negb].
  - destruct (readyAttempts_names E (seq 1 N) (exec (setStatus "starting") w))
      as (d & Heff & HW & HR).
    change (tagsCalls (meter (exec (setStatus "starting") w))) with (tagsCalls (meter w))
      in HW, HR.
    exists ([EvStatus "starting"] ++ d). split; [|split].
    + refine (effect_then _ _ _ _ _ _ Heff). split; reflexivity.
    + exact HW.
    + exact HR.
  - exists [EvStatus "disabled"; EvNeverReady]. split; [|split].
    + split; [|reflexivity]. unfold setStatus, storeNeverReady. step. tidy. reflexivity.
    + reflexivity.
    + unfold setStatus, storeNeverReady. step. discriminate.
Qed.

Lemma checkModelReady_names_from_start (E : Env) (url : string) (enabled : bool) :
  let w := exec (checkModelReady E) (initialWorld url enabled) in
  modelWrites (trace w) = namesListed E 0 (length (gets (trace w)))
  /\ (modelStatus (globals w) = "ready" ->
      exists k,
        length (gets (trace w)) = S k
        /\ nameListed E k = Some (ollamaModel (globals w))).
Proof.
  cbv zeta. unfold checkModelReady.
  destruct (checkModelReadyN_names E 100 (initialWorld url enabled))
    as (d & [T _] & HW & HR).
  generalize dependent (exec (checkModelReadyN E 100) (initialWorld url enabled)).
  intros w T HR.
  change (trace (initialWorld url enabled) ++ d) with d in T. rewrite T.
  split; [exact HW | exact HR].
Qed.

(** C9 (amended).  [ollamaModel] is assigned once per successful discovery,
    while the status is model_found and before the generation probe, never
    at ready: every assignment in the run is made at status model_found,
    there are as many assignments as visits to model_found, and the final
    value is the last name assigned, or the initial empty name when no
    discovery succeeded.  The names assigned are, in order, exactly the names
    the listing calls of the run yield, each the name [getAvailableModel]
    returned for that call, which is the first model of the call's reply.  A
    run that ends on ready has assigned it, and at ready it holds the name
    found by the last listing call of the run, the one of the cycle that
    succeeded. *)
Theorem model_name_set_at_model_found :
  forall (E : Env) (url : string) (enabled : bool),
    let w := exec (checkModelReady E) (initialWorld url enabled) in
    forallb atModelFound (writesAt "initializing" (trace w)) = true
    /\ length (modelWrites (trace w)) = length (filter isModelFound (statuses (trace w)))
    /\ ollamaModel (globals w) = last (modelWrites (trace w)) EmptyString
    /\ (modelStatus (globals w) = "ready" -> modelWrites (trace w) <> [])
    /\ (forall (w0 : World) (name : string),
          fst (getAvailableModel E w0) = inl name <->
          nameListed E (tagsCalls (meter w0)) = Some name)
    /\ modelWrites (trace w) = namesListed E 0 (length (gets (trace w)))
    /\ (modelStatus (globals w) = "ready" ->
        exists k,
          length (gets (trace w)) = S k
          /\ nameListed E k = Some (ollamaModel (globals w))).
Proof.
  intros E url enabled.
  destruct (checkModelReady_from_start E url enabled) as [Hrun G].
  destruct (checkModelReady_names_from_start E url enabled) as [HW HR].
  cbv zeta in *.
  generalize dependent (exec (checkModelReady E) (initialWorld url enabled)).
  intros w Hrun G HW HR.
  destruct (run_writes _ _ _ Hrun) as [Hat Hcount].
  rewrite writesAt_assignments in Hat.
  rewrite modelWrites_assignments, statuses_assignments in Hcount.
  split; [exact Hat|]. split; [exact Hcount|]. split; [|split].
  - rewrite G, ollamaModel_replay, modelWrites_assignments. reflexivity.
  - intro Hready.
    destruct (run_flags 100 enabled _ (globals (initialWorld url enabled)) Hrun eq_refl eq_refl)
      as [(_ & S & _) | [(_ & _ & _ & _ & W) | (_ & S & _)]].
    + rewrite <- G, Hready in S. discriminate S.
    + rewrite modelWrites_assignments in W. exact W.
    + rewrite <- G, Hready in S. discriminate S.
  - split; [intros w0 name; apply getAvailableModel_returns|].
    split; [exact HW | exact HR].
Qed.

Lemma model_name_set_at_model_found_witness :
  modelWrites (trace (exec (checkModelReady (helloEnv 0)) (start true))) <> [].
Proof.
  apply (proj1 (proj2 (proj2 (proj2 (model_name_set_at_model_found
                                       (helloEnv 0) "http://ollama:11434" true))))).
  vm_compute. reflexivity.
Defined.

(** ** Connections, whatever the peer and the service do *)

Definition isWrite (e : Event) : bool :=
  match e with EvWrite _ _ => true | _ => false end.

(** The loop of the relay appends only writes to the trace, and the text it
    returns is the text it started with followed by what the peer accepted. *)
Lemma relayLines_account (E : Env) (lines : list string) :
  forall acc w,
    exists ws,
      trace (snd (relayLines E lines acc w)) = trace w ++ ws
      /\ forallb isWrite ws = true
      /\ fst (relayLines E lines acc w) = (acc ++ joined (accepted ws))%string.
Proof.
  induction lines as [|l lines IH]; intros acc w.
  - exists []. cbn. rewrite app_nil_r, append_empty. repeat split.
  - destruct (unmarshalStream E l) as [c|] eqn:Hl.
    + rewrite (relayLines_chunk E _ _ _ _ _ Hl).
      destruct (writeOK E (writeCalls (meter w))) eqn:Hw.
      * destruct (Done c).
        -- exists [EvWrite (Response c) true]. cbn. rewrite Hw, append_empty.
           repeat split.
        -- destruct (IH (acc ++ Response c)%string (exec (WriteMessage E (Response c)) w))
             as (ws & T & W & F).
           exists (EvWrite (Response c) true :: ws). rewrite T, F. cbn.
           rewrite Hw, W, append_assoc. tidy. repeat split.
      * exists [EvWrite (Response c) false]. cbn. rewrite Hw, append_empty.
        repeat split.
    + rewrite (relayLines_noise E _ _ _ _ Hl). apply IH.
Qed.

Lemma accepted_delivered (msgs : list string) : accepted (delivered msgs) = msgs.
Proof.
  unfold delivered. induction msgs as [|m msgs IH]; [reflexivity|].
  cbn [map accepted]. rewrite IH. reflexivity.
Qed.

Lemma isWrite_delivered (msgs : list string) : forallb isWrite (delivered msgs) = true.
Proof. induction msgs as [|m msgs IH]; [reflexivity | exact IH]. Qed.

(** The loop of the relay stops at the first write the peer refuses: what it
    adds to the trace are accepted writes followed by at most one refused
    write, together the first texts of the chunks up to the first done one,
    and all of them unless a write was refused. *)
Lemma relayLines_break (E : Env) (lines : list string) :
  forall acc w,
    exists ms refused rest,
      trace (snd (relayLines E lines acc w)) = trace w ++ delivered ms ++ refused
      /\ fst (relayLines E lines acc w) = (acc ++ joined ms)%string
      /\ texts (untilDone (decoded E lines)) = ms ++ sinkWrites refused ++ rest
      /\ ((refused = [] /\ rest = []) \/ exists m, refused = [EvWrite m false]).
Proof.
  induction lines as [|l lines IH]; intros acc w.
  - exists [], [], []. cbn. rewrite app_nil_r, append_empty. repeat split. left. split; reflexivity.
  - destruct (unmarshalStream E l) as [c|] eqn:Hl.
    + rewrite (relayLines_chunk E _ _ _ _ _ Hl). cbn [decoded]. rewrite Hl.
      destruct (writeOK E (writeCalls (meter w))) eqn:Hw.
      * destruct (Done c) eqn:Hd.
        -- exists [Response c], [], []. cbn. rewrite Hw, Hd, append_empty.
           repeat split. left. split; reflexivity.
        -- destruct (IH (acc ++ Response c)%string (exec (WriteMessage E (Response c)) w))
             as (ms & refused & rest & T & F & X & R).
           exists (Response c :: ms), refused, rest. rewrite T, F. cbn.
           rewrite Hw, Hd, append_assoc. tidy. cbn [texts map] in *.
           unfold texts in X. rewrite X. repeat split. exact R.
      * exists [], [EvWrite (Response c) false],
               (texts (if Done c then [] else untilDone (decoded E lines))).
        cbn. rewrite Hw, append_empty. repeat split.
        -- destruct (Done c); reflexivity.
        -- right. exists (Response c). reflexivity.
    + rewrite (relayLines_noise E _ _ _ _ Hl). cbn [decoded]. rewrite Hl. apply IH.
Qed.

(** X7.  Whatever the body and whatever the peer does, a relay whose
    upstream call returned makes that one call, then only writes to the peer,
    and finally saves exactly one AI message: the concatenation of the
    messages the peer accepted.  The writes are accepted ones followed by at
    most one refused write, after which nothing more is written; they carry,
    in order, the first texts of the chunks up to the first done one, and all
    of them when no write was refused.  What is stored in the chat history is
    therefore what the client received, a refused write included in
    neither. *)
Theorem relay_saves_what_the_peer_accepted :
  forall (E : Env) (prompt : string) (w : World) (lines : list string)
         (err : option string),
    streamReply E (streamCalls (meter w)) = StreamOk lines err ->
    exists ws,
      trace (exec (streamOllamaResponse E prompt) w) =
        trace w ++ [EvPost (relayURL w) (relayRequest prompt w)]
                ++ ws ++ [EvSave "AI" (joined (accepted ws))]
      /\ forallb isWrite ws = true
      /\ exists ms refused rest,
           ws = delivered ms ++ refused
           /\ accepted ws = ms
           /\ texts (untilDone (decoded E lines)) = ms ++ sinkWrites refused ++ rest
           /\ ((refused = [] /\ rest = []) \/ exists m, refused = [EvWrite m false]).
Proof.
  intros E prompt w lines err Hr. unfold exec.
  rewrite (streamOllamaResponse_body E prompt w lines err Hr). cbv zeta.
  destruct (relayLines_break E lines EmptyString
              (exec (httpPostStream E (relayURL w) (relayRequest prompt w)) w))
    as (ms & refused & rest & T & F & X & R).
  destruct (relayLines E lines EmptyString _) as [full w2]. cbn [fst snd] in *.
  assert (A : accepted (delivered ms ++ refused) = ms).
  { rewrite accepted_app, accepted_delivered.
    destruct R as [[-> _] | [m ->]]; apply app_nil_r. }
  exists (delivered ms ++ refused). split; [|split].
  - unfold saveMessage. step. rewrite T, F, A.
    unfold httpPostStream. step. tidy. reflexivity.
  - rewrite forallb_app, isWrite_delivered.
    destruct R as [[-> _] | [m ->]]; reflexivity.
  - exists ms, refused, rest. repeat split; assumption.
Qed.

Lemma relay_saves_what_the_peer_accepted_witness :
  exists ws,
    trace (exec (streamOllamaResponse (helloEnv 1) "Hi") readyWorld) =
      trace readyWorld ++ [EvPost (relayURL readyWorld) (relayRequest "Hi" readyWorld)]
                       ++ ws ++ [EvSave "AI" (joined (accepted ws))]
    /\ forallb isWrite ws = true
    /\ exists ms refused rest,
         ws = delivered ms ++ refused
         /\ accepted ws = ms
         /\ texts (untilDone (decoded (helloEnv 1) helloLines)) =
              ms ++ sinkWrites refused ++ rest
         /\ ((refused = [] /\ rest = []) \/ exists m, refused = [EvWrite m false]).
Proof.
  exact (relay_saves_what_the_peer_accepted (helloEnv 1) "Hi" readyWorld
           helloLines None eq_refl).
Defined.

Lemma decoded_noise (E : Env) (lines : list string) :
  (forall l, In l lines -> unmarshalStream E l = None) -> decoded E lines = [].
Proof.
  induction lines as [|l lines IH]; intro H; [reflexivity|].
  simpl. rewrite (H l (or_introl eq_refl)). apply IH.
  intros l' Hl'. apply H. right. exact Hl'.
Qed.

(** X8.  A body in which no line decodes, the empty body included, makes
    the relay write nothing to the peer and save an empty AI message. *)
Theorem relay_of_undecodable_body_saves_empty_message :
  forall (E : Env) (prompt : string) (w : World) (lines : list string)
         (err : option string),
    streamReply E (streamCalls (meter w)) = StreamOk lines err ->
    (forall l, In l lines -> unmarshalStream E l = None) ->
    trace (exec (streamOllamaResponse E prompt) w) =
      trace w ++ [EvPost (relayURL w) (relayRequest prompt w);
                  EvSave "AI" EmptyString].
Proof.
  intros E prompt w lines err Hr Hnone.
  rewrite (relay_trace_accepted E prompt w lines err Hr);
    rewrite (decoded_noise E lines Hnone); [reflexivity|].
  intros i Hi. simpl in Hi. lia.
Qed.

(** A service whose stream carries no JSON at all. *)
Definition garbledEnv : Env :=
  steady (HttpOk 200 (tagsBody "m1")) (HttpOk 200 (chunkLine "Hi!" true))
         (StreamOk ["<html>"; EmptyString; "502 Bad Gateway"] (Some "unexpected EOF")) 3.

Lemma relay_of_undecodable_body_saves_empty_message_witness :
  trace (exec (streamOllamaResponse garbledEnv "Hi") readyWorld) =
    trace readyWorld ++ [EvPost (relayURL readyWorld) (relayRequest "Hi" readyWorld);
                         EvSave "AI" EmptyString].
Proof.
  apply (relay_of_undecodable_body_saves_empty_message garbledEnv "Hi" readyWorld
           ["<html>"; EmptyString; "502 Bad Gateway"] (Some "unexpected EOF") eq_refl).
  intros l [<- | [<- | [<- | []]]]; reflexivity.
Defined.

(** A handler relays when the model is ready and AI is not switched off. *)
Definition relaying (w : World) : bool :=
  negb (modelNeverReady (globals w)) && modelReady (globals w).

Lemma writes_only (ws : list Event) :
  forallb isWrite ws = true ->
  gets ws = [] /\ posts ws = [] /\ sleeps ws = [] /\ saves ws = [].
Proof.
  induction ws as [|e ws IH]; [repeat split|].
  cbn [forallb]. intro H. apply andb_prop in H as [He H].
  destruct e; try discriminate He. exact (IH H).
Qed.

(** What one call of the relay adds to the trace, in every case. *)
Lemma streamOllamaResponse_footprint (E : Env) (prompt : string) (w : World) :
  exists d,
    trace (exec (streamOllamaResponse E prompt) w) = trace w ++ d
    /\ posts d = [relayRequest prompt w]
    /\ gets d = [] /\ sleeps d = []
    /\ savedBy "User" d = [] /\ length (savedBy "AI" d) <= 1.
Proof.
  unfold exec.
  destruct (streamReply E (streamCalls (meter w))) as [e | lines err] eqn:Hr.
  - rewrite (streamOllamaResponse_failed E prompt w e Hr).
    exists [EvPost (relayURL w) (relayRequest prompt w);
            EvWrite "Error processing request" (writeOK E (writeCalls (meter w)))].
    split; [unfold WriteMessage, httpPostStream; step; tidy; reflexivity|].
    repeat split; cbn; lia.
  - rewrite (streamOllamaResponse_body E prompt w lines err Hr). cbv zeta.
    destruct (relayLines_account E lines EmptyString
                (exec (httpPostStream E (relayURL w) (relayRequest prompt w)) w))
      as (ws & T & W & _).
    destruct (relayLines E lines EmptyString _) as [full w2]. cbn [fst snd] in *.
    destruct (writes_only ws W) as (G & P & S & V).
    exists ([EvPost (relayURL w) (relayRequest prompt w)] ++ ws ++ [EvSave "AI" full]).
    split; [unfold saveMessage; step; rewrite T; unfold httpPostStream; step; tidy;
            reflexivity|].
    unfold savedBy.
    rewrite !posts_app, !gets_app, !sleeps_app, !saves_app, G, P, S, V.
    repeat split; cbn; lia.
Qed.

(** What one turn of the handler's loop adds to the trace, in every case. *)
Lemma handleMessage_footprint (E : Env) (msg : string) (w : World) :
  exists d,
    trace (exec (handleMessage E msg) w) = trace w ++ d
    /\ posts d = (if relaying w then [relayRequest msg w] else [])
    /\ gets d = [] /\ sleeps d = []
    /\ savedBy "User" d = [msg] /\ length (savedBy "AI" d) <= 1.
Proof.
  unfold relaying.
  destruct (modelNeverReady (globals w)) eqn:Hn; [|destruct (modelReady (globals w)) eqn:Hr].
  - exists [EvSave "User" msg;
            EvWrite (cannedReply E w) (writeOK E (writeCalls (meter w)));
            EvSave "AI" (cannedReply E w)].
    split; [|repeat split; cbn; lia].
    unfold handleMessage, cannedReply, cannedTable, saveMessage, Intn, WriteMessage.
    unfold exec, bind, ret, load, count, emit.
    change (length noAIMessages) with 10.
    cbn [fst snd globals meter trace randCalls writeCalls]. rewrite Hn.
    cbn [fst snd globals meter trace randCalls writeCalls].
    repeat rewrite <- app_assoc. reflexivity.
  - destruct (streamOllamaResponse_footprint E msg (exec (saveMessage "User" msg) w))
      as (d & T & P & G & S & U & A).
    exists (EvSave "User" msg :: d).
    assert (Hrun : exec (handleMessage E msg) w =
                   exec (streamOllamaResponse E msg) (exec (saveMessage "User" msg) w)).
    { unfold handleMessage, saveMessage. unfold exec, bind, load, emit.
      cbn [fst snd globals meter trace]. rewrite Hn.
      cbn [fst snd globals meter trace]. rewrite Hr. reflexivity. }
    rewrite Hrun, T. split; [unfold saveMessage; step; tidy; reflexivity|].
    unfold savedBy in *. cbn [posts gets sleeps saves filter map fst snd negb andb].
    change (String.eqb "User" "User") with true.
    change (String.eqb "User" "AI") with false.
    cbn [map snd]. rewrite P, G, S, U. repeat split. exact A.
  - destruct (handleMessage_not_ready E msg w Hr) as (_ & _ & T).
    exists [EvSave "User" msg;
            EvWrite (cannedReply E w) (writeOK E (writeCalls (meter w)));
            EvSave "AI" (cannedReply E w)].
    split; [exact T | repeat split; cbn; lia].
Qed.

(** What a connection adds to the trace, in every case. *)
Lemma serve_footprint (E : Env) (inbound : list string) :
  forall w,
    exists d,
      trace (exec (serve E inbound) w) = trace w ++ d
      /\ posts d = (if relaying w then map (fun msg => relayRequest msg w) inbound else [])
      /\ gets d = [] /\ sleeps d = []
      /\ savedBy "User" d = inbound /\ length (savedBy "AI" d) <= length inbound.
Proof.
  induction inbound as [|msg rest IH]; intro w.
  - exists []. split; [symmetry; apply app_nil_r|]. destruct (relaying w); repeat split; apply Nat.le_refl.
  - destruct (handleMessage_footprint E msg w) as (d1 & T1 & P1 & G1 & S1 & U1 & A1).
    destruct (IH (exec (handleMessage E msg) w)) as (d2 & T2 & P2 & G2 & S2 & U2 & A2).
    assert (Hg := handleMessage_globals E msg w).
    unfold relaying, relayRequest in *. rewrite Hg in P2.
    exists (d1 ++ d2). rewrite serve_turn, T2, T1, app_assoc.
    rewrite posts_app, gets_app, sleeps_app, !savedBy_app, length_app,
            P1, P2, G1, G2, S1, S2, U1, U2.
    split; [reflexivity|]. split; [|repeat split; cbn [length]; lia].
    destruct (negb (modelNeverReady (globals w)) && modelReady (globals w)); reflexivity.
Qed.

(** X9.  On a connection every inbound message is inserted into the chat
    history as a User row, exactly once and in arrival order, whatever the
    readiness flags are and whatever fails; the handler adds at most one AI
    row per inbound message. *)
Theorem every_inbound_message_is_saved_once :
  forall (E : Env) (inbound : list string) (w : World),
    exists d,
      trace (exec (serve E inbound) w) = trace w ++ d
      /\ savedBy "User" d = inbound
      /\ length (savedBy "AI" d) <= length inbound.
Proof.
  intros E inbound w.
  destruct (serve_footprint E inbound w) as (d & T & _ & _ & _ & U & A).
  exists d. repeat split; assumption.
Qed.

(** X10.  A connection calls the service exactly once per inbound message
    while [modelReady] is set and [modelNeverReady] is not, each call a
    streaming request whose prompt is the message and whose model is
    [ollamaModel]; in every other state it makes no call at all.  It never
    lists models and never sleeps. *)
Theorem connection_calls_upstream_once_per_message :
  forall (E : Env) (inbound : list string) (w : World),
    exists d,
      trace (exec (serve E inbound) w) = trace w ++ d
      /\ posts d =
           (if negb (modelNeverReady (globals w)) && modelReady (globals w)
            then map (fun msg => {| Model := ollamaModel (globals w);
                                    Prompt := msg; Stream := true |}) inbound
            else [])
      /\ gets d = [] /\ sleeps d = [].
Proof.
  intros E inbound w.
  destruct (serve_footprint E inbound w) as (d & T & P & G & S & _).
  exists d. repeat split; assumption.
Qed.

(** ** Non-AI mode *)

Lemma exec_then {A B} (a : M A) (b : M B) (w : World) :
  exec (a ;; b) w = exec b (exec a w).
Proof. unfold exec, bind. destruct (a w) as [x w']. reflexivity. Qed.

Lemma checkModelReadyN_disabled (E : Env) (N : nat) (w : World) :
  ollamaEnabled (globals w) = false ->
  trace (exec (checkModelReadyN E N) w) = trace w ++ [EvStatus "disabled"; EvNeverReady]
  /\ globals (exec (checkModelReadyN E N) w) =
       withNeverReady (withStatus "disabled" (globals w)).
Proof.
  intro H. unfold checkModelReadyN, exec, bind, load. cbn [fst snd]. rewrite H.
  unfold setStatus, storeNeverReady. step. split; [tidy|]; reflexivity.
Qed.

Lemma canned_footprint (table inbound : list string) (d : list Event) :
  CannedTurns table inbound d -> gets d = [] /\ posts d = [] /\ sleeps d = [].
Proof. induction 1 as [| msg reply ok rest tr _ _ IH]; [repeat split | exact IH]. Qed.

(** X11.  With Ollama disabled the backend never contacts the service and
    never sleeps.  [checkModelReady] only sets the status to disabled and
    raises [modelNeverReady]; a connection served before that answers every
    message from [waitingMessages], a connection served after it answers
    every message from [noAIMessages]. *)
Theorem disabled_backend_never_contacts_ollama :
  forall (E : Env) (url : string) (before after : list string),
    let w := exec (serve E before ;; checkModelReady E ;; serve E after)
                  (initialWorld url false) in
    (exists d1 d2,
        trace w = d1 ++ [EvStatus "disabled"; EvNeverReady] ++ d2
        /\ CannedTurns waitingMessages before d1
        /\ CannedTurns noAIMessages after d2)
    /\ gets (trace w) = [] /\ posts (trace w) = [] /\ sleeps (trace w) = [].
Proof.
  intros E url before after. cbv zeta. rewrite !exec_then.
  destruct (serve_canned E before (initialWorld url false) eq_refl) as (d1 & T1 & C1).
  assert (G1 := serve_globals E before (initialWorld url false)).
  change (trace (initialWorld url false) ++ d1) with d1 in T1.
  change (cannedTable (initialWorld url false)) with waitingMessages in C1.
  generalize dependent (exec (serve E before) (initialWorld url false)).
  intros w1 T1 G1.
  unfold checkModelReady.
  destruct (checkModelReadyN_disabled E 100 w1) as [T2 G2]; [rewrite G1; reflexivity|].
  rewrite T1, G1 in *.
  generalize dependent (exec (checkModelReadyN E 100) w1). intros w2 T2 G2.
  destruct (serve_canned E after w2) as (d2 & T3 & C3); [rewrite G2; reflexivity|].
  unfold cannedTable in C3. rewrite G2 in C3. cbn [withNeverReady modelNeverReady] in C3.
  rewrite T3, T2, <- !app_assoc.
  destruct (canned_footprint _ _ _ C1) as (A1 & A2 & A3).
  destruct (canned_footprint _ _ _ C3) as (B1 & B2 & B3).
  split; [exists d1, d2; repeat split; assumption|].
  rewrite !gets_app, !posts_app, !sleeps_app, A1, A2, A3, B1, B2, B3. repeat split.
Qed.

(** ** Start-up *)

Lemma main_listening (P : Process) (addr : string) (w0 : World) :
  main P = Listening addr w0 ->
  getenv P "OLLAMA_URL" <> EmptyString
  /\ initDB P = None
  /\ w0 = initialWorld (getenv P "OLLAMA_URL")
            (negb (String.eqb (getenv P "OLLAMA_ENABLED") "false")).
Proof.
  unfold main.
  destruct (String.eqb (getenv P "OLLAMA_URL") EmptyString) eqn:Hu; [discriminate|].
  destruct (initDB P); [discriminate|].
  destruct (listenError P); [discriminate|].
  intro H. injection H as _ <-.
  apply String.eqb_neq in Hu. repeat split. exact Hu.
Qed.

(** X12.  When [main] gets as far as serving, OLLAMA_URL was set and is the
    base of every call to the service, and AI is switched off exactly when
    OLLAMA_ENABLED is the string false: the readiness check then ends in the
    status disabled with [modelNeverReady] set and without a single call to
    the service; with any other value, unset included, it ends in ready or
    failed. *)
Theorem ai_is_off_only_when_OLLAMA_ENABLED_is_false :
  forall (P : Process) (E : Env) (addr : string) (w0 : World),
    main P = Listening addr w0 ->
    let w := exec (checkModelReady E) w0 in
    getenv P "OLLAMA_URL" <> EmptyString
    /\ ollamaURL (globals w) = getenv P "OLLAMA_URL"
    /\ (modelStatus (globals w) = "disabled" <-> getenv P "OLLAMA_ENABLED" = "false")
    /\ (modelNeverReady (globals w) = true <-> getenv P "OLLAMA_ENABLED" = "false")
    /\ (getenv P "OLLAMA_ENABLED" = "false" ->
        gets (trace w) = [] /\ posts (trace w) = [])
    /\ (getenv P "OLLAMA_ENABLED" <> "false" ->
        modelStatus (globals w) = "ready" \/ modelStatus (globals w) = "failed").
Proof.
  intros P E addr w0 Hmain.
  destruct (main_listening P addr w0 Hmain) as (Hurl & _ & ->).
  set (url := getenv P "OLLAMA_URL") in *.
  set (enabled := negb (String.eqb (getenv P "OLLAMA_ENABLED") "false")).
  assert (Hen : enabled = false <-> getenv P "OLLAMA_ENABLED" = "false").
  { unfold enabled. rewrite negb_false_iff. apply String.eqb_eq. }
  assert (Hoff : ollamaEnabled (globals (initialWorld url enabled)) = false ->
                 trace (exec (checkModelReady E) (initialWorld url enabled)) =
                   [EvStatus "disabled"; EvNeverReady]).
  { intro H. unfold checkModelReady.
    destruct (checkModelReadyN_disabled E 100 (initialWorld url enabled) H) as [T _].
    exact T. }
  destruct (checkModelReady_from_start E url enabled) as [Hrun G].
  cbv zeta in *.
  generalize dependent (exec (checkModelReady E) (initialWorld url enabled)).
  intros w Hoff Hrun G.
  split; [exact Hurl|]. split; [rewrite G; apply ollamaURL_replay|].
  destruct (run_flags 100 enabled _ (globals (initialWorld url enabled)) Hrun eq_refl eq_refl)
    as [(He & S & N & R) | [(He & S & N & R & _) | (He & S & N & R)]];
    rewrite <- G in S, N, R; rewrite S, N.
  - assert (Hv := proj1 Hen He).
    split; [split; [intros _; exact Hv | reflexivity]|].
    split; [split; [intros _; exact Hv | reflexivity]|].
    split; [intros _; rewrite (Hoff He); split; reflexivity|].
    intro H. contradiction.
  - assert (Hv : getenv P "OLLAMA_ENABLED" <> "false").
    { intro H. apply Hen in H. congruence. }
    split; [split; [discriminate | intro; contradiction]|].
    split; [split; [discriminate | intro; contradiction]|].
    split; [intro; contradiction|]. intros _. left. reflexivity.
  - assert (Hv : getenv P "OLLAMA_ENABLED" <> "false").
    { intro H. apply Hen in H. congruence. }
    split; [split; [discriminate | intro; contradiction]|].
    split; [split; [discriminate | intro; contradiction]|].
    split; [intro; contradiction|]. intros _. right. reflexivity.
Qed.

(** A deployment without AI. *)
Definition noAIProcess : Process :=
  {| getenv := fun name =>
       if String.eqb name "OLLAMA_URL" then "http://ollama:11434"
       else if String.eqb name "OLLAMA_ENABLED" then "false"
       else EmptyString;
     poolError := None;
     createTableError := None;
     listenError := None |}.

Lemma ai_is_off_only_when_OLLAMA_ENABLED_is_false_witness :
  let w := exec (checkModelReady unreachableEnv) (initialWorld "http://ollama:11434" false) in
  getenv noAIProcess "OLLAMA_URL" <> EmptyString
  /\ ollamaURL (globals w) = getenv noAIProcess "OLLAMA_URL"
  /\ (modelStatus (globals w) = "disabled" <-> getenv noAIProcess "OLLAMA_ENABLED" = "false")
  /\ (modelNeverReady (globals w) = true <-> getenv noAIProcess "OLLAMA_ENABLED" = "false")
  /\ (getenv noAIProcess "OLLAMA_ENABLED" = "false" ->
      gets (trace w) = [] /\ posts (trace w) = [])
  /\ (getenv noAIProcess "OLLAMA_ENABLED" <> "false" ->
      modelStatus (globals w) = "ready" \/ modelStatus (globals w) = "failed").
Proof.
  exact (ai_is_off_only_when_OLLAMA_ENABLED_is_false noAIProcess unreachableEnv
           ":8080" (initialWorld "http://ollama:11434" false) eq_refl).
Defined.

(** ** The HTTP handlers *)

(** The status code of a response, and a header of it as sent. *)
Definition statusOf (w : ResponseWriter) : option nat := option_map fst (Sent w).

Definition sentHeader (w : ResponseWriter) (key : string) : option string :=
  match Sent w with
  | Some (_, h) => headerGet h key
  | None => None
  end.

(** The rows of a result set when every one of them scans. *)
Fixpoint scanned (rows : list (option ChatMessage)) : option (list ChatMessage) :=
  match rows with
  | [] => Some []
  | None :: _ => None
  | Some msg :: rest => option_map (cons msg) (scanned rest)
  end.

Lemma scanRows_scanned (rows : list (option ChatMessage)) :
  forall history w,
    scanRows rows history w =
      match scanned rows with
      | Some msgs =>
          Encode (historyJSON (history ++ msgs)) (Set_ "Content-Type" "application/json" w)
      | None => Error "Error processing chat history" 500 w
      end.
Proof.
  induction rows as [|[msg|] rows IH]; intros history w; cbn [scanRows scanned].
  - rewrite app_nil_r. reflexivity.
  - rewrite IH. destruct (scanned rows) as [msgs|]; cbn [option_map]; [|reflexivity].
    rewrite <- app_assoc. reflexivity.
  - reflexivity.
Qed.

Lemma scanned_all (msgs : list ChatMessage) : scanned (map Some msgs) = Some msgs.
Proof.
  induction msgs as [|m msgs IH]; [reflexivity|].
  cbn [map scanned]. rewrite IH. reflexivity.
Qed.

Lemma scanned_some (rows : list (option ChatMessage)) :
  In None rows -> scanned rows = None.
Proof.
  induction rows as [|[m|] rows IH]; intro H.
  - destruct H.
  - destruct H as [H | H]; [discriminate|]. cbn [scanned]. rewrite (IH H). reflexivity.
  - reflexivity.
Qed.

(** X13.  The history endpoint answers all or nothing.  When the query
    fails, or when any row of the result fails to scan, wherever it stands,
    the answer is a 500 with one line of plain text and no row at all.
    Otherwise it is a 200 with one JSON value holding every row in the order
    of the result: an array, except that an empty result is sent as null.
    The final error of the result set is not looked at, so a result cut
    short is served like a complete one. *)
Theorem history_is_all_or_nothing :
  forall (query : QueryResult) (w : ResponseWriter) (r : Request),
    Sent w = None -> Written w = [] ->
    let resp := getChatHistory query w r in
    (forall err, query = QueryErr err ->
       statusOf resp = Some 500
       /\ Written resp = [Text "Failed to fetch chat history"]
       /\ sentHeader resp "Content-Type" = Some "text/plain; charset=utf-8")
    /\ (forall rows rowsErr, query = QueryRows rows rowsErr -> In None rows ->
          statusOf resp = Some 500
          /\ Written resp = [Text "Error processing chat history"]
          /\ sentHeader resp "Content-Type" = Some "text/plain; charset=utf-8")
    /\ (forall msgs rowsErr, query = QueryRows (map Some msgs) rowsErr ->
          statusOf resp = Some 200
          /\ Written resp =
               [Encoded (match msgs with
                         | [] => JNull
                         | _ => JArray (map messageJSON msgs)
                         end)]
          /\ sentHeader resp "Content-Type" = Some "application/json").
Proof.
  intros query w r HS HW. cbv zeta. repeat split.
  - subst query. unfold getChatHistory, Error, Write, WriteHeader, Set_, Del, statusOf.
    cbn. rewrite HS. reflexivity.
  - subst query. unfold getChatHistory, Error, Write, WriteHeader, Set_, Del.
    cbn. rewrite HS. cbn. rewrite HW. reflexivity.
  - subst query. unfold getChatHistory, Error, Write, WriteHeader, Set_, Del, sentHeader.
    cbn. rewrite HS. reflexivity.
  - subst query. unfold getChatHistory. rewrite scanRows_scanned, (scanned_some _ H0).
    unfold Error, Write, WriteHeader, Set_, Del, statusOf. cbn. rewrite HS. reflexivity.
  - subst query. unfold getChatHistory. rewrite scanRows_scanned, (scanned_some _ H0).
    unfold Error, Write, WriteHeader, Set_, Del. cbn. rewrite HS. cbn. rewrite HW.
    reflexivity.
  - subst query. unfold getChatHistory. rewrite scanRows_scanned, (scanned_some _ H0).
    unfold Error, Write, WriteHeader, Set_, Del, sentHeader. cbn. rewrite HS. reflexivity.
  - subst query. unfold getChatHistory. rewrite scanRows_scanned, scanned_all.
    unfold Encode, Write, WriteHeader, Set_, statusOf. cbn. rewrite HS. reflexivity.
  - subst query. unfold getChatHistory. rewrite scanRows_scanned, scanned_all.
    unfold Encode, Write, WriteHeader, Set_. cbn. rewrite HS. cbn. rewrite HW.
    destruct msgs; reflexivity.
  - subst query. unfold getChatHistory. rewrite scanRows_scanned, scanned_all.
    unfold Encode, Write, WriteHeader, Set_, sentHeader. cbn. rewrite HS. reflexivity.
Qed.

Lemma history_is_all_or_nothing_witness :
  let resp := getChatHistory (QueryRows [] (Some "conn closed")) newResponse
                {| Method := "GET" |} in
  statusOf resp = Some 200
  /\ Written resp = [Encoded JNull]
  /\ sentHeader resp "Content-Type" = Some "application/json".
Proof.
  exact (proj2 (proj2 (history_is_all_or_nothing (QueryRows [] (Some "conn closed"))
                         newResponse {| Method := "GET" |} eq_refl eq_refl))
           [] (Some "conn closed") eq_refl).
Defined.

(** The headers [corsMiddleware] sets, as the header map holds them. *)
Definition corsHeaders : list (string * string) :=
  [("Access-Control-Allow-Headers", "Content-Type");
   ("Access-Control-Allow-Methods", "GET, POST, OPTIONS");
   ("Access-Control-Allow-Origin", "*")].

Lemma corsMiddleware_preflight (next : HandlerFunc) (r : Request) :
  Method r = "OPTIONS" ->
  corsMiddleware next newResponse r =
    {| Header := corsHeaders; Sent := Some (200, corsHeaders); Written := [] |}.
Proof. intro H. unfold corsMiddleware. rewrite H. reflexivity. Qed.

Lemma corsMiddleware_passes (next : HandlerFunc) (r : Request) :
  Method r <> "OPTIONS" ->
  corsMiddleware next newResponse r =
    next {| Header := corsHeaders; Sent := None; Written := [] |} r.
Proof.
  intro H. unfold corsMiddleware. apply String.eqb_neq in H. rewrite H. reflexivity.
Qed.

Lemma headerGet_app (a b : list (string * string)) (key : string) :
  headerGet (a ++ b) key =
    match headerGet a key with
    | Some v => Some v
    | None => headerGet b key
    end.
Proof.
  induction a as [|[k v] a IH]; [reflexivity|].
  cbn [app headerGet]. destruct (String.eqb k key); [reflexivity | exact IH].
Qed.

(** X14.  Each of the four routes registered behind [corsMiddleware] answers
    every request, whatever its method, the state of the readiness check and
    the outcome of the database query, with a status line that carries the
    three CORS headers.  A preflight (method OPTIONS) is answered 200 with an
    empty body and without a content type, the same on every route: the
    route's handler is not run, so no query result and no package variable
    shows in the answer.  Any other request is answered by the handler with
    exactly one write, under status 200 or 500. *)
Theorem api_routes_answer_with_cors_headers :
  forall (P : Process) (B : Build) (g : Globals) (query : QueryResult)
         (route : Route) (r : Request),
    let resp := handlerOf P B g query route newResponse r in
    sentHeader resp "Access-Control-Allow-Origin" = Some "*"
    /\ sentHeader resp "Access-Control-Allow-Methods" = Some "GET, POST, OPTIONS"
    /\ sentHeader resp "Access-Control-Allow-Headers" = Some "Content-Type"
    /\ (Method r = "OPTIONS" ->
        resp = {| Header := corsHeaders; Sent := Some (200, corsHeaders); Written := [] |})
    /\ (Method r <> "OPTIONS" ->
        length (Written resp) = 1
        /\ (statusOf resp = Some 200 \/ statusOf resp = Some 500)
        /\ (route <> ApiHistory -> statusOf resp = Some 200)).
Proof.
  intros P B g query route r. cbv zeta.
  destruct (String.eqb (Method r) "OPTIONS") eqn:Hm.
  - apply String.eqb_eq in Hm.
    assert (H : handlerOf P B g query route newResponse r =
                {| Header := corsHeaders; Sent := Some (200, corsHeaders); Written := [] |}).
    { destruct route; apply corsMiddleware_preflight, Hm. }
    rewrite H. split; [reflexivity|]. split; [reflexivity|]. split; [reflexivity|].
    split; [reflexivity|]. intro Hn. contradiction.
  - apply String.eqb_neq in Hm.
    assert (Hok : forall resp : ResponseWriter,
              (exists code v, (code = 200 \/ code = 500)
                 /\ (route <> ApiHistory -> code = 200)
                 /\ exists h, Sent resp = Some (code, h ++ corsHeaders)
                      /\ headerGet h "Access-Control-Allow-Origin" = None
                      /\ headerGet h "Access-Control-Allow-Methods" = None
                      /\ headerGet h "Access-Control-Allow-Headers" = None
                      /\ Written resp = [v]) ->
              sentHeader resp "Access-Control-Allow-Origin" = Some "*"
              /\ sentHeader resp "Access-Control-Allow-Methods" = Some "GET, POST, OPTIONS"
              /\ sentHeader resp "Access-Control-Allow-Headers" = Some "Content-Type"
              /\ (Method r = "OPTIONS" ->
                  resp = {| Header := corsHeaders; Sent := Some (200, corsHeaders);
                            Written := [] |})
              /\ (Method r <> "OPTIONS" ->
                  length (Written resp) = 1
                  /\ (statusOf resp = Some 200 \/ statusOf resp = Some 500)
                  /\ (route <> ApiHistory -> statusOf resp = Some 200))).
    { intros resp (code & v & Hc & Hr & h & HS & H1 & H2 & H3 & HW).
      unfold sentHeader, statusOf. rewrite HS, HW.
      rewrite !headerGet_app, H1, H2, H3.
      split; [reflexivity|]. split; [reflexivity|]. split; [reflexivity|].
      split; [intro; contradiction|]. intros _.
      split; [reflexivity|]. cbn [option_map fst].
      split; [destruct Hc as [-> | ->]; [left | right]; reflexivity|].
      intro H. rewrite (Hr H). reflexivity. }
    apply Hok.
    destruct route; unfold handlerOf; rewrite (corsMiddleware_passes _ r Hm).
    + unfold getChatHistory. destruct query as [err | rows rowsErr].
      * exists 500, (Text "Failed to fetch chat history").
        split; [right; reflexivity|]. split; [intro H; contradiction|].
        exists [("X-Content-Type-Options", "nosniff");
                ("Content-Type", "text/plain; charset=utf-8")].
        repeat split.
      * rewrite scanRows_scanned. destruct (scanned rows) as [msgs|].
        -- exists 200, (Encoded (historyJSON msgs)).
           split; [left; reflexivity|]. split; [reflexivity|].
           exists [("Content-Type", "application/json")]. repeat split.
        -- exists 500, (Text "Error processing chat history").
           split; [right; reflexivity|]. split; [intro H; contradiction|].
           exists [("X-Content-Type-Options", "nosniff");
                   ("Content-Type", "text/plain; charset=utf-8")].
           repeat split.
    + eexists 200, _. split; [left; reflexivity|]. split; [reflexivity|].
      exists [("Content-Type", "application/json")]. repeat split.
    + eexists 200, _. split; [left; reflexivity|]. split; [reflexivity|].
      exists [("Content-Type", "application/json")]. repeat split.
    + eexists 200, _. split; [left; reflexivity|]. split; [reflexivity|].
      exists [("Content-Type", "application/json")]. repeat split.
Qed.

(** ** A turn of the chat, end to end *)







(** ** The status badge *)

(** The badge shown for the tag set before retry [n]. *)
Definition retryBadge (n : nat) : ModelStatus.StatusInfo :=
  ModelStatus.getStatusInfo
    {| ModelStatus.ready := false;
       ModelStatus.status := "retry_" ++ itoa n;
       ModelStatus.model := EmptyString |}.

Definition retryBadgeAsExpected (n : nat) : bool :=
  if (n <=? 5)%nat then
    String.eqb (ModelStatus.text (retryBadge n)) "🔄 Retrying model loading..."
    && String.eqb (ModelStatus.color (retryBadge n)) "yellow"
    && (ModelStatus.progress (retryBadge n) =? 50)%nat
  else
    String.eqb (ModelStatus.text (retryBadge n)) ("🔄 retry_" ++ itoa n)
    && String.eqb (ModelStatus.color (retryBadge n)) "gray"
    && (ModelStatus.progress (retryBadge n) =? 30)%nat.

Lemma retryBadges_checked : forallb retryBadgeAsExpected (seq 2 99) = true.
Proof. vm_compute. reflexivity. Qed.

(** The badge of a retry tag depends on neither the model nor the flag. *)
Lemma getStatusInfo_retry (r : bool) (m suffix : string) :
  ModelStatus.getStatusInfo
    {| ModelStatus.ready := r; ModelStatus.status := "retry_" ++ suffix;
       ModelStatus.model := m |} =
  ModelStatus.getStatusInfo
    {| ModelStatus.ready := false; ModelStatus.status := "retry_" ++ suffix;
       ModelStatus.model := EmptyString |}.
Proof. reflexivity. Qed.

(** X16.  The status tags [checkModelReady] sets before its attempts 2 to
    100 are retry_2 to retry_100, and the badge knows only the first five:
    retry_2 to retry_5 are shown as the yellow badge for retrying at progress
    50, retry_6 to retry_100 fall through to the default, the gray badge that
    shows the raw tag at progress 30. *)
Theorem retry_badge_covers_only_the_first_five :
  forall (n : nat) (r : bool) (m : string),
    2 <= n <= 100 ->
    let info := ModelStatus.getStatusInfo
                  {| ModelStatus.ready := r;
                     ModelStatus.status := "retry_" ++ itoa n;
                     ModelStatus.model := m |} in
    (n <= 5 ->
       ModelStatus.text info = "🔄 Retrying model loading..."
       /\ ModelStatus.color info = "yellow" /\ ModelStatus.progress info = 50)
    /\ (5 < n ->
       ModelStatus.text info = ("🔄 retry_" ++ itoa n)%string
       /\ ModelStatus.color info = "gray" /\ ModelStatus.progress info = 30).
Proof.
  intros n r m Hn. cbv zeta. rewrite getStatusInfo_retry. fold (retryBadge n).
  assert (Hin : In n (seq 2 99)) by (apply in_seq; lia).
  assert (H := proj1 (forallb_forall retryBadgeAsExpected (seq 2 99)) retryBadges_checked n Hin).
  unfold retryBadgeAsExpected in H.
  destruct (n <=? 5)%nat eqn:H5.
  - apply Nat.leb_le in H5.
    apply andb_prop in H as [H Hp]. apply andb_prop in H as [Ht Hc].
    apply String.eqb_eq in Ht, Hc. apply Nat.eqb_eq in Hp.
    split; [intros _; repeat split; assumption | intro; lia].
  - apply Nat.leb_gt in H5.
    apply andb_prop in H as [H Hp]. apply andb_prop in H as [Ht Hc].
    apply String.eqb_eq in Ht, Hc. apply Nat.eqb_eq in Hp.
    split; [intro; lia | intros _; repeat split; assumption].
Qed.

Lemma retry_badge_covers_only_the_first_five_witness :
  let info := ModelStatus.getStatusInfo
                {| ModelStatus.ready := false;
                   ModelStatus.status := "retry_" ++ itoa 6;
                   ModelStatus.model := "m1" |} in
  (6 <= 5 ->
     ModelStatus.text info = "🔄 Retrying model loading..."
     /\ ModelStatus.color info = "yellow" /\ ModelStatus.progress info = 50)
  /\ (5 < 6 ->
     ModelStatus.text info = ("🔄 retry_" ++ itoa 6)%string
     /\ ModelStatus.color info = "gray" /\ ModelStatus.progress info = 30).
Proof.
  apply (retry_badge_covers_only_the_first_five 6 false "m1"). lia.
Defined.

(** The request a [fetch] without options sends. *)
Definition fetchRequest : Request := {| Method := "GET" |}.

(** What a poll of /api/model-status puts into the component's state. *)
Lemma getModelStatus_polled (P : Process) (B : Build) (g : Globals) (query : QueryResult) :
  let response := handlerOf P B g query ApiModelStatus newResponse fetchRequest in
  exists data,
    Written response = [Encoded data]
    /\ statusOf response = Some 200
    /\ ModelStatus.polled data =
         Some {| ModelStatus.ready := modelReady g;
                 ModelStatus.status := modelStatus g;
                 ModelStatus.model := ollamaModel g |}.
Proof. eexists. repeat split. Qed.

(** X17.  What the status badge shows once [checkModelReady] has returned.
    A poll of /api/model-status is answered 200 with an object the component
    takes as its state: the flag, the status and the model name the run left
    behind.  The run has one of three outcomes and each has its badge.  With
    Ollama disabled it ended on disabled, and the badge is the default gray
    one with the text disabled, a spinner and the progress bar at 30.  When a
    cycle succeeded it ended on ready with [modelReady] set, and the badge is
    the green one naming [ollamaModel], without spinner and without bar.
    When every attempt failed it ended on failed with [modelReady] clear, and
    the badge is the red one for a failed load, without spinner and without
    bar. *)
Theorem final_status_badge :
  forall (E : Env) (url : string) (enabled : bool)
         (P : Process) (B : Build) (query : QueryResult),
    let w := exec (checkModelReady E) (initialWorld url enabled) in
    let response := handlerOf P B (globals w) query ApiModelStatus newResponse fetchRequest in
    exists data st,
      Written response = [Encoded data]
      /\ statusOf response = Some 200
      /\ ModelStatus.polled data = Some st
      /\ st = {| ModelStatus.ready := modelReady (globals w);
                 ModelStatus.status := modelStatus (globals w);
                 ModelStatus.model := ollamaModel (globals w) |}
      /\ ((enabled = false
           /\ modelStatus (globals w) = "disabled" /\ modelReady (globals w) = false
           /\ ModelStatus.getStatusInfo st =
                {| ModelStatus.color := "gray"; ModelStatus.text := "🔄 disabled";
                   ModelStatus.progress := 30; ModelStatus.icon := true |}
           /\ ModelStatus.showsProgress st = true)
          \/ (enabled = true
              /\ modelStatus (globals w) = "ready" /\ modelReady (globals w) = true
              /\ ModelStatus.getStatusInfo st =
                   {| ModelStatus.color := "green";
                      ModelStatus.text := "✅ Ready: " ++ ollamaModel (globals w);
                      ModelStatus.progress := 100; ModelStatus.icon := false |}
              /\ ModelStatus.showsProgress st = false)
          \/ (enabled = true
              /\ modelStatus (globals w) = "failed" /\ modelReady (globals w) = false
              /\ ModelStatus.getStatusInfo st =
                   {| ModelStatus.color := "red";
                      ModelStatus.text := "❌ Model loading failed";
                      ModelStatus.progress := 0; ModelStatus.icon := false |}
              /\ ModelStatus.showsProgress st = false))
      /\ (modelStatus (globals w) = "ready" ->
          ModelStatus.color (ModelStatus.getStatusInfo st) = "green"
          /\ ModelStatus.text (ModelStatus.getStatusInfo st) =
               ("✅ Ready: " ++ ollamaModel (globals w))%string)
      /\ (modelStatus (globals w) = "failed" ->
          ModelStatus.color (ModelStatus.getStatusInfo st) = "red"
          /\ ModelStatus.text (ModelStatus.getStatusInfo st) = "❌ Model loading failed")
      /\ (modelStatus (globals w) = "disabled" ->
          ModelStatus.color (ModelStatus.getStatusInfo st) = "gray"
          /\ ModelStatus.text (ModelStatus.getStatusInfo st) = "🔄 disabled").
Proof.
  intros E url enabled P B query.
  destruct (checkModelReady_from_start E url enabled) as [Hrun G].
  cbv zeta in *.
  generalize dependent (exec (checkModelReady E) (initialWorld url enabled)).
  intros w Hrun G.
  destruct (getModelStatus_polled P B (globals w) query) as (data & HW & HS & HP).
  exists data, {| ModelStatus.ready := modelReady (globals w);
                  ModelStatus.status := modelStatus (globals w);
                  ModelStatus.model := ollamaModel (globals w) |}.
  split; [exact HW|]. split; [exact HS|]. split; [exact HP|]. split; [reflexivity|].
  unfold ModelStatus.showsProgress, ModelStatus.getStatusInfo.
  cbn [ModelStatus.ready ModelStatus.status ModelStatus.model].
  destruct (run_flags 100 enabled _ (globals (initialWorld url enabled)) Hrun eq_refl eq_refl)
    as [(He & S & N & R) | [(He & S & N & R & _) | (He & S & N & R)]];
    rewrite <- G in S, N, R; rewrite S, R.
  - split; [left; repeat split; exact He|].
    split; [discriminate|]. split; [discriminate|]. intros _. split; reflexivity.
  - split; [right; left; repeat split; exact He|].
    split; [intros _; split; reflexivity|]. split; discriminate.
  - split; [right; right; repeat split; exact He|].
    split; [discriminate|]. split; [intros _; split; reflexivity | discriminate].
Qed.

(** ** The history button and the header *)

(** A row as the chat shows it. *)
Definition bubbleOf (m : ChatMessage) : Chat.Message :=
  {| Chat.sender := Sender m; Chat.text := Message m |}.

Lemma mapEntries_rows (msgs : list ChatMessage) :
  Chat.mapEntries (map messageJSON msgs) = Chat.Normal (map bubbleOf msgs).
Proof.
  induction msgs as [|m msgs IH]; [reflexivity|].
  cbn [map Chat.mapEntries]. rewrite IH. reflexivity.
Qed.

Lemma getChatHistory_behind_cors (query : QueryResult) :
  corsMiddleware (getChatHistory query) newResponse fetchRequest =
    getChatHistory query {| Header := corsHeaders; Sent := None; Written := [] |}
      fetchRequest.
Proof. reflexivity. Qed.

(** X18.  What the Load Chat History button does to the chat, given what
    the query of /api/history returns.  When the query fails or a row fails
    to scan, and also when the table is empty (the body is then null, which
    has no map), the messages on screen stay exactly as they were.  When the
    table has rows, the messages on screen are replaced by the rows, one
    bubble per row in the order of the result, with the row's sender and
    message: nothing that was shown before is kept. *)
Theorem history_button_replaces_or_keeps :
  forall (P : Process) (B : Build) (g : Globals) (query : QueryResult)
         (messages : list Chat.Message),
    let response := handlerOf P B g query ApiHistory newResponse fetchRequest in
    (forall err, query = QueryErr err ->
       Chat.loadChatHistory response messages = Some messages)
    /\ (forall rows rowsErr, query = QueryRows rows rowsErr -> In None rows ->
          Chat.loadChatHistory response messages = Some messages)
    /\ (forall rowsErr, query = QueryRows [] rowsErr ->
          Chat.loadChatHistory response messages = Some messages)
    /\ (forall msgs rowsErr, query = QueryRows (map Some msgs) rowsErr -> msgs <> [] ->
          Chat.loadChatHistory response messages = Some (map bubbleOf msgs)).
Proof.
  intros P B g query messages. cbv zeta. unfold handlerOf.
  rewrite getChatHistory_behind_cors. unfold getChatHistory.
  split; [|split; [|split]].
  - intros err ->. reflexivity.
  - intros rows rowsErr -> Hin. rewrite scanRows_scanned, (scanned_some _ Hin). reflexivity.
  - intros rowsErr ->. reflexivity.
  - intros msgs rowsErr -> Hne. rewrite scanRows_scanned, scanned_all.
    destruct msgs as [|m msgs]; [contradiction|].
    unfold Chat.loadChatHistory, Encode, Write, WriteHeader, Set_.
    cbn [Sent Written Header app historyJSON Nat.leb andb].
    rewrite mapEntries_rows. reflexivity.
Qed.

(** A table with one exchange. *)
Definition oneExchange : list ChatMessage :=
  [{| ID := 1%Z; Sender := "User"; Message := "Hi";
      Timestamp := "2025-01-01T00:00:00Z" |};
   {| ID := 2%Z; Sender := "AI"; Message := "Hello";
      Timestamp := "2025-01-01T00:00:01Z" |}].

Lemma history_button_replaces_or_keeps_witness :
  Chat.loadChatHistory
    (handlerOf noAIProcess devBuild (globals readyWorld)
       (QueryRows (map Some oneExchange) None) ApiHistory newResponse fetchRequest)
    Chat.initialMessages =
  Some (map bubbleOf oneExchange).
Proof.
  apply (proj2 (proj2 (proj2
           (history_button_replaces_or_keeps noAIProcess devBuild (globals readyWorld)
              (QueryRows (map Some oneExchange) None) Chat.initialMessages)))
           oneExchange None eq_refl).
  discriminate.
Defined.

(** [v] when it is not empty, [fallback] otherwise. *)
Definition orDefault (v fallback : string) : string :=
  if String.eqb v EmptyString then fallback else v.

Lemma orDefault_filled (v fallback : string) :
  fallback <> EmptyString -> orDefault v fallback <> EmptyString.
Proof.
  intro H. unfold orDefault. destruct (String.eqb v EmptyString) eqn:Hv; [exact H|].
  apply String.eqb_neq. exact Hv.
Qed.

(** X19.  The header of the chat after its fetch of /api/config, whatever
    the environment, the build and the state of the readiness check: the
    answer is a 200 with an object the component accepts; region and role are
    the variables REGION and ROLE, the model is [ollamaModel], the version is
    the build's, the title is the mascot followed by CHAT_TITLE; and each of
    them that is empty is shown as unknown (as Cubby Chat for the title), so
    that no field of the header is ever empty.  In particular the model reads
    unknown as long as [ollamaModel] is empty. *)
Theorem chat_header_is_never_empty :
  forall (P : Process) (B : Build) (g : Globals) (query : QueryResult),
    let response := handlerOf P B g query ApiConfig newResponse fetchRequest in
    exists data title config,
      Written response = [Encoded data]
      /\ statusOf response = Some 200
      /\ Chat.applyConfig data = Some (title, config)
      /\ title = ("🧸 " ++ orDefault (getenv P "CHAT_TITLE") "Cubby Chat")%string
      /\ Chat.model config = orDefault (ollamaModel g) "unknown"
      /\ Chat.version config = orDefault (Version B) "unknown"
      /\ Chat.region config = orDefault (getenv P "REGION") "unknown"
      /\ Chat.role config = orDefault (getenv P "ROLE") "unknown"
      /\ Chat.model config <> EmptyString /\ Chat.version config <> EmptyString
      /\ Chat.region config <> EmptyString /\ Chat.role config <> EmptyString.
Proof.
  intros P B g query. cbv zeta.
  exists (Config.toJSON
            {| Config.Title := getenv P "CHAT_TITLE";
               Config.Version := Version B;
               Config.GitCommit := GitCommit B;
               Config.BuildDate := BuildDate B;
               Config.Model := ollamaModel g;
               Config.Region := orDefault (getenv P "REGION") "unknown";
               Config.Role := orDefault (getenv P "ROLE") "unknown" |}).
  exists ("🧸 " ++ orDefault (getenv P "CHAT_TITLE") "Cubby Chat")%string.
  exists {| Chat.model := orDefault (ollamaModel g) "unknown";
            Chat.version := orDefault (Version B) "unknown";
            Chat.region := orDefault (getenv P "REGION") "unknown";
            Chat.role := orDefault (getenv P "ROLE") "unknown" |}.
  split; [reflexivity|]. split; [reflexivity|].
  split.
  - unfold Chat.applyConfig, Config.toJSON.
    cbn [Config.Title Config.Version Config.GitCommit Config.BuildDate Config.Model
         Config.Region Config.Role].
    cbn [lookup String.eqb Ascii.eqb Bool.eqb Chat.orElse].
    unfold orDefault.
    destruct (String.eqb (getenv P "REGION") EmptyString) eqn:Hg;
      destruct (String.eqb (getenv P "ROLE") EmptyString) eqn:Hl;
      cbn [String.eqb]; rewrite ?Hg, ?Hl; reflexivity.
  - cbn [Chat.model Chat.version Chat.region Chat.role].
    repeat split; apply orDefault_filled; discriminate.
Qed.
